(** * NEM2Pay: invoice reconciliation and bot status forwarding

    A shallow embedding of the blockchain decoding service
    ([getTransactionHash], [getTransactionMessage], [getTransactionAmount],
    [extractMosaicFromTransactionData_]) and of the [PaymentsProtocol] class
    ([startPaymentChannel], [storeInvoiceStatusUpdate],
    [processPaymentChannelSuccess], [fetchInvoicesRealHistory],
    [saveIncomingPaymentsHistory]), together with the [getTotalIncoming]
    method of the invoice model.

    Conventions of the embedding.
    - JavaScript numbers that hold amounts, quantities and ids are integers
      and are modelled by [Z]; this is exact below 2^53, which covers every
      amount of the chain (at most 9 * 10^15 micro units).
    - A property that may be missing from an object is an [option]; reading a
      property of [undefined] raises [TypeError], as in the source.
    - Invoice documents that the reconciliation shares with its caller live
      in a heap and are held by reference; the documents that the bot
      protocol loads from the store are copies that [save] writes back.
    - Callbacks of the store and of the gateway promise are run in the order
      in which the source chains them; the effects that leave the process
      (socket emissions, store saves, gateway requests, callback calls, log
      lines) are collected in a trace.
    - Functions of libraries that are not part of the repository (the NEM
      SDK, CryptoJS, [JSON.parse], floating point formatting) are fields of
      the interfaces [FloatOps], [ChainLib] and [BotLib]. *)

From Stdlib Require Import ZArith String Ascii List Lia Bool.
From stdpp Require Import base decidable option list gmap strings pretty.
Import ListNotations.
Local Open Scope string_scope.
Local Open Scope list_scope.
Local Open Scope Z_scope.

(** ** JavaScript values and exceptions *)

Module JS.

Inductive error := TypeError | ReferenceError | SyntaxError.

(** A computation either returns or throws. *)
Inductive res (A : Type) : Type :=
| Ok (a : A)
| Throw (e : error).
Arguments Ok {A} a.
Arguments Throw {A} e.

Definition bind {A B} (r : res A) (k : A -> res B) : res B :=
  match r with
  | Ok a => k a
  | Throw e => Throw e
  end.

(** [o.f] where [o] may be [undefined]. *)
Definition deref {A} (o : option A) : res A :=
  match o with
  | Some a => Ok a
  | None => Throw TypeError
  end.

(** The values an amount variable can hold in the source. *)
Inductive jsval :=
| JUndefined
| JNaN
| JNum (z : Z)
| JStr (s : string).

Definition ToString (v : jsval) : string :=
  match v with
  | JUndefined => "undefined"
  | JNaN => "NaN"
  | JNum z => pretty z
  | JStr s => s
  end.

(** The binary [+]: concatenation as soon as one side is a string. *)
Definition add (a b : jsval) : jsval :=
  match a, b with
  | JNum x, JNum y => JNum (x + y)
  | JStr _, _ | _, JStr _ => JStr (ToString a ++ ToString b)%string
  | _, _ => JNaN
  end.

(** Truthiness of a value used as a condition. *)
Definition truthy (v : jsval) : bool :=
  match v with
  | JUndefined | JNaN => false
  | JNum z => negb (z =? 0)
  | JStr s => negb (bool_decide (s = ""))
  end.

Definition truthy_str (o : option string) : bool :=
  match o with
  | Some s => negb (bool_decide (s = ""))
  | None => false
  end.

End JS.

Import JS.

Notation "x <- r ;; k" := (JS.bind r (fun x => k))
  (at level 100, r at next level, right associativity).

(** ** External libraries *)

(** Number operations of the runtime that leave the integers. *)
Class FloatOps := {
  (** [((amount / Math.pow(10, d)) * quantity).toFixed(d)] *)
  scaled_toFixed : option Z -> nat -> Z -> string;
  (** [s >= n], [s > n] and [s < n] for a string [s], which the runtime
      first converts to a floating point number. *)
  str_ge : string -> Z -> bool;
  str_gt : string -> Z -> bool;
  str_lt : string -> Z -> bool
}.

(** The NEM SDK and CryptoJS, as the blockchain service uses them. *)
Class ChainLib := {
  (** [nem_.model.transactionTypes.transfer] *)
  transfer : Z;
  (** [nem_.model.transactionTypes.multisigTransaction] *)
  multisigTransaction : Z;
  (** [nem_.utils.convert.hex2a] *)
  hex2a : string -> string;
  (** [CryptoJS.AES.decrypt(plain, this.getEncryptionSecretKey())] *)
  AES_decrypt : string -> string
}.

(** Comparisons of an amount value with a number. *)
Section Compare.
Context `{FloatOps}.

Definition js_ge (v : jsval) (n : Z) : bool :=
  match v with
  | JNum a => n <=? a
  | JStr s => str_ge s n
  | JUndefined | JNaN => false
  end.

Definition js_gt (v : jsval) (n : Z) : bool :=
  match v with
  | JNum a => n <? a
  | JStr s => str_gt s n
  | JUndefined | JNaN => false
  end.

Definition js_lt (v : jsval) (n : Z) : bool :=
  match v with
  | JNum a => a <? n
  | JStr s => str_lt s n
  | JUndefined | JNaN => false
  end.
End Compare.

(** ** Raw transaction records *)

Record hashData := { data : option string }.

Record metaData := {
  hash : option hashData;
  innerHash : option hashData;
  id : option Z
}.

Record mosaicIdT := { namespaceId : string; name : string }.

Record mosaicT := { mosaicId : mosaicIdT; quantity : Z }.

Record messageT := { payload : option string }.

(** The fields of a transfer, found at the top of a plain transfer and
    under [otherTrans] in a multisig envelope. *)
Record transferT := {
  amount : option Z;
  recipient : option string;
  message : option messageT;
  mosaics : option (list mosaicT)
}.

(** [transactionMetaDataPair.transaction]: [type], the transfer fields of
    the object itself ([self]) and the optional [otherTrans]. *)
Record transactionT := {
  type : Z;
  self : transferT;
  otherTrans : option transferT
}.

Record transactionMetaDataPair := {
  meta : metaData;
  transaction : transactionT
}.

(** ** The blockchain service *)

Module Blockchain.

(** [slug.replace(/^[^:]+:/, "")] *)
Definition is_colon (c : ascii) : bool := bool_decide (c = ":"%char).

Fixpoint after_colon (s : string) : option string :=
  match s with
  | EmptyString => None
  | String c r => if is_colon c then Some r else after_colon r
  end.

Definition strip_namespace (s : string) : string :=
  match s with
  | EmptyString => s
  | String c r =>
      if is_colon c then s
      else match after_colon r with Some t => t | None => s end
  end.

(** [slug.replace(/:[^:]+$/, "")] *)
Fixpoint has_colon (s : string) : bool :=
  match s with
  | EmptyString => false
  | String c r => is_colon c || has_colon r
  end.

Fixpoint before_last_colon (s : string) : option string :=
  match s with
  | EmptyString => None
  | String c r =>
      match before_last_colon r with
      | Some p => Some (String c p)
      | None =>
          if is_colon c && negb (bool_decide (r = "")) && negb (has_colon r)
          then Some ""
          else None
      end
  end.

Definition strip_name (s : string) : string :=
  match before_last_colon s with Some p => p | None => s end.

(** What the mosaic extractor returns: the boolean [false], or an object
    [{ totalMosaic, recipient }] whose [recipient] is [false] or the
    recipient field of the transfer. *)
Inductive recipientVal :=
| RecFalse
| RecField (r : option string).

Inductive extraction :=
| ExFalse
| ExObject (totalMosaic : Z) (recipient : recipientVal).

Section Service.
Context `{FloatOps} `{ChainLib}.

Definition getTransactionHash (p : transactionMetaDataPair) (inner : bool)
  : res (option string) :=
  h <- deref (hash (meta p)) ;;
  let trxHash := data h in
  if inner then
    ih <- deref (innerHash (meta p)) ;;
    if truthy_str (data ih) then Ok (data ih) else Ok trxHash
  else Ok trxHash.

Definition getTransactionId (p : transactionMetaDataPair) : option Z :=
  id (meta p).

Definition realData (content : transactionT) : res transferT :=
  if bool_decide (type content = multisigTransaction)
  then deref (otherTrans content)
  else Ok (self content).

Definition getTransactionMessage (p : transactionMetaDataPair)
    (doDecrypt : bool) : res string :=
  let content := transaction p in
  trxRealData <- realData content ;;
  match message trxRealData with
  | None => Ok ""
  | Some m =>
      if negb (truthy_str (payload m)) then Ok ""
      else
        let plain := hex2a (default "" (payload m)) in
        if doDecrypt then Ok (AES_decrypt plain) else Ok plain
  end.

Definition isLookupMosaic (lookupNS lookupMos : string) (m : mosaicT) : bool :=
  bool_decide (namespaceId (mosaicId m) = lookupNS)
  && bool_decide (name (mosaicId m) = lookupMos).

Definition getTransactionAmount (p : transactionMetaDataPair)
    (mosaicSlug : string) (divisibility : nat) : res jsval :=
  let content := transaction p in
  realContent <- realData content ;;
  let isMosaic :=
    match mosaics realContent with
    | Some (_ :: _) => true
    | _ => false
    end in
  let lookupNS := strip_name mosaicSlug in
  let lookupMos := strip_namespace mosaicSlug in
  if isMosaic then
    match List.find (isLookupMosaic lookupNS lookupMos)
            (default [] (mosaics realContent)) with
    | Some mosaic =>
        Ok (JStr (scaled_toFixed (amount realContent) divisibility
                    (quantity mosaic)))
    | None => Ok (JNum 0)
    end
  else if negb (bool_decide (mosaicSlug = "nem:xem")) then Ok (JNum 0)
  else Ok (match amount realContent with
           | Some a => JNum a
           | None => JUndefined
           end).

(** *** The mosaic extractor *)

Definition slugOf (m : mosaicT) : string :=
  (namespaceId (mosaicId m) ++ ":" ++ name (mosaicId m))%string.

(** [trxAmount > 0 ? parseInt(trxAmount / Math.pow(10, divisibility)) : 1].
    [parseInt] reads the integer prefix of the decimal text of the
    quotient, which is its floor for a positive quotient printed
    positionally (from 10^-6 up): always so for a divisibility of at
    most 6, the chain's maximum. *)
Definition mosMultiply (trxAmount : option Z) (divisibility : nat) : Z :=
  match trxAmount with
  | Some a => if 0 <? a then a / 10 ^ Z.of_nat divisibility else 1
  | None => 1
  end.

Fixpoint scanMosaics (trxMosaics : list mosaicT) (slugToExtract : string)
    (recipient : option string) (trxAmount : option Z) (divisibility : nat)
  : extraction :=
  match trxMosaics with
  | [] => ExObject 0 RecFalse
  | mosaic :: rest =>
      if negb (bool_decide (slugToExtract = slugOf mosaic))
      then scanMosaics rest slugToExtract recipient trxAmount divisibility
      else
        let mosAmount := quantity mosaic in
        let totalMosaic := mosMultiply trxAmount divisibility * mosAmount in
        ExObject totalMosaic (RecField recipient)
  end.

Definition extractMosaicFromTransactionData_
    (trxContent : option transactionT) (slugToExtract : option string)
    (divisibility : nat) : extraction :=
  match trxContent, slugToExtract with
  | None, _ | _, None => ExObject 0 RecFalse
  | Some trxContent, Some slugToExtract =>
      if bool_decide (slugToExtract = "") then ExObject 0 RecFalse
      else if bool_decide (type trxContent = multisigTransaction) then
        match otherTrans trxContent with
        | None => ExFalse
        | Some other =>
            match mosaics other with
            | None => ExFalse
            | Some trxMosaics =>
                scanMosaics trxMosaics slugToExtract (recipient other)
                  (amount other) divisibility
            end
        end
      else
        match mosaics (self trxContent) with
        | None | Some [] => ExFalse
        | Some trxMosaics =>
            scanMosaics trxMosaics slugToExtract
              (recipient (self trxContent)) (amount (self trxContent))
              divisibility
        end
  end.

End Service.

End Blockchain.

(** ** The invoice model *)

Module NEMPaymentChannel.

(** A document of the [NEMPaymentChannel] schema, with the [number] the
    increment plugin gives it and the [dirty] mark the reconciliation
    sets on the object. *)
Record t := {
  number : string;
  payerXEM : string;
  recipientXEM : string;
  socketIds : list string;
  amount : Z;
  amountPaid : jsval;
  amountUnconfirmed : jsval;
  status : option string;
  isPaid : bool;
  paidAt : option Z;
  dirty : bool
}.

Definition getTotalIncoming (this : t) : jsval :=
  JS.add (amountPaid this) (amountUnconfirmed this).

(** Assignments to one property. *)
Definition set_socketIds (v : list string) (i : t) : t :=
  {| number := number i; payerXEM := payerXEM i;
     recipientXEM := recipientXEM i; socketIds := v; amount := amount i;
     amountPaid := amountPaid i; amountUnconfirmed := amountUnconfirmed i;
     status := status i; isPaid := isPaid i; paidAt := paidAt i;
     dirty := dirty i |}.

Definition set_amountPaid (v : jsval) (i : t) : t :=
  {| number := number i; payerXEM := payerXEM i;
     recipientXEM := recipientXEM i; socketIds := socketIds i;
     amount := amount i; amountPaid := v;
     amountUnconfirmed := amountUnconfirmed i; status := status i;
     isPaid := isPaid i; paidAt := paidAt i; dirty := dirty i |}.

Definition set_amountUnconfirmed (v : jsval) (i : t) : t :=
  {| number := number i; payerXEM := payerXEM i;
     recipientXEM := recipientXEM i; socketIds := socketIds i;
     amount := amount i; amountPaid := amountPaid i;
     amountUnconfirmed := v; status := status i; isPaid := isPaid i;
     paidAt := paidAt i; dirty := dirty i |}.

Definition set_status (v : option string) (i : t) : t :=
  {| number := number i; payerXEM := payerXEM i;
     recipientXEM := recipientXEM i; socketIds := socketIds i;
     amount := amount i; amountPaid := amountPaid i;
     amountUnconfirmed := amountUnconfirmed i; status := v;
     isPaid := isPaid i; paidAt := paidAt i; dirty := dirty i |}.

Definition set_isPaid (v : bool) (i : t) : t :=
  {| number := number i; payerXEM := payerXEM i;
     recipientXEM := recipientXEM i; socketIds := socketIds i;
     amount := amount i; amountPaid := amountPaid i;
     amountUnconfirmed := amountUnconfirmed i; status := status i;
     isPaid := v; paidAt := paidAt i; dirty := dirty i |}.

Definition set_paidAt (v : option Z) (i : t) : t :=
  {| number := number i; payerXEM := payerXEM i;
     recipientXEM := recipientXEM i; socketIds := socketIds i;
     amount := amount i; amountPaid := amountPaid i;
     amountUnconfirmed := amountUnconfirmed i; status := status i;
     isPaid := isPaid i; paidAt := v; dirty := dirty i |}.

Definition set_dirty (v : bool) (i : t) : t :=
  {| number := number i; payerXEM := payerXEM i;
     recipientXEM := recipientXEM i; socketIds := socketIds i;
     amount := amount i; amountPaid := amountPaid i;
     amountUnconfirmed := amountUnconfirmed i; status := status i;
     isPaid := isPaid i; paidAt := paidAt i; dirty := v |}.

End NEMPaymentChannel.

Module Inv := NEMPaymentChannel.

(** ** Stateful code: state, then a result or an exception *)

Module Eff.

(** An exception leaves the state as it was when it was thrown. *)
Definition M (S A : Type) : Type := S -> S * res A.

Definition ret {S A} (a : A) : M S A := fun s => (s, Ok a).

Definition throw {S A} (e : error) : M S A := fun s => (s, Throw e).

Definition bind {S A B} (m : M S A) (k : A -> M S B) : M S B :=
  fun s =>
    match m s with
    | (s', Ok a) => k a s'
    | (s', Throw e) => (s', Throw e)
    end.

Definition get {S} : M S S := fun s => (s, Ok s).

Definition modify {S} (f : S -> S) : M S unit := fun s => (f s, Ok tt).

Definition lift {S A} (r : res A) : M S A := fun s => (s, r).

End Eff.

Notation "x <~ m ;; k" := (Eff.bind m (fun x => k))
  (at level 100, m at next level, right associativity).
Notation "m ;;; k" := (Eff.bind m (fun _ => k))
  (at level 100, right associativity).

(** ** The payments protocol: bot status updates *)

(** A parsed status update of the payment bot; every field is optional. *)
Module Upd.
Record t := {
  status : option string;
  message : option string;
  sender : option string;
  amountPaid : jsval;
  amountUnconfirmed : jsval
}.
End Upd.

(** CryptoJS, [JSON.parse] and the configuration, as the protocol uses
    them. *)
Class BotLib := {
  (** [CryptoJS.MD5(CryptoJS.lib.WordArray.create(payload)).toString()] *)
  MD5 : string -> string;
  (** [JSON.parse]: a [SyntaxError] on malformed text, [None] for the JSON
      value [null], and otherwise the fields the protocol reads (all of
      them missing when the value is not an object). *)
  JSON_parse : string -> res (option Upd.t);
  (** [config.get("payments.currency", "nem:xem")] *)
  currency : string
}.

Module PaymentsProtocol.

(** [{ socket: channelSocket, clientId: clientSocketId }] *)
Record channelT := { socket : string; clientId : string }.

(** The object forwarded to the client. *)
Record clientDataT := { cd_status : option string; paymentData : Upd.t }.

Record channelParamsT := {
  cp_mosaic : string;
  cp_message : string;
  cp_sender : string;
  cp_recipient : string;
  cp_amount : Z;
  cp_maxDuration : Z
}.

(** Effects that leave the protocol object. *)
Inductive event :=
| BotEmit (channel eventName : string) (params : channelParamsT)
| ClientEmit (clientId eventName : string) (payload : clientDataT)
| Save (doc : Inv.t)
| Log (level : string)
| Enter (function number : string)
| Callback (doc : Inv.t).

(** The store answers of one status update: whether [findOne] and the
    two [save] calls report an error. *)
Record storeAnswers := {
  findOne_err : bool;
  save_err : bool;
  resave_err : bool
}.

(** The collection of the store, [incomingStatusUpdates_.byChecksum],
    [botChannelSockets_] and the effects so far, oldest first. *)
Record botState := {
  db : list Inv.t;
  byChecksum : gmap string (option Upd.t);
  botChannelSockets_ : gmap string (list channelT);
  trace : list event
}.

Definition logged (e : event) (st : botState) : botState :=
  {| db := db st; byChecksum := byChecksum st;
     botChannelSockets_ := botChannelSockets_ st;
     trace := trace st ++ [e] |}.

Definition emit (e : event) : Eff.M botState unit := Eff.modify (logged e).

(** [findOne(invoiceQuery)]: the first document that has every field of
    the query. *)
Record invoiceQueryT := {
  q_number : option string;
  q_payerXEM : option string
}.

Definition matches (q : invoiceQueryT) (i : Inv.t) : bool :=
  match q_number q with
  | Some n => bool_decide (Inv.number i = n)
  | None => true
  end
  && match q_payerXEM q with
     | Some a => bool_decide (Inv.payerXEM i = a)
     | None => true
     end.

Definition findOne (q : invoiceQueryT) (docs : list Inv.t) : option Inv.t :=
  List.find (matches q) docs.

(** [invoice.save()]: the document replaces the stored one of the same
    number, or is added to the collection. *)
Fixpoint store (doc : Inv.t) (docs : list Inv.t) : list Inv.t :=
  match docs with
  | [] => [doc]
  | d :: rest =>
      if bool_decide (Inv.number d = Inv.number doc) then doc :: rest
      else d :: store doc rest
  end.

Definition saved (doc : Inv.t) (st : botState) : botState :=
  {| db := store doc (db st); byChecksum := byChecksum st;
     botChannelSockets_ := botChannelSockets_ st;
     trace := trace st ++ [Save doc] |}.

Definition save (doc : Inv.t) : Eff.M botState unit := Eff.modify (saved doc).

Definition recorded (checksum : string) (data : option Upd.t)
    (st : botState) : botState :=
  {| db := db st; byChecksum := <[checksum := data]> (byChecksum st);
     botChannelSockets_ := botChannelSockets_ st; trace := trace st |}.

Definition recordChecksum (checksum : string) (data : option Upd.t)
  : Eff.M botState unit :=
  Eff.modify (recorded checksum data).

Definition registerChannel (number : string) (c : channelT)
  : Eff.M botState unit :=
  Eff.modify (fun st =>
    {| db := db st; byChecksum := byChecksum st;
       botChannelSockets_ :=
         <[number := default [] (botChannelSockets_ st !! number) ++ [c]]>
           (botChannelSockets_ st);
       trace := trace st |}).

(** What a trace holds: status updates forwarded to clients, payment
    success events sent to clients, saves of the store, and entries into
    [processPaymentChannelSuccess]. *)
Definition isForward (e : event) : bool :=
  match e with
  | ClientEmit _ name _ => bool_decide (name = "nem2pay_payment_status_update")
  | _ => false
  end.

Definition isSuccess (e : event) : bool :=
  match e with
  | ClientEmit _ name _ => bool_decide (name = "nem2pay_payment_success")
  | _ => false
  end.

Definition isSave (e : event) : bool :=
  match e with
  | Save _ => true
  | _ => false
  end.

Definition isSuccessPath (e : event) : bool :=
  match e with
  | Enter f _ => bool_decide (f = "processPaymentChannelSuccess")
  | _ => false
  end.

Definition count (f : event -> bool) (tr : list event) : nat :=
  length (List.filter f tr).

(** [clientData] inside [processPaymentChannelSuccess]: the only variable
    of that name is local to the listener that [startPaymentChannel]
    installs, so the identifier does not resolve. *)
Definition clientData : res clientDataT := Throw ReferenceError.

Section Bot.
Context `{FloatOps} `{BotLib}.

Fixpoint emitSuccess (socketsForPayment : list channelT)
  : Eff.M botState unit :=
  match socketsForPayment with
  | [] => Eff.ret tt
  | s :: rest =>
      payload <~ Eff.lift clientData ;;
      emit (ClientEmit (clientId s) "nem2pay_payment_success" payload) ;;;
      emitSuccess rest
  end.

Definition processPaymentChannelSuccess (paymentChannel : Inv.t)
  : Eff.M botState unit :=
  emit (Enter "processPaymentChannelSuccess" (Inv.number paymentChannel)) ;;;
  st <~ Eff.get ;;
  match botChannelSockets_ st !! Inv.number paymentChannel with
  | Some socketsForPayment => emitSuccess socketsForPayment
  | None => Eff.ret tt
  end.

Definition invoiceQuery (data : Upd.t) : invoiceQueryT :=
  if truthy_str (Upd.message data) then
    {| q_number := Upd.message data; q_payerXEM := None |}
  else if truthy_str (Upd.sender data) then
    {| q_number := None; q_payerXEM := Upd.sender data |}
  else {| q_number := None; q_payerXEM := None |}.

(** The assignments that [storeInvoiceStatusUpdate] makes to the
    invoice it found, before saving it. *)
Definition applyUpdate (now : Z) (data : Upd.t) (invoice : Inv.t) : Inv.t :=
  let invoice := Inv.set_status (Upd.status data) invoice in
  let invoice :=
    if bool_decide (Upd.status data = Some "unconfirmed") then
      Inv.set_amountUnconfirmed (Upd.amountUnconfirmed data) invoice
    else if truthy (Upd.amountPaid data) then
      Inv.set_amountPaid (Upd.amountPaid data) invoice
    else invoice in
  if bool_decide (Upd.status data = Some "paid") then
    Inv.set_paidAt (Some now) (Inv.set_isPaid true invoice)
  else invoice.

Definition storeInvoiceStatusUpdate (answers : storeAnswers) (now : Z)
    (data : Upd.t) : Eff.M botState unit :=
  st <~ Eff.get ;;
  match (if findOne_err answers then None
         else findOne (invoiceQuery data) (db st)) with
  | None => Eff.ret tt
  | Some invoice =>
      let invoice := applyUpdate now data invoice in
      if save_err answers then emit (Log "error")
      else
        save invoice ;;;
        if negb (bool_decide (Upd.status data = Some "paid"))
           && negb (bool_decide (Upd.status data = Some "unconfirmed"))
        then Eff.ret tt
        else if negb (Inv.isPaid invoice)
                || js_lt (Inv.getTotalIncoming invoice) (Inv.amount invoice)
        then Eff.ret tt
        else
          (if resave_err answers then Eff.ret tt else save invoice) ;;;
          processPaymentChannelSuccess invoice
  end.

(** The listener of [nembot_payment_status_update] that
    [startPaymentChannel] installs for the client [clientSocketId]. It
    returns [false] for a payload it has seen, and nothing otherwise. *)
Definition nembot_payment_status_update (clientSocketId : string)
    (answers : storeAnswers) (now : Z) (rawdata : string)
  : Eff.M botState (option bool) :=
  let checksum := MD5 rawdata in
  st <~ Eff.get ;;
  if bool_decide (is_Some (byChecksum st !! checksum))
  then Eff.ret (Some false)
  else
    emit (Log "info") ;;;
    data <~ Eff.lift (JSON_parse rawdata) ;;
    recordChecksum checksum data ;;;
    d <~ Eff.lift (deref data) ;;
    let clientData := {| cd_status := Upd.status d; paymentData := d |} in
    emit (ClientEmit clientSocketId "nem2pay_payment_status_update"
            clientData) ;;;
    storeInvoiceStatusUpdate answers now d ;;;
    Eff.ret None.

Definition startPaymentChannel (channelSocketId : string)
    (save_fails : bool) (invoice : Inv.t) (clientSocketId : string)
  : Eff.M botState Inv.t :=
  let channelParams :=
    {| cp_mosaic := currency; cp_message := Inv.number invoice;
       cp_sender := Inv.payerXEM invoice;
       cp_recipient := Inv.recipientXEM invoice;
       cp_amount := Inv.amount invoice;
       cp_maxDuration := 5 * 60 * 1000 |} in
  emit (Log "info") ;;;
  emit (BotEmit channelSocketId "nembot_open_payment_channel" channelParams) ;;;
  let invoice :=
    Inv.set_socketIds (Inv.socketIds invoice ++ [channelSocketId]) invoice in
  registerChannel (Inv.number invoice)
    {| socket := channelSocketId; clientId := clientSocketId |} ;;;
  (if save_fails then Eff.ret tt else save invoice) ;;;
  emit (Callback invoice) ;;;
  Eff.ret invoice.

End Bot.

End PaymentsProtocol.

(** ** The payments protocol: reconciliation with the chain *)

Module Reconciliation.

(** [String.prototype.toUpperCase] on the ASCII letters; invoice numbers
    are a configured prefix followed by a counter. *)
Definition upper_ascii (c : ascii) : ascii :=
  let n := nat_of_ascii c in
  if ((97 <=? n) && (n <=? 122))%nat then ascii_of_nat (n - 32) else c.

Fixpoint toUpperCase (s : string) : string :=
  match s with
  | EmptyString => EmptyString
  | String c r => String (upper_ascii c) (toUpperCase r)
  end.

(** The values that travel through the parameters of
    [fetchInvoicesRealHistory]: the recursive call shifts them by one
    position, so every parameter can meet every kind of value. An array
    of invoices holds references into the heap of documents. *)
Inductive jsarg :=
| AUndefined
| ANull
| AFalse
| ANumber (z : Z)
| AString (s : string)
| AInvoices (l : list nat)
| AFunction (arity : nat).

(** An entry of [paymentTransactionHistory_.byInvoice]. *)
Record entryT := {
  transactions : list transactionMetaDataPair;
  totalPaid : jsval;
  invoice : nat
}.

(** [paymentTransactionHistory_], two objects used as maps. [byInvoice]
    keeps the order in which its keys were added, which is the order of
    [for ... in] for keys that are not array indices (invoice numbers
    start with the configured prefix); [byHash] only has [true] values.
    The keys are upper-cased invoice numbers and transaction hashes, none
    of which is a property name that objects treat specially. *)
Record historyT := {
  byInvoice : list (string * entryT);
  byHash : gset string
}.

Inductive event :=
| Request (recipient cursor : jsarg)
| CallFalse
| CallHistory (history : list (string * entryT))
| LogError.

Definition isRequest (e : event) : bool :=
  match e with
  | Request _ _ => true
  | _ => false
  end.

Record state := {
  heap : gmap nat Inv.t;
  paymentTransactionHistory_ : historyT;
  trace : list event
}.

Definition logged (e : event) (st : state) : state :=
  {| heap := heap st;
     paymentTransactionHistory_ := paymentTransactionHistory_ st;
     trace := trace st ++ [e] |}.

Definition withHistory (h : historyT) (st : state) : state :=
  {| heap := heap st; paymentTransactionHistory_ := h; trace := trace st |}.

Definition withHeap (h : gmap nat Inv.t) (st : state) : state :=
  {| heap := h;
     paymentTransactionHistory_ := paymentTransactionHistory_ st;
     trace := trace st |}.

Definition emit (e : event) : Eff.M state unit := Eff.modify (logged e).

Definition setHistory (h : historyT) : Eff.M state unit :=
  Eff.modify (withHistory h).

Definition setHeap (h : gmap nat Inv.t) : Eff.M state unit :=
  Eff.modify (withHeap h).

(** [catch]: the handler runs in the state the exception left. *)
Definition catch {A} (m : Eff.M state A) (h : error -> Eff.M state A)
  : Eff.M state A :=
  fun st =>
    match m st with
    | (st', Throw e) => h e st'
    | r => r
    end.

(** *** Operations on [byInvoice] *)

Fixpoint lookupEntry (k : string) (l : list (string * entryT))
  : option entryT :=
  match l with
  | [] => None
  | (k', e) :: rest => if bool_decide (k' = k) then Some e else lookupEntry k rest
  end.

Definition hasOwnProperty (l : list (string * entryT)) (k : string) : bool :=
  bool_decide (is_Some (lookupEntry k l)).

Fixpoint updateEntry (k : string) (f : entryT -> entryT)
    (l : list (string * entryT)) : list (string * entryT) :=
  match l with
  | [] => []
  | (k', e) :: rest =>
      if bool_decide (k' = k) then (k', f e) :: rest
      else (k', e) :: updateEntry k f rest
  end.

(** [entry.transactions.push(t); entry.totalPaid += amount] *)
Definition addPayment (t : transactionMetaDataPair) (amt : jsval)
    (e : entryT) : entryT :=
  {| transactions := transactions e ++ [t];
     totalPaid := JS.add (totalPaid e) amt;
     invoice := invoice e |}.

(** The property key that a hash value becomes. *)
Definition keyOf (h : option string) : string := default "undefined" h.

(** The id of a record as the value of [lastTrxRead]. *)
Definition idArg (i : option Z) : jsarg :=
  match i with
  | Some z => ANumber z
  | None => AUndefined
  end.

Section Engine.
Context `{FloatOps} `{ChainLib}.

(** The status that the reconciliation derives for one accumulator. *)
Definition writeBack (total : jsval) (currentInvoice : Inv.t) : Inv.t :=
  let currentInvoice := Inv.set_amountPaid total currentInvoice in
  let currentInvoice :=
    if js_ge (Inv.amountPaid currentInvoice) (Inv.amount currentInvoice)
    then
      let currentInvoice :=
        Inv.set_status (Some "paid") (Inv.set_isPaid true currentInvoice) in
      if js_gt (Inv.amountPaid currentInvoice) (Inv.amount currentInvoice)
      then Inv.set_status (Some "overpaid") currentInvoice
      else currentInvoice
    else currentInvoice in
  Inv.set_dirty true currentInvoice.

(** The second loop of [saveIncomingPaymentsHistory], over the keys of
    [byInvoice]. *)
Fixpoint writeBackAll (entries : list (string * entryT))
    (h : gmap nat Inv.t) : gmap nat Inv.t :=
  match entries with
  | [] => h
  | (_, currentEntry) :: rest =>
      writeBackAll rest
        (alter (writeBack (totalPaid currentEntry)) (invoice currentEntry) h)
  end.

(** What the first loop of [saveIncomingPaymentsHistory] reads from a
    record before it looks at its own state: the hash, the message
    and the amount in [nem:xem] with divisibility 6. *)
Definition readTransaction (t : transactionMetaDataPair)
  : res (option string * string * jsval) :=
  lastTrxHash <- Blockchain.getTransactionHash t false ;;
  lastMsgRead <- Blockchain.getTransactionMessage t false ;;
  lastAmtRead <- Blockchain.getTransactionAmount t "nem:xem" 6 ;;
  Ok (lastTrxHash, lastMsgRead, lastAmtRead).

Definition markHash (k : string) (history : historyT) : historyT :=
  {| byInvoice := byInvoice history; byHash := {[ k ]} ∪ byHash history |}.

Definition pushPayment (normNumber : string) (t : transactionMetaDataPair)
    (amt : jsval) (history : historyT) : historyT :=
  {| byInvoice :=
       updateEntry normNumber (addPayment t amt) (byInvoice history);
     byHash := byHash history |}.

(** The first loop of [saveIncomingPaymentsHistory]; [None] when it
    leaves the function with [return false]. *)
Fixpoint scan (transactions : list transactionMetaDataPair)
    (lastTrxRead : jsarg) : Eff.M state (option jsarg) :=
  match transactions with
  | [] => Eff.ret (Some lastTrxRead)
  | t :: rest =>
      let content := transaction t in
      let lastTrxRead := idArg (Blockchain.getTransactionId t) in
      read <~ Eff.lift (readTransaction t) ;;
      let '(lastTrxHash, lastMsgRead, lastAmtRead) := read in
      st <~ Eff.get ;;
      let history := paymentTransactionHistory_ st in
      if bool_decide (keyOf lastTrxHash ∈ byHash history) then Eff.ret None
      else
        let history := markHash (keyOf lastTrxHash) history in
        setHistory history ;;;
        if negb (bool_decide (type content = transfer))
           && negb (bool_decide (type content = multisigTransaction))
        then scan rest lastTrxRead
        else if negb (hasOwnProperty (byInvoice history)
                        (toUpperCase lastMsgRead))
        then scan rest lastTrxRead
        else
          let normNumber := toUpperCase lastMsgRead in
          setHistory (pushPayment normNumber t lastAmtRead history) ;;;
          scan rest lastTrxRead
  end.

Definition saveIncomingPaymentsHistory
    (transactions : list transactionMetaDataPair) : Eff.M state jsarg :=
  r <~ scan transactions ANull ;;
  match r with
  | None => Eff.ret AFalse
  | Some lastTrxRead =>
      st <~ Eff.get ;;
      setHeap (writeBackAll (byInvoice (paymentTransactionHistory_ st))
                 (heap st)) ;;;
      Eff.ret lastTrxRead
  end.

(** The totals that the second loop writes to the invoice [r], in the
    order of the loop, and their effect on that invoice. *)
Fixpoint totalsFor (r : nat) (entries : list (string * entryT))
  : list jsval :=
  match entries with
  | [] => []
  | (_, e) :: rest =>
      if bool_decide (invoice e = r) then totalPaid e :: totalsFor r rest
      else totalsFor r rest
  end.

Definition applyTotals (totals : list jsval) (i : Inv.t) : Inv.t :=
  fold_left (fun i total => writeBack total i) totals i.

(** [invoices.length]; [None] is [undefined]. *)
Definition lengthOf (a : jsarg) : res (option nat) :=
  match a with
  | AUndefined | ANull => Throw TypeError
  | AFalse | ANumber _ => Ok None
  | AString s => Ok (Some (String.length s))
  | AInvoices l => Ok (Some (length l))
  | AFunction arity => Ok (Some arity)
  end.

Definition truthy_arg (a : jsarg) : bool :=
  match a with
  | AUndefined | ANull | AFalse => false
  | ANumber z => negb (z =? 0)
  | AString s => negb (bool_decide (s = ""))
  | AInvoices _ | AFunction _ => true
  end.

(** [x === false] *)
Definition isFalse (a : jsarg) : bool :=
  match a with
  | AFalse => true
  | _ => false
  end.

(** [callback(x)], which the trace records as [e]. *)
Definition call (callback : jsarg) (e : event) : Eff.M state unit :=
  match callback with
  | AFunction _ => emit e
  | _ => Eff.throw TypeError
  end.

Fixpoint initEntries (invoices : list nat) : Eff.M state unit :=
  match invoices with
  | [] => Eff.ret tt
  | r :: rest =>
      st <~ Eff.get ;;
      inv <~ Eff.lift (deref (heap st !! r)) ;;
      let num := toUpperCase (Inv.number inv) in
      let history := paymentTransactionHistory_ st in
      (if hasOwnProperty (byInvoice history) num then Eff.ret tt
       else
         setHistory
           {| byInvoice :=
                byInvoice history ++
                [(num, {| transactions := []; totalPaid := JNum 0;
                          invoice := r |})];
              byHash := byHash history |}) ;;;
      initEntries rest
  end.

(** The first loop of [fetchInvoicesRealHistory], entered with a
    truthy [invoices.length]: an element of anything but an array of
    invoices has no [number]. *)
Definition initAccumulators (invoices : jsarg) : Eff.M state unit :=
  match invoices with
  | AInvoices l => initEntries l
  | _ => Eff.throw TypeError
  end.

(** A request to the gateway whose promise is not settled yet, with
    the variables its handlers close over. *)
Record pending := {
  p_recipient : jsarg;
  p_invoices : jsarg;
  p_lastTrxRead : jsarg;
  p_callback : jsarg
}.

(** [fetchInvoicesRealHistory] up to the point where it returns to its
    caller: it has called [callback(false)], or it has sent a request. *)
Definition fetchInvoicesRealHistory_call
    (recipient invoices lastTrxRead callback : jsarg)
  : Eff.M state (option pending) :=
  len <~ Eff.lift (lengthOf invoices) ;;
  match len with
  | None | Some O => call callback CallFalse ;;; Eff.ret None
  | Some (S _) =>
      initAccumulators invoices ;;;
      emit (Request recipient lastTrxRead) ;;;
      Eff.ret (Some {| p_recipient := recipient; p_invoices := invoices;
                       p_lastTrxRead := lastTrxRead;
                       p_callback := callback |})
  end.

(** The function given to [then]. The recursive call passes three
    arguments: [invoices] arrives as [recipient], [lastTrxRead] as
    [invoices], [callback] as [lastTrxRead], and [callback] is
    [undefined]. *)
Definition onFulfilled (p : pending)
    (transactions : list transactionMetaDataPair)
  : Eff.M state (option pending) :=
  lastTrxRead <~ saveIncomingPaymentsHistory transactions ;;
  next <~
    (if negb (isFalse lastTrxRead)
        && (length transactions =? 25)%nat
     then fetchInvoicesRealHistory_call (p_invoices p) lastTrxRead
            (p_callback p) AUndefined
     else Eff.ret None) ;;
  if truthy_arg (p_callback p)
     && (isFalse lastTrxRead || (length transactions <? 25)%nat)
  then
    st <~ Eff.get ;;
    call (p_callback p)
      (CallHistory (byInvoice (paymentTransactionHistory_ st))) ;;;
    Eff.ret next
  else Eff.ret next.

(** The function given to [catch]. *)
Definition onRejected (_ : error) : Eff.M state (option pending) :=
  emit LogError ;;; Eff.ret None.

(** The gateway: the page of incoming transactions it answers for an
    address and an id cursor, or [None] when the promise is rejected. *)
Context (incoming : jsarg -> jsarg -> option (list transactionMetaDataPair)).

Definition settle (p : pending) : Eff.M state (option pending) :=
  match incoming (p_recipient p) (p_lastTrxRead p) with
  | Some transactions => catch (onFulfilled p transactions) onRejected
  | None => onRejected TypeError
  end.

(** The promises are settled one after the other until none is
    pending; the result tells whether that point was reached within
    [fuel] steps. *)
Fixpoint drain (fuel : nat) (p : option pending) : Eff.M state bool :=
  match p with
  | None => Eff.ret true
  | Some p =>
      match fuel with
      | O => Eff.ret false
      | S fuel => next <~ settle p ;; drain fuel next
      end
  end.

Definition fetchInvoicesRealHistory (fuel : nat)
    (recipient invoices lastTrxRead callback : jsarg) : Eff.M state bool :=
  p <~ fetchInvoicesRealHistory_call recipient invoices lastTrxRead callback ;;
  drain fuel p.

End Engine.

End Reconciliation.

(** ** Interpretations of the libraries and sample data *)

Module Demo.

(** Modelled from the spec: [nem_.utils.convert.hex2a] of the NEM SDK,
    which hex-decodes the payload to plain text, two digits per
    character. *)
Definition hexDigit (c : ascii) : option nat :=
  let n := nat_of_ascii c in
  if ((48 <=? n) && (n <=? 57))%nat then Some (n - 48)%nat
  else if ((97 <=? n) && (n <=? 102))%nat then Some (n - 87)%nat
  else if ((65 <=? n) && (n <=? 70))%nat then Some (n - 55)%nat
  else None.

Fixpoint hex_decode (s : string) : string :=
  match s with
  | String a (String b r) =>
      match hexDigit a, hexDigit b with
      | Some x, Some y => String (ascii_of_nat (16 * x + y)) (hex_decode r)
      | _, _ => String zero (hex_decode r)
      end
  | _ => EmptyString
  end.

(** The transaction types of the chain: 0x101 and 0x1004. *)
Definition chain : ChainLib :=
  {| transfer := 257;
     multisigTransaction := 4100;
     hex2a := hex_decode;
     AES_decrypt := fun plain => plain |}.

(** The samples hold integer amounts only; this interpretation converts
    every string to [NaN]. *)
Definition floats : FloatOps :=
  {| scaled_toFixed := fun _ _ _ => "NaN";
     str_ge := fun _ _ => false;
     str_gt := fun _ _ => false;
     str_lt := fun _ _ => false |}.

(** *** Transactions *)

Definition heart (q : Z) : mosaicT :=
  {| mosaicId := {| namespaceId := "ns"; name := "heart" |}; quantity := q |}.

Definition xem (q : Z) : mosaicT :=
  {| mosaicId := {| namespaceId := "nem"; name := "xem" |}; quantity := q |}.

Definition plainTransfer (a : Z) (msg : option string)
    (ms : option (list mosaicT)) : transactionT :=
  {| type := 257;
     self := {| amount := Some a; recipient := Some "TRECIPIENT";
                message := option_map (fun m => {| payload := Some m |}) msg;
                mosaics := ms |};
     otherTrans := None |}.

Definition emptyTransfer : transferT :=
  {| amount := None; recipient := None; message := None; mosaics := None |}.

(** A multisig envelope without its inner transaction. *)
Definition bareMultisig : transactionT :=
  {| type := 4100; self := emptyTransfer; otherTrans := None |}.

(** A record with the given hash, id and content. *)
Definition record (h : string) (i : Z) (c : transactionT)
  : transactionMetaDataPair :=
  {| meta := {| hash := Some {| data := Some h |};
                innerHash := Some {| data := None |};
                id := Some i |};
     transaction := c |}.

(** A record whose metadata has no [hash] object. *)
Definition hashless : transactionMetaDataPair :=
  {| meta := {| hash := None; innerHash := None; id := Some 7 |};
     transaction := plainTransfer 1 None None |}.

(** A multisig record with both hashes. *)
Definition cosigned : transactionMetaDataPair :=
  {| meta := {| hash := Some {| data := Some "outer" |};
                innerHash := Some {| data := Some "inner" |};
                id := Some 9 |};
     transaction :=
       {| type := 4100; self := emptyTransfer;
          otherTrans := Some {| amount := Some 5; recipient := None;
                                message := None; mosaics := None |} |} |}.

(** The quantity as the specification words it:
    [entry.quantity * max(1, floor(amount / 10^divisibility))]. *)
Definition stated_quantity (q a : Z) (divisibility : nat) : Z :=
  q * Z.max 1 (a / 10 ^ Z.of_nat divisibility).

(** *** The bot protocol *)

Definition invoice1 : Inv.t :=
  {| Inv.number := "INV-1"; Inv.payerXEM := "TPAYER";
     Inv.recipientXEM := "TRECIPIENT"; Inv.socketIds := [];
     Inv.amount := 1000000; Inv.amountPaid := JNum 0;
     Inv.amountUnconfirmed := JNum 0; Inv.status := Some "not_paid";
     Inv.isPaid := false; Inv.paidAt := None; Inv.dirty := false |}.

(** The same invoice after the bot reported it paid with 400,000 units
    confirmed. *)
Definition invoice1_flagged : Inv.t :=
  Inv.set_isPaid true
    (Inv.set_status (Some "paid")
       (Inv.set_amountPaid (JNum 400000) invoice1)).

Definition update (st : string) (msg : option string)
    (paid unconfirmed : jsval) : Upd.t :=
  {| Upd.status := Some st; Upd.message := msg; Upd.sender := None;
     Upd.amountPaid := paid; Upd.amountUnconfirmed := unconfirmed |}.

Definition unconfirmed400 : Upd.t :=
  update "unconfirmed" (Some "INV-1") JUndefined (JNum 400000).

Definition paid1000 : Upd.t :=
  update "paid" (Some "INV-1") (JNum 1000000) JUndefined.

(** An update of status [unconfirmed] without the optional
    [amountUnconfirmed]. *)
Definition unconfirmedBare : Upd.t :=
  update "unconfirmed" (Some "INV-1") JUndefined JUndefined.

Definition unconfirmed600 : Upd.t :=
  update "unconfirmed" (Some "INV-1") JUndefined (JNum 600000).

(** A paid update for an invoice that the store does not have. *)
Definition stray : Upd.t :=
  update "paid" (Some "INV-404") (JNum 5) JUndefined.

(** JSON texts of the updates. *)
Definition quoted (s : string) : string :=
  (String (ascii_of_nat 34) s ++ String (ascii_of_nat 34) "")%string.

Definition member (k v : string) : string := (quoted k ++ ":" ++ v)%string.

Definition paid1000_text : string :=
  ("{" ++ member "status" (quoted "paid") ++ ","
       ++ member "message" (quoted "INV-1") ++ ","
       ++ member "amountPaid" "1000000" ++ "}")%string.

Definition stray_text : string :=
  ("{" ++ member "status" (quoted "paid") ++ ","
       ++ member "message" (quoted "INV-404") ++ ","
       ++ member "amountPaid" "5" ++ "}")%string.

(** [JSON.parse] on the two texts above; any other text of the samples
    is not JSON. The checksum of a text is the text itself. *)
Definition bot : BotLib :=
  {| MD5 := fun raw => raw;
     JSON_parse := fun raw =>
       if bool_decide (raw = paid1000_text) then Ok (Some paid1000)
       else if bool_decide (raw = stray_text) then Ok (Some stray)
       else Throw SyntaxError;
     currency := "nem:xem" |}.

Definition byNumber (n : string) : PaymentsProtocol.invoiceQueryT :=
  {| PaymentsProtocol.q_number := Some n;
     PaymentsProtocol.q_payerXEM := None |}.

Definition allFine : PaymentsProtocol.storeAnswers :=
  {| PaymentsProtocol.findOne_err := false;
     PaymentsProtocol.save_err := false;
     PaymentsProtocol.resave_err := false |}.

(** A store with one invoice and nothing else. *)
Definition fresh (docs : list Inv.t) : PaymentsProtocol.botState :=
  {| PaymentsProtocol.db := docs;
     PaymentsProtocol.byChecksum := ∅;
     PaymentsProtocol.botChannelSockets_ := ∅;
     PaymentsProtocol.trace := [] |}.

(** *** Reconciliation *)

(** A transfer of [a] units whose message is the text [inv-1], with the
    given hash and id. *)
Definition payment (h : string) (i : Z) (a : Z) : transactionMetaDataPair :=
  record h i (plainTransfer a (Some "696e762d31") None).

(** The invoice [INV-1] is the document 0 of the heap; nothing has been
    read from the chain. *)
Definition start : Reconciliation.state :=
  {| Reconciliation.heap := {[ 0%nat := invoice1 ]};
     Reconciliation.paymentTransactionHistory_ :=
       {| Reconciliation.byInvoice := []; Reconciliation.byHash := ∅ |};
     Reconciliation.trace := [] |}.

(** A gateway that answers every request with the same page. *)
Definition always (page : list transactionMetaDataPair)
  : Reconciliation.jsarg -> Reconciliation.jsarg ->
    option (list transactionMetaDataPair) :=
  fun _ _ => Some page.

(** A page of 25 payments of one unit, with the ids 100 down to 76. *)
Definition fullPage : list transactionMetaDataPair :=
  List.map (fun i => payment (pretty i) (100 - Z.of_nat i) 1) (seq 0 25).

End Demo.

(** ** Methods of the invoice model *)

Module Methods.

(** [s.replace(/-/g, "")] *)
Fixpoint removeDashes (s : string) : string :=
  match s with
  | EmptyString => EmptyString
  | String c r =>
      if bool_decide (c = "-"%char) then removeDashes r
      else String c (removeDashes r)
  end.

(** [this.payerXEM.toUpperCase().replace(/-/g, "")], for a document that
    has the address. *)
Definition getPayer (this : Inv.t) : string :=
  removeDashes (Reconciliation.toUpperCase (Inv.payerXEM this)).

Definition getRecipient (this : Inv.t) : string :=
  removeDashes (Reconciliation.toUpperCase (Inv.recipientXEM this)).

(** [s.substr(0, n)]: the first [n] characters, or all of them. *)
Definition substr_first (n : nat) (s : string) : string := substring 0 n s.

(** [s.substr(-n)]: the last [n] characters, or all of them. *)
Definition substr_last (n : nat) (s : string) : string :=
  substring (String.length s - n) n s.

(** A missing address and the empty one both give the empty text; the
    model has the empty string for both. *)
Definition getTruncatedRecipient (this : Inv.t) : string :=
  if bool_decide (Inv.recipientXEM this = "") then ""
  else (substr_first 6 (Inv.recipientXEM this) ++ "..."
        ++ substr_last 4 (Inv.recipientXEM this))%string.

(** The strings on which a byte is a character, as in the addresses of
    the chain. *)
Definition isAscii (s : string) : bool :=
  forallb (fun c => (nat_of_ascii c <? 128)%nat) (list_ascii_of_string s).

End Methods.

(** ** What a page adds to an accumulator *)

Module Ledger.

Section Ledger.
Context `{FloatOps} `{ChainLib}.

(** The type of the record is transfer or multisig. *)
Definition isPayment (t : transactionMetaDataPair) : bool :=
  bool_decide (type (transaction t) = transfer)
  || bool_decide (type (transaction t) = multisigTransaction).

(** The record is a payment whose message, in upper case, is [k]. *)
Definition paysInto (k : string) (t : transactionMetaDataPair) : bool :=
  isPayment t
  && match Blockchain.getTransactionMessage t false with
     | Ok m => bool_decide (Reconciliation.toUpperCase m = k)
     | Throw _ => false
     end.

(** The amount that the first loop reads from the record. *)
Definition amountOf (t : transactionMetaDataPair) : jsval :=
  match Blockchain.getTransactionAmount t "nem:xem" 6 with
  | Ok a => a
  | Throw _ => JUndefined
  end.

(** [total += amount] for the records in their order. *)
Definition addAll (total : jsval) (ts : list transactionMetaDataPair)
  : jsval :=
  fold_left JS.add (List.map amountOf ts) total.

(** The accumulator [e] of the key [k] after the records [ts]. *)
Definition credit (k : string) (ts : list transactionMetaDataPair)
    (e : Reconciliation.entryT) : Reconciliation.entryT :=
  {| Reconciliation.transactions :=
       Reconciliation.transactions e ++ List.filter (paysInto k) ts;
     Reconciliation.totalPaid :=
       addAll (Reconciliation.totalPaid e) (List.filter (paysInto k) ts);
     Reconciliation.invoice := Reconciliation.invoice e |}.

(** The key of [byHash] that the record is marked with. *)
Definition hashKey (t : transactionMetaDataPair) : string :=
  Reconciliation.keyOf (hash (meta t) ≫= data).

(** Every accumulator holds records with pairwise different hash keys,
    all of them marked in [byHash]. *)
Definition countedOnce (history : Reconciliation.historyT) : Prop :=
  forall k e,
    Reconciliation.lookupEntry k (Reconciliation.byInvoice history) = Some e ->
    NoDup (hashKey <$> Reconciliation.transactions e)
    /\ forall t, t ∈ Reconciliation.transactions e ->
         hashKey t ∈ Reconciliation.byHash history.

(** The hash object is there, and so is the inner transaction of a
    multisig envelope. *)
Definition readable (t : transactionMetaDataPair) : Prop :=
  hash (meta t) <> None
  /\ (type (transaction t) = multisigTransaction ->
      otherTrans (transaction t) <> None).

End Ledger.

End Ledger.

(** ** The inputs on which the embedding is the code

    The embedding computes with unbounded integers, keeps [byHash] as a
    set of strings, upper-cases the letters a to z only and types every
    mosaic entry with its id. The predicates below mark the inputs on
    which the source does the same; theorems whose conclusion depends on
    one of these choices carry them as hypotheses. *)

Module Domain.

(** The integers that a number of the runtime holds exactly. On them
    the quotient by a power of ten has the floor that the embedding
    takes, and a product that is such an integer again is computed
    without rounding. *)
Definition isSafeInteger (z : Z) : bool := Z.abs z <? 2 ^ 53.

(** A hash key on which the object [byHash] behaves as a set: an
    assignment to [__proto__] stores nothing, and an own property
    [hasOwnProperty] hides the method that the pass calls on the
    object. *)
Definition ordinaryKey (k : string) : bool :=
  negb (bool_decide (k = "__proto__"))
  && negb (bool_decide (k = "hasOwnProperty")).

Definition ordinaryHash (t : transactionMetaDataPair) : bool :=
  ordinaryKey (Ledger.hashKey t).

(** [byHash] still has the method [hasOwnProperty] of its prototype. *)
Definition unpoisoned (history : Reconciliation.historyT) : Prop :=
  "hasOwnProperty" ∉ Reconciliation.byHash history.

Section Domain.
Context `{ChainLib}.

(** The message of the record, when it can be read, is made of ASCII
    characters, on which [toUpperCase] changes the letters a to z and
    nothing else. *)
Definition asciiMessage (t : transactionMetaDataPair) : bool :=
  match Blockchain.getTransactionMessage t false with
  | Ok m => Methods.isAscii m
  | Throw _ => true
  end.

(** The record carries no mosaics, so that no entry of the list is
    read. *)
Definition noMosaics (t : transactionMetaDataPair) : bool :=
  match Blockchain.realData (transaction t) with
  | Ok real =>
      match mosaics real with
      | None | Some [] => true
      | Some (_ :: _) => false
      end
  | Throw _ => true
  end.

End Domain.

(** The numbers of the invoices of the array are made of ASCII
    characters. *)
Definition asciiNumbers (h : gmap nat Inv.t) (l : list nat) : Prop :=
  forall r inv, r ∈ l -> h !! r = Some inv ->
    Methods.isAscii (Inv.number inv) = true.

End Domain.

(** ** Further samples *)

Module Samples.

(** *** Decimal texts *)

Fixpoint zeros (n : nat) : string :=
  match n with
  | O => ""
  | S n => String "0" (zeros n)
  end.

(** The text of [n / 10^d] with [d] decimals. *)
Definition decimal (n : Z) (d : nat) : string :=
  let m := Z.abs n in
  let sign := if n <? 0 then "-" else "" in
  let whole := pretty (m / 10 ^ Z.of_nat d) in
  let frac := pretty (m mod 10 ^ Z.of_nat d) in
  let padding := zeros (d - String.length frac) in
  match d with
  | O => (sign ++ whole)%string
  | S _ => (sign ++ whole ++ "." ++ padding ++ frac)%string
  end.

Definition digitOf (c : ascii) : option Z :=
  let n := nat_of_ascii c in
  if ((48 <=? n) && (n <=? 57))%nat then Some (Z.of_nat (n - 48)) else None.

(** The digits of a text with at most one point: the number they
    write is [mantissa / 10^scale]. *)
Fixpoint readDigits (s : string) (mantissa : Z) (scale : option nat)
    (digits : bool) : option (Z * nat) :=
  match s with
  | EmptyString =>
      if digits then Some (mantissa, default O scale) else None
  | String c r =>
      if bool_decide (c = "."%char) then
        match scale with
        | None => readDigits r mantissa (Some O) digits
        | Some _ => None
        end
      else
        match digitOf c with
        | Some v => readDigits r (10 * mantissa + v) (S <$> scale) true
        | None => None
        end
  end.

(** The number that a text converts to: 0 for the empty text, the
    value of a decimal numeral with an optional sign, and [NaN], here
    [None], for the texts that are no such numeral. *)
Definition numberOf (s : string) : option (Z * nat) :=
  match s with
  | EmptyString => Some (0, O)
  | String c r =>
      if bool_decide (c = "-"%char) then
        match readDigits r 0 None false with
        | Some (m, k) => Some (- m, k)
        | None => None
        end
      else if bool_decide (c = "+"%char) then readDigits r 0 None false
      else readDigits s 0 None false
  end.

(** The formatting and the comparisons of the runtime on amounts whose
    product stays below 2^51, where the floating point result rounds to
    the exact decimal, and on texts made of digits, a sign and a point;
    the other numerals of the runtime (exponents, other bases,
    [Infinity], blanks around the digits) do not occur in the
    samples. *)
Definition decimals : FloatOps :=
  {| scaled_toFixed := fun amount d quantity =>
       match amount with
       | Some a => decimal (a * quantity) d
       | None => "NaN"
       end;
     str_ge := fun s n =>
       match numberOf s with
       | Some (m, k) => n * 10 ^ Z.of_nat k <=? m
       | None => false
       end;
     str_gt := fun s n =>
       match numberOf s with
       | Some (m, k) => n * 10 ^ Z.of_nat k <? m
       | None => false
       end;
     str_lt := fun s n =>
       match numberOf s with
       | Some (m, k) => m <? n * 10 ^ Z.of_nat k
       | None => false
       end |}.

(** [JSON.parse] that also knows the text [null]. *)
Definition nullAware : BotLib :=
  {| MD5 := fun raw => raw;
     JSON_parse := fun raw =>
       if bool_decide (raw = "null") then Ok None
       else @JSON_parse Demo.bot raw;
     currency := "nem:xem" |}.

(** An update without message and sender. *)
Definition anonymous : Upd.t :=
  {| Upd.status := Some "expired"; Upd.message := None; Upd.sender := None;
     Upd.amountPaid := JUndefined; Upd.amountUnconfirmed := JUndefined |}.

Definition expired : Upd.t :=
  Demo.update "expired" (Some "INV-1") JUndefined JUndefined.

(** A second invoice, of the same payer. *)
Definition invoice2 : Inv.t :=
  {| Inv.number := "INV-2"; Inv.payerXEM := "TPAYER";
     Inv.recipientXEM := "TRECIPIENT"; Inv.socketIds := [];
     Inv.amount := 5; Inv.amountPaid := JNum 0;
     Inv.amountUnconfirmed := JNum 0; Inv.status := Some "not_paid";
     Inv.isPaid := false; Inv.paidAt := None; Inv.dirty := false |}.

(** An invoice whose addresses are written with dashes and in lower
    case, and one with a recipient of three characters. *)
Definition dashed : Inv.t :=
  {| Inv.number := "INV-3"; Inv.payerXEM := "tdwz55-r5vik";
     Inv.recipientXEM := "TCTIMU-RL5HMW-QURSKX"; Inv.socketIds := [];
     Inv.amount := 5; Inv.amountPaid := JNum 0;
     Inv.amountUnconfirmed := JNum 0; Inv.status := Some "not_paid";
     Inv.isPaid := false; Inv.paidAt := None; Inv.dirty := false |}.

Definition plain : Inv.t :=
  {| Inv.number := "INV-4"; Inv.payerXEM := "tdwz55r5vik";
     Inv.recipientXEM := "TCT"; Inv.socketIds := [];
     Inv.amount := 5; Inv.amountPaid := JNum 0;
     Inv.amountUnconfirmed := JNum 0; Inv.status := Some "not_paid";
     Inv.isPaid := false; Inv.paidAt := None; Inv.dirty := false |}.

(** A store whose saves fail. *)
Definition saveFails : PaymentsProtocol.storeAnswers :=
  {| PaymentsProtocol.findOne_err := false;
     PaymentsProtocol.save_err := true;
     PaymentsProtocol.resave_err := false |}.

End Samples.

(** * Properties *)

(** ** The hash accessor *)

Section HashAccessor.
Context `{FloatOps} `{ChainLib}.

Lemma getTransactionHash_outer p h :
  hash (meta p) = Some h ->
  Blockchain.getTransactionHash p false = Ok (data h).
Proof.
  intros Hh. unfold Blockchain.getTransactionHash. rewrite Hh. reflexivity.
Qed.

Lemma getTransactionHash_no_hash p inner :
  hash (meta p) = None ->
  Blockchain.getTransactionHash p inner = Throw TypeError.
Proof.
  intros Hh. unfold Blockchain.getTransactionHash. rewrite Hh. reflexivity.
Qed.


End HashAccessor.



(** ** The amount decoder *)

(** The two replacements that split a slug into namespace and name. *)
Example slug_parts :
  Blockchain.strip_name "nem:xem" = "nem"
  /\ Blockchain.strip_namespace "nem:xem" = "xem"
  /\ Blockchain.strip_name "evias.pacnem:heart" = "evias.pacnem"
  /\ Blockchain.strip_namespace "evias.pacnem:heart" = "heart"
  /\ Blockchain.strip_name "a:b:c" = "a:b"
  /\ Blockchain.strip_namespace "a:b:c" = "b:c"
  /\ Blockchain.strip_name "xem" = "xem"
  /\ Blockchain.strip_name "nem:" = "nem:"
  /\ Blockchain.strip_namespace ":xem" = ":xem".
Proof. repeat split. Qed.

(** Without mosaics the amount field is the amount in the base currency,
    and 0 in any other; with mosaics the amount is a formatted string, or
    0 when the mosaic is not attached. A multisig envelope without its
    inner transaction raises a [TypeError]. *)
Example getTransactionAmount_cases :
  let amountOf c slug :=
    @Blockchain.getTransactionAmount Demo.floats Demo.chain
      (Demo.record "h" 1 c) slug 6 in
  amountOf (Demo.plainTransfer 400000 None None) "nem:xem" = Ok (JNum 400000)
  /\ amountOf (Demo.plainTransfer 400000 None None) "ns:heart" = Ok (JNum 0)
  /\ amountOf (Demo.plainTransfer 400000 None (Some [])) "nem:xem"
     = Ok (JNum 400000)
  /\ amountOf (Demo.plainTransfer 1000000 None (Some [Demo.heart 5])) "nem:xem"
     = Ok (JNum 0)
  /\ amountOf (Demo.plainTransfer 1000000 None (Some [Demo.xem 5])) "nem:xem"
     = Ok (JStr (@scaled_toFixed Demo.floats (Some 1000000) 6 5))
  /\ amountOf Demo.bareMultisig "nem:xem" = Throw TypeError.
Proof. repeat split. Qed.

(** ** The mosaic extractor *)

Section MosaicExtractor.
Context `{FloatOps} `{ChainLib}.

Lemma slugOf_not_empty m : Blockchain.slugOf m <> "".
Proof.
  unfold Blockchain.slugOf.
  destruct (namespaceId (mosaicId m)); discriminate.
Qed.

Lemma scanMosaics_no_match l slug rcp amt d :
  Forall (fun m => Blockchain.slugOf m <> slug) l ->
  Blockchain.scanMosaics l slug rcp amt d
  = Blockchain.ExObject 0 Blockchain.RecFalse.
Proof.
  induction 1 as [|m l Hm _ IH]; simpl; [reflexivity|].
  rewrite bool_decide_eq_false_2 by congruence. exact IH.
Qed.

Lemma scanMosaics_first_match pre e post slug rcp amt d :
  Forall (fun m => Blockchain.slugOf m <> slug) pre ->
  Blockchain.slugOf e = slug ->
  Blockchain.scanMosaics (pre ++ e :: post) slug rcp amt d
  = Blockchain.ExObject (Blockchain.mosMultiply amt d * quantity e)
      (Blockchain.RecField rcp).
Proof.
  intros Hpre He. induction Hpre as [|m l Hm _ IH]; simpl.
  - rewrite bool_decide_eq_true_2 by congruence. reflexivity.
  - rewrite bool_decide_eq_false_2 by congruence. exact IH.
Qed.

(** The extractor on a transfer with a list of mosaics scans that list. *)
Lemma extractMosaic_scans trx real slug d m ms :
  Blockchain.realData trx = Ok real ->
  mosaics real = Some (m :: ms) ->
  slug <> "" ->
  Blockchain.extractMosaicFromTransactionData_ (Some trx) (Some slug) d
  = Blockchain.scanMosaics (m :: ms) slug (recipient real) (amount real) d.
Proof.
  intros Hreal Hms Hslug.
  unfold Blockchain.extractMosaicFromTransactionData_, Blockchain.realData in *.
  rewrite bool_decide_eq_false_2 by exact Hslug.
  destruct (bool_decide (type trx = multisigTransaction)).
  - destruct (otherTrans trx) as [other|]; simpl in Hreal; [|discriminate].
    injection Hreal as ->. rewrite Hms. reflexivity.
  - injection Hreal as <-. rewrite Hms. reflexivity.
Qed.

(** C2 (amended). When the list of mosaics of the transfer has an entry
    for the requested slug, the extractor returns the recipient and the
    quantity of the first such entry times a multiplier: the floor of
    amount / 10^divisibility when the amount is positive, which is
    max(1, floor) from 10^divisibility on and 0 below it, and 1 when the
    amount is zero, negative or missing. The divisibility is at most 6,
    the range in which [parseInt] of the quotient is its floor, and the
    amount, the quantity of the entry and their product are integers
    that the runtime holds exactly (below 2^53 in magnitude), so that
    neither the quotient nor the product is rounded. *)
Theorem extractMosaic_quantity trx real slug d pre e post :
  (d <= 6)%nat ->
  Blockchain.realData trx = Ok real ->
  mosaics real = Some (pre ++ e :: post) ->
  Forall (fun m => Blockchain.slugOf m <> slug) pre ->
  Blockchain.slugOf e = slug ->
  (forall a, amount real = Some a -> Domain.isSafeInteger a = true) ->
  Domain.isSafeInteger (quantity e) = true ->
  Domain.isSafeInteger
    (Blockchain.mosMultiply (amount real) d * quantity e) = true ->
  exists total,
    Blockchain.extractMosaicFromTransactionData_ (Some trx) (Some slug) d
    = Blockchain.ExObject total (Blockchain.RecField (recipient real))
    /\ (forall a, amount real = Some a -> 10 ^ Z.of_nat d <= a ->
          total = quantity e * Z.max 1 (a / 10 ^ Z.of_nat d))
    /\ (forall a, amount real = Some a -> 0 < a < 10 ^ Z.of_nat d ->
          total = 0)
    /\ (forall a, amount real = Some a -> a <= 0 -> total = quantity e)
    /\ (amount real = None -> total = quantity e).
Proof.
  intros _ Hreal Hms Hpre He _ _ _.
  exists (Blockchain.mosMultiply (amount real) d * quantity e).
  assert (Hpow : 0 < 10 ^ Z.of_nat d) by (apply Z.pow_pos_nonneg; lia).
  split.
  - assert (Hslug : slug <> "") by (rewrite <- He; apply slugOf_not_empty).
    destruct (pre ++ e :: post) as [|m ms] eqn:Hl;
      [destruct pre; discriminate|].
    rewrite (extractMosaic_scans trx real slug d m ms Hreal Hms Hslug).
    rewrite <- Hl. apply scanMosaics_first_match; assumption.
  - unfold Blockchain.mosMultiply. repeat split.
    + intros a -> Ha. rewrite (proj2 (Z.ltb_lt 0 a)) by lia.
      assert (1 <= a / 10 ^ Z.of_nat d)
        by (apply Z.div_le_lower_bound; lia).
      rewrite Z.max_r by lia. lia.
    + intros a -> Ha. rewrite (proj2 (Z.ltb_lt 0 a)) by lia.
      rewrite Z.div_small by lia. lia.
    + intros a -> Ha. rewrite (proj2 (Z.ltb_ge 0 a)) by lia. lia.
    + intros ->. lia.
Qed.

(** The results of the extractor when it finds nothing. *)
Lemma extractMosaic_empty_argument trx slug d :
  trx = None \/ slug = None \/ slug = Some "" ->
  Blockchain.extractMosaicFromTransactionData_ trx slug d
  = Blockchain.ExObject 0 Blockchain.RecFalse.
Proof.
  intros [->|[->| ->]]; [reflexivity| |]; destruct trx; reflexivity.
Qed.

Lemma extractMosaic_no_inner trx real slug d :
  slug <> "" ->
  Blockchain.realData trx = Throw TypeError
  \/ (Blockchain.realData trx = Ok real /\ mosaics real = None) ->
  Blockchain.extractMosaicFromTransactionData_ (Some trx) (Some slug) d
  = Blockchain.ExFalse.
Proof.
  intros Hslug Hcase.
  unfold Blockchain.extractMosaicFromTransactionData_, Blockchain.realData in *.
  rewrite bool_decide_eq_false_2 by exact Hslug.
  destruct (bool_decide (type trx = multisigTransaction)).
  - destruct (otherTrans trx) as [other|]; [|reflexivity].
    destruct Hcase as [Hc|[Hc Hm]]; [discriminate|].
    injection Hc as ->. rewrite Hm. reflexivity.
  - destruct Hcase as [Hc|[Hc Hm]]; [discriminate|].
    injection Hc as <-. rewrite Hm. reflexivity.
Qed.

Lemma extractMosaic_no_entry trx real slug d m ms :
  slug <> "" ->
  Blockchain.realData trx = Ok real ->
  mosaics real = Some (m :: ms) ->
  Forall (fun m => Blockchain.slugOf m <> slug) (m :: ms) ->
  Blockchain.extractMosaicFromTransactionData_ (Some trx) (Some slug) d
  = Blockchain.ExObject 0 Blockchain.RecFalse.
Proof.
  intros Hslug Hreal Hms Hall.
  rewrite (extractMosaic_scans trx real slug d m ms Hreal Hms Hslug).
  apply scanMosaics_no_match. exact Hall.
Qed.

End MosaicExtractor.

(** C2, the scenario of the specification: asset [ns:heart] of quantity 5
    with the amount field 2,000,000 and divisibility 6 gives 10. *)
Lemma extractMosaic_quantity_witness :
  exists total,
    @Blockchain.extractMosaicFromTransactionData_ Demo.chain
      (Some (Demo.plainTransfer 2000000 None (Some [Demo.xem 1; Demo.heart 5])))
      (Some "ns:heart") 6
    = Blockchain.ExObject total (Blockchain.RecField (Some "TRECIPIENT"))
    /\ total = 10.
Proof.
  destruct (@extractMosaic_quantity Demo.chain
              (Demo.plainTransfer 2000000 None (Some [Demo.xem 1; Demo.heart 5]))
              (self (Demo.plainTransfer 2000000 None
                       (Some [Demo.xem 1; Demo.heart 5])))
              "ns:heart" 6 [Demo.xem 1] (Demo.heart 5) [])
    as (total & Hres & Hbig & _).
  - lia.
  - reflexivity.
  - reflexivity.
  - repeat constructor. discriminate.
  - reflexivity.
  - intros a [= <-]. reflexivity.
  - reflexivity.
  - reflexivity.
  - exists total. split; [exact Hres|].
    rewrite (Hbig 2000000); [reflexivity|reflexivity|]. simpl. lia.
Defined.

(** C2 as stated fails: with the amount field 500,000 and divisibility 6
    the extractor returns 0 for an entry of quantity 5, where the stated
    formula gives 5 * max(1, 0) = 5. *)
Lemma extractMosaic_subunit_amount :
  @Blockchain.extractMosaicFromTransactionData_ Demo.chain
    (Some (Demo.plainTransfer 500000 None (Some [Demo.heart 5])))
    (Some "ns:heart") 6
  = Blockchain.ExObject 0 (Blockchain.RecField (Some "TRECIPIENT"))
  /\ Demo.stated_quantity 5 500000 6 = 5.
Proof. split; reflexivity. Qed.

(** C8. The extractor has two different results for "not found": the
    object with quantity 0 and recipient [false] when an argument is empty
    or no entry has the slug, and the boolean [false] when a multisig
    envelope lacks its inner transaction or its list of mosaics and when a
    plain transfer has no or an empty list of mosaics. *)
Theorem extractMosaic_not_found_results :
  let extract := @Blockchain.extractMosaicFromTransactionData_ Demo.chain in
  let inner_without_mosaics :=
    {| type := 4100; self := Demo.emptyTransfer;
       otherTrans := Some Demo.emptyTransfer |} in
  extract None (Some "ns:heart") 6%nat
    = Blockchain.ExObject 0 Blockchain.RecFalse
  /\ extract (Some (Demo.plainTransfer 1 None None)) None 6%nat
     = Blockchain.ExObject 0 Blockchain.RecFalse
  /\ extract (Some (Demo.plainTransfer 1 None None)) (Some "") 6%nat
     = Blockchain.ExObject 0 Blockchain.RecFalse
  /\ extract (Some (Demo.plainTransfer 1 None (Some [Demo.xem 3])))
       (Some "ns:heart") 6%nat
     = Blockchain.ExObject 0 Blockchain.RecFalse
  /\ extract (Some Demo.bareMultisig) (Some "ns:heart") 6%nat
     = Blockchain.ExFalse
  /\ extract (Some inner_without_mosaics) (Some "ns:heart") 6%nat
     = Blockchain.ExFalse
  /\ extract (Some (Demo.plainTransfer 1 None None)) (Some "ns:heart") 6%nat
     = Blockchain.ExFalse
  /\ extract (Some (Demo.plainTransfer 1 None (Some []))) (Some "ns:heart") 6%nat
     = Blockchain.ExFalse
  /\ Blockchain.ExFalse <> Blockchain.ExObject 0 Blockchain.RecFalse.
Proof. repeat split; try reflexivity. discriminate. Qed.

(** ** Bot status updates *)

Section BotUpdates.
Context `{FloatOps} `{BotLib}.
Import PaymentsProtocol.

Lemma count_app f (a b : list event) :
  count f (a ++ b) = (count f a + count f b)%nat.
Proof. unfold count. rewrite List.filter_app, length_app. reflexivity. Qed.

(** The emission loop stops at its first channel: [clientData] does not
    resolve. *)
Lemma emitSuccess_run l st :
  emitSuccess l st
  = (st, match l with [] => Ok tt | _ :: _ => Throw ReferenceError end).
Proof. destruct l; reflexivity. Qed.

Lemma processPaymentChannelSuccess_run paymentChannel st :
  exists r,
    processPaymentChannelSuccess paymentChannel st
    = (logged (Enter "processPaymentChannelSuccess"
                 (Inv.number paymentChannel)) st, r)
    /\ (r = Throw ReferenceError <->
        exists c cs,
          botChannelSockets_ st !! Inv.number paymentChannel = Some (c :: cs)).
Proof.
  unfold processPaymentChannelSuccess, Eff.bind, emit, Eff.modify, Eff.get.
  simpl.
  destruct (botChannelSockets_ st !! Inv.number paymentChannel) as [l|] eqn:Hl.
  - rewrite emitSuccess_run. eexists; split; [reflexivity|].
    destruct l as [|c cs].
    + split; [discriminate|]. intros (c & cs & Hc). discriminate.
    + split; [eauto|reflexivity].
  - eexists; split; [reflexivity|].
    split; [discriminate|]. intros (c & cs & Hc). discriminate.
Qed.

(** What [storeInvoiceStatusUpdate] does once it has found an invoice and
    saved it. *)
Lemma storeInvoiceStatusUpdate_saved answers now data st invoice :
  findOne_err answers = false ->
  save_err answers = false ->
  findOne (invoiceQuery data) (db st) = Some invoice ->
  let invoice' := applyUpdate now data invoice in
  let gate :=
    (bool_decide (Upd.status data = Some "paid")
     || bool_decide (Upd.status data = Some "unconfirmed"))
    && Inv.isPaid invoice'
    && negb (js_lt (Inv.getTotalIncoming invoice') (Inv.amount invoice')) in
  if gate then
    storeInvoiceStatusUpdate answers now data st
    = processPaymentChannelSuccess invoice'
        (if resave_err answers then saved invoice' st
         else saved invoice' (saved invoice' st))
  else
    storeInvoiceStatusUpdate answers now data st = (saved invoice' st, Ok tt).
Proof.
  intros Hfind Hsave Hinv. simpl.
  unfold storeInvoiceStatusUpdate, Eff.bind, Eff.get, save, Eff.modify.
  simpl. rewrite Hfind, Hinv, Hsave.
  destruct (bool_decide (Upd.status data = Some "paid"));
    destruct (bool_decide (Upd.status data = Some "unconfirmed")); simpl;
    try reflexivity;
    destruct (Inv.isPaid (applyUpdate now data invoice)); simpl;
    try reflexivity;
    destruct (js_lt _ _); simpl; try reflexivity;
    destruct (resave_err answers); reflexivity.
Qed.

(** The gate of the payment success path as the code tests it. After an
    update of status [paid] or [unconfirmed] has been saved for the
    invoice it matches, the path is entered if and only if [isPaid] is
    set and amountPaid + amountUnconfirmed is not below the requested
    amount. When both amounts are numbers this is: their sum is at
    least the requested amount, so unconfirmed funds count. *)
Lemma success_path_gate answers now data st invoice :
  findOne_err answers = false ->
  save_err answers = false ->
  findOne (invoiceQuery data) (db st) = Some invoice ->
  Upd.status data = Some "paid" \/ Upd.status data = Some "unconfirmed" ->
  let invoice' := applyUpdate now data invoice in
  let entered :=
    Enter "processPaymentChannelSuccess" (Inv.number invoice') in
  exists evs,
    trace (fst (storeInvoiceStatusUpdate answers now data st))
    = trace st ++ Save invoice' :: evs
    /\ (In entered evs <->
        Inv.isPaid invoice' = true
        /\ js_lt (Inv.getTotalIncoming invoice') (Inv.amount invoice') = false)
    /\ (forall p u,
          Inv.amountPaid invoice' = JNum p ->
          Inv.amountUnconfirmed invoice' = JNum u ->
          (In entered evs <->
           Inv.isPaid invoice' = true /\ Inv.amount invoice' <= p + u)).
Proof.
  intros Hfind Hsave Hinv Hstatus invoice' entered.
  pose proof (storeInvoiceStatusUpdate_saved answers now data st invoice
                Hfind Hsave Hinv) as Hrun.
  simpl in Hrun. fold invoice' in Hrun.
  assert (Hst : bool_decide (Upd.status data = Some "paid")
                || bool_decide (Upd.status data = Some "unconfirmed") = true).
  { destruct Hstatus as [Hs|Hs]; rewrite Hs.
    - reflexivity.
    - rewrite (bool_decide_eq_true_2 (Some "unconfirmed" = Some "unconfirmed"))
        by reflexivity.
      apply orb_true_r. }
  rewrite Hst in Hrun. simpl in Hrun.
  assert (Hmain : exists evs,
    trace (fst (storeInvoiceStatusUpdate answers now data st))
    = trace st ++ Save invoice' :: evs
    /\ (In entered evs <->
        Inv.isPaid invoice' = true
        /\ js_lt (Inv.getTotalIncoming invoice') (Inv.amount invoice') = false)).
  { destruct (Inv.isPaid invoice') eqn:Hpaid; simpl in Hrun.
    - destruct (js_lt (Inv.getTotalIncoming invoice') (Inv.amount invoice'))
        eqn:Hlt; simpl in Hrun.
      + rewrite Hrun. exists []. split; [simpl; reflexivity|].
        simpl. intuition congruence.
      + destruct (processPaymentChannelSuccess_run invoice'
                    (if resave_err answers then saved invoice' st
                     else saved invoice' (saved invoice' st)))
          as (r & Hr & _).
        rewrite Hrun, Hr. simpl.
        destruct (resave_err answers); simpl.
        * exists [entered]. rewrite <- app_assoc. simpl.
          split; [reflexivity|]. simpl. intuition.
        * exists [Save invoice'; entered]. rewrite <- !app_assoc. simpl.
          split; [reflexivity|]. simpl. intuition.
    - rewrite Hrun. exists []. split; [simpl; reflexivity|].
      simpl. intuition congruence. }
  destruct Hmain as (evs & Htrace & Hiff).
  exists evs. split; [exact Htrace|]. split; [exact Hiff|].
  intros p u Hp Hu. rewrite Hiff.
  unfold Inv.getTotalIncoming. rewrite Hp, Hu. simpl.
  rewrite Z.ltb_ge. reflexivity.
Qed.

(** C6 (amended). An update of status [unconfirmed] that is saved for
    the invoice it matches sets the status of the invoice to
    [unconfirmed] and its [amountUnconfirmed] to the one of the update,
    and leaves every other field as it was: [isPaid] is not set,
    [amountPaid] and [paidAt] keep their values. When the invoice was
    not flagged as paid before, the update is one save and nothing
    else: the payment success path is not entered. *)
Theorem unconfirmed_update_frame answers now data st invoice :
  findOne_err answers = false ->
  save_err answers = false ->
  findOne (invoiceQuery data) (db st) = Some invoice ->
  Upd.status data = Some "unconfirmed" ->
  let invoice' :=
    Inv.set_amountUnconfirmed (Upd.amountUnconfirmed data)
      (Inv.set_status (Some "unconfirmed") invoice) in
  applyUpdate now data invoice = invoice'
  /\ Inv.isPaid invoice' = Inv.isPaid invoice
  /\ Inv.amountPaid invoice' = Inv.amountPaid invoice
  /\ Inv.paidAt invoice' = Inv.paidAt invoice
  /\ (Inv.isPaid invoice = false ->
      storeInvoiceStatusUpdate answers now data st
      = (saved invoice' st, Ok tt)).
Proof.
  intros Hfind Hsave Hinv Hstatus invoice'.
  assert (Happly : applyUpdate now data invoice = invoice').
  { unfold applyUpdate, invoice'. rewrite Hstatus.
    rewrite (bool_decide_eq_true_2 (Some "unconfirmed" = Some "unconfirmed"))
      by reflexivity.
    rewrite (bool_decide_eq_false_2 (Some "unconfirmed" = Some "paid"))
      by discriminate.
    reflexivity. }
  split; [exact Happly|]. repeat split.
  intros Hpaid.
  pose proof (storeInvoiceStatusUpdate_saved answers now data st invoice
                Hfind Hsave Hinv) as Hrun.
  simpl in Hrun. rewrite Happly in Hrun.
  replace (Inv.isPaid invoice') with false in Hrun by (symmetry; exact Hpaid).
  rewrite andb_false_r in Hrun. exact Hrun.
Qed.

(** [storeInvoiceStatusUpdate] leaves the recorded checksums alone and
    forwards nothing. *)
Lemma storeInvoiceStatusUpdate_frame answers now data st :
  let st' := fst (storeInvoiceStatusUpdate answers now data st) in
  byChecksum st' = byChecksum st
  /\ exists evs,
       trace st' = trace st ++ evs /\ count isForward evs = 0%nat.
Proof.
  simpl.
  destruct (findOne_err answers) eqn:Hfind.
  { unfold storeInvoiceStatusUpdate, Eff.bind, Eff.get. simpl.
    rewrite Hfind. simpl. split; [reflexivity|].
    exists []. rewrite app_nil_r. split; reflexivity. }
  destruct (findOne (invoiceQuery data) (db st)) as [invoice|] eqn:Hinv.
  2:{ unfold storeInvoiceStatusUpdate, Eff.bind, Eff.get. simpl.
      rewrite Hfind, Hinv. simpl. split; [reflexivity|].
      exists []. rewrite app_nil_r. split; reflexivity. }
  destruct (save_err answers) eqn:Hsave.
  { unfold storeInvoiceStatusUpdate, Eff.bind, Eff.get. simpl.
    rewrite Hfind, Hinv, Hsave. simpl. split; [reflexivity|].
    exists [Log "error"]. split; reflexivity. }
  pose proof (storeInvoiceStatusUpdate_saved answers now data st invoice
                Hfind Hsave Hinv) as Hrun.
  simpl in Hrun.
  destruct ((bool_decide (Upd.status data = Some "paid")
             || bool_decide (Upd.status data = Some "unconfirmed"))
            && Inv.isPaid (applyUpdate now data invoice)
            && negb (js_lt (Inv.getTotalIncoming (applyUpdate now data invoice))
                       (Inv.amount (applyUpdate now data invoice)))).
  - destruct (processPaymentChannelSuccess_run (applyUpdate now data invoice)
                (if resave_err answers
                 then saved (applyUpdate now data invoice) st
                 else saved (applyUpdate now data invoice)
                        (saved (applyUpdate now data invoice) st)))
      as (r & Hr & _).
    rewrite Hrun, Hr. simpl.
    destruct (resave_err answers); simpl; (split; [reflexivity|]).
    + eexists. rewrite <- app_assoc. split; [reflexivity|reflexivity].
    + eexists. rewrite <- !app_assoc. split; [reflexivity|reflexivity].
  - rewrite Hrun. simpl. split; [reflexivity|].
    eexists. split; reflexivity.
Qed.

(** A payload whose checksum is recorded is discarded: no state changes,
    nothing is forwarded, nothing is saved. *)
Lemma recorded_payload_discarded client answers now raw st :
  is_Some (byChecksum st !! MD5 raw) ->
  nembot_payment_status_update client answers now raw st
  = (st, Ok (Some false)).
Proof.
  intros Hseen. unfold nembot_payment_status_update, Eff.bind, Eff.get.
  rewrite bool_decide_eq_true_2 by exact Hseen. reflexivity.
Qed.

(** The first delivery of a payload that parses: its checksum is
    recorded and one event is forwarded before the store is updated. *)
Lemma first_delivery client answers now raw d st :
  byChecksum st !! MD5 raw = None ->
  JSON_parse raw = Ok (Some d) ->
  fst (nembot_payment_status_update client answers now raw st)
  = fst (storeInvoiceStatusUpdate answers now d
           (logged (ClientEmit client "nem2pay_payment_status_update"
                      {| cd_status := Upd.status d; paymentData := d |})
              (recorded (MD5 raw) (Some d) (logged (Log "info") st)))).
Proof.
  intros Hnew Hparse.
  unfold nembot_payment_status_update, Eff.bind at 1, Eff.get.
  rewrite bool_decide_eq_false_2
    by (rewrite Hnew; intros [x Hx]; discriminate).
  unfold Eff.bind, emit, recordChecksum, Eff.modify, Eff.lift. simpl.
  rewrite Hparse. simpl.
  destruct (storeInvoiceStatusUpdate answers now d _) as [s [x|e]];
    reflexivity.
Qed.

(** Saving a document twice leaves the store as one save does. *)
Lemma store_twice doc docs : store doc (store doc docs) = store doc docs.
Proof.
  induction docs as [|d docs IH]; cbn.
  - by rewrite bool_decide_eq_true_2.
  - destruct (bool_decide (Inv.number d = Inv.number doc)) eqn:Hd; cbn.
    + by rewrite bool_decide_eq_true_2.
    + by rewrite Hd, IH.
Qed.

(** C5 (amended). A payload that parses and whose checksum is new is
    recorded by its first delivery, which forwards one event to the
    client. A second delivery of the same payload is discarded: it
    changes no state, forwards nothing and saves nothing. Over the two
    deliveries one event is forwarded, and the store is saved as the
    first delivery alone saves it. When an invoice matches and the save
    succeeds, the store holds the updated invoice, saved once, or twice
    with the same content when the update passes the gate of the
    success path (status [paid] or [unconfirmed], the invoice flagged
    as paid, amountPaid + amountUnconfirmed not below the amount) and
    the second save succeeds. When the lookup or the save reports an
    error, or no invoice matches, nothing is saved. *)
Theorem duplicate_payload_discarded client a1 n1 a2 n2 raw d st :
  byChecksum st !! MD5 raw = None ->
  JSON_parse raw = Ok (Some d) ->
  let first := nembot_payment_status_update client a1 n1 raw st in
  let second := nembot_payment_status_update client a2 n2 raw (fst first) in
  second = (fst first, Ok (Some false))
  /\ byChecksum (fst first) !! MD5 raw = Some (Some d)
  /\ count isForward (trace (fst second))
     = (count isForward (trace st) + 1)%nat
  /\ (forall invoice,
        findOne_err a1 = false ->
        save_err a1 = false ->
        findOne (invoiceQuery d) (db st) = Some invoice ->
        let invoice' := applyUpdate n1 d invoice in
        let gate :=
          (bool_decide (Upd.status d = Some "paid")
           || bool_decide (Upd.status d = Some "unconfirmed"))
          && Inv.isPaid invoice'
          && negb (js_lt (Inv.getTotalIncoming invoice')
                     (Inv.amount invoice')) in
        db (fst second) = store invoice' (db st)
        /\ count isSave (trace (fst second))
           = (count isSave (trace st)
              + if gate && negb (resave_err a1) then 2 else 1)%nat)
  /\ (findOne_err a1 = true \/ save_err a1 = true
      \/ findOne (invoiceQuery d) (db st) = None ->
      count isSave (trace (fst second)) = count isSave (trace st)
      /\ db (fst second) = db st).
Proof.
  intros Hnew Hparse first second.
  pose proof (first_delivery client a1 n1 raw d st Hnew Hparse) as Hfirst.
  fold first in Hfirst.
  set (st3 := logged (ClientEmit client "nem2pay_payment_status_update"
                        {| cd_status := Upd.status d; paymentData := d |})
                (recorded (MD5 raw) (Some d) (logged (Log "info") st)))
    in Hfirst.
  destruct (storeInvoiceStatusUpdate_frame a1 n1 d st3)
    as (Hsums & evs & Htrace & Hfw).
  simpl in Hsums. rewrite <- Hfirst in Hsums, Htrace.
  assert (Hrec : byChecksum (fst first) !! MD5 raw = Some (Some d)).
  { rewrite Hsums. unfold st3. simpl. apply lookup_insert_eq. }
  assert (Hsecond : second = (fst first, Ok (Some false))).
  { unfold second. apply recorded_payload_discarded.
    rewrite Hrec. eauto. }
  rewrite Hsecond. simpl.
  split; [reflexivity|]. split; [exact Hrec|]. split.
  { rewrite Htrace. unfold st3. simpl.
    rewrite !count_app, Hfw. unfold count. simpl. lia. }
  split.
  - intros invoice Hf Hs Hinv.
    pose proof (storeInvoiceStatusUpdate_saved a1 n1 d st3 invoice Hf Hs Hinv)
      as Hrun.
    cbv zeta in Hrun.
    destruct ((bool_decide (Upd.status d = Some "paid")
               || bool_decide (Upd.status d = Some "unconfirmed"))
              && Inv.isPaid (applyUpdate n1 d invoice)
              && negb (js_lt (Inv.getTotalIncoming (applyUpdate n1 d invoice))
                         (Inv.amount (applyUpdate n1 d invoice)))).
    + destruct (processPaymentChannelSuccess_run (applyUpdate n1 d invoice)
                  (if resave_err a1
                   then saved (applyUpdate n1 d invoice) st3
                   else saved (applyUpdate n1 d invoice)
                          (saved (applyUpdate n1 d invoice) st3)))
        as (r & Hr & _).
      rewrite Hfirst, Hrun, Hr.
      destruct (resave_err a1); unfold st3; simpl.
      * split; [reflexivity|].
        rewrite !count_app. unfold count. simpl. lia.
      * split; [apply store_twice|].
        rewrite !count_app. unfold count. simpl. lia.
    + rewrite Hfirst, Hrun. unfold st3. simpl.
      split; [reflexivity|].
      rewrite !count_app. unfold count. simpl. lia.
  - intros Hnone.
    assert (Hrun : exists evs',
              storeInvoiceStatusUpdate a1 n1 d st3
              = ({| db := db st3; byChecksum := byChecksum st3;
                    botChannelSockets_ := botChannelSockets_ st3;
                    trace := trace st3 ++ evs' |}, Ok tt)
              /\ count isSave evs' = 0%nat).
    { unfold storeInvoiceStatusUpdate, Eff.bind, Eff.get. simpl.
      destruct (findOne_err a1) eqn:Hf.
      { exists []. rewrite app_nil_r. split; [reflexivity|done]. }
      destruct (findOne (invoiceQuery d) (db st)) as [invoice|] eqn:Hinv.
      2:{ exists []. rewrite app_nil_r. split; [reflexivity|done]. }
      destruct Hnone as [Hn|[Hn|Hn]]; [done| |done].
      rewrite Hn. exists [Log "error"]. split; done. }
    destruct Hrun as (evs' & Hrun & Hnosave).
    rewrite Hfirst, Hrun. unfold st3. simpl.
    rewrite !count_app, Hnosave. unfold count. simpl.
    split; [lia|reflexivity].
Qed.

End BotUpdates.

(** C10. The payment success path is entered for an invoice that has
    not received its amount: an [unconfirmed] update without the
    optional [amountUnconfirmed], for an invoice flagged as paid with
    400,000 of 1,000,000 units, leaves the sum amountPaid +
    amountUnconfirmed at NaN, which is not at least 1,000,000 and which
    the test [getTotalIncoming() < amount] lets through. *)
Theorem success_path_entered_on_NaN :
  let st' :=
    fst (@PaymentsProtocol.storeInvoiceStatusUpdate Demo.floats Demo.allFine
           17 Demo.unconfirmedBare (Demo.fresh [Demo.invoice1_flagged])) in
  PaymentsProtocol.count PaymentsProtocol.isSuccessPath
    (PaymentsProtocol.trace st') = 1%nat
  /\ exists invoice',
       PaymentsProtocol.findOne (Demo.byNumber "INV-1")
         (PaymentsProtocol.db st') = Some invoice'
       /\ Inv.isPaid invoice' = true
       /\ Inv.amount invoice' = 1000000
       /\ Inv.getTotalIncoming invoice' = JNaN
       /\ @js_ge Demo.floats (Inv.getTotalIncoming invoice')
            (Inv.amount invoice') = false.
Proof.
  split; [reflexivity|]. eexists. split; [reflexivity|].
  repeat split.
Qed.

(** C6, an instance: 400,000 unconfirmed units for an unpaid invoice. *)
Lemma unconfirmed_update_frame_witness :
  let invoice' :=
    Inv.set_amountUnconfirmed (JNum 400000)
      (Inv.set_status (Some "unconfirmed") Demo.invoice1) in
  @PaymentsProtocol.applyUpdate 17 Demo.unconfirmed400 Demo.invoice1 = invoice'
  /\ Inv.isPaid invoice' = false
  /\ Inv.amountPaid invoice' = JNum 0
  /\ Inv.paidAt invoice' = None
  /\ (false = false ->
      @PaymentsProtocol.storeInvoiceStatusUpdate Demo.floats Demo.allFine 17
        Demo.unconfirmed400 (Demo.fresh [Demo.invoice1])
      = (PaymentsProtocol.saved invoice' (Demo.fresh [Demo.invoice1]), Ok tt)).
Proof.
  exact (@unconfirmed_update_frame Demo.floats Demo.allFine 17
           Demo.unconfirmed400 (Demo.fresh [Demo.invoice1]) Demo.invoice1
           eq_refl eq_refl eq_refl eq_refl).
Defined.

(** C6 as stated fails: the update changes the status of the invoice, from
    [not_paid] to [unconfirmed]; and for an invoice flagged as paid with
    400,000 units, 600,000 unconfirmed units enter the payment success
    path. *)
Lemma unconfirmed_update_changes_status :
  let st' :=
    fst (@PaymentsProtocol.storeInvoiceStatusUpdate Demo.floats Demo.allFine
           17 Demo.unconfirmed400 (Demo.fresh [Demo.invoice1])) in
  let st'' :=
    fst (@PaymentsProtocol.storeInvoiceStatusUpdate Demo.floats Demo.allFine
           17 Demo.unconfirmed600 (Demo.fresh [Demo.invoice1_flagged])) in
  Inv.status Demo.invoice1 = Some "not_paid"
  /\ (exists invoice',
        PaymentsProtocol.findOne (Demo.byNumber "INV-1")
          (PaymentsProtocol.db st') = Some invoice'
        /\ Inv.status invoice' = Some "unconfirmed")
  /\ PaymentsProtocol.count PaymentsProtocol.isSuccessPath
       (PaymentsProtocol.trace st'') = 1%nat.
Proof.
  split; [reflexivity|]. split; [|reflexivity].
  eexists. split; reflexivity.
Qed.

(** C9. A payment channel is opened for the invoice [INV-1] and the
    client [client-1]; the bot then reports the invoice paid in full. The
    update is saved and the payment success path is entered, where the
    first emission raises a [ReferenceError]: no payment success event is
    sent to the registered channel. *)
Theorem payment_success_not_emitted :
  let opened :=
    @PaymentsProtocol.startPaymentChannel Demo.bot "bot-socket-1" false
      Demo.invoice1 "client-1" (Demo.fresh [Demo.invoice1]) in
  let delivered :=
    @PaymentsProtocol.nembot_payment_status_update Demo.floats Demo.bot
      "client-1" Demo.allFine 17 Demo.paid1000_text (fst opened) in
  PaymentsProtocol.botChannelSockets_ (fst opened) !! "INV-1"
  = Some [{| PaymentsProtocol.socket := "bot-socket-1";
             PaymentsProtocol.clientId := "client-1" |}]
  /\ (exists invoice',
        PaymentsProtocol.findOne (Demo.byNumber "INV-1")
          (PaymentsProtocol.db (fst delivered)) = Some invoice'
        /\ Inv.isPaid invoice' = true
        /\ Inv.status invoice' = Some "paid"
        /\ Inv.getTotalIncoming invoice' = JNum (Inv.amount invoice'))
  /\ snd delivered = Throw ReferenceError
  /\ PaymentsProtocol.count PaymentsProtocol.isSuccessPath
       (PaymentsProtocol.trace (fst delivered)) = 1%nat
  /\ PaymentsProtocol.count PaymentsProtocol.isSuccess
       (PaymentsProtocol.trace (fst delivered)) = 0%nat.
Proof.
  split; [reflexivity|]. split.
  - eexists. split; [reflexivity|]. repeat split.
  - repeat split.
Qed.

(** C5, an instance: the paid update for [INV-1], delivered twice. The
    update pays the invoice in full, so the first delivery saves it
    twice. *)
Lemma duplicate_payload_discarded_witness :
  let first :=
    @PaymentsProtocol.nembot_payment_status_update Demo.floats Demo.bot
      "client-1" Demo.allFine 17 Demo.paid1000_text
      (Demo.fresh [Demo.invoice1]) in
  let second :=
    @PaymentsProtocol.nembot_payment_status_update Demo.floats Demo.bot
      "client-1" Demo.allFine 18 Demo.paid1000_text (fst first) in
  second = (fst first, Ok (Some false))
  /\ PaymentsProtocol.count PaymentsProtocol.isForward
       (PaymentsProtocol.trace (fst second)) = 1%nat
  /\ PaymentsProtocol.db (fst second)
     = [@PaymentsProtocol.applyUpdate 17 Demo.paid1000 Demo.invoice1]
  /\ PaymentsProtocol.count PaymentsProtocol.isSave
       (PaymentsProtocol.trace (fst second)) = 2%nat.
Proof.
  destruct (@duplicate_payload_discarded Demo.floats Demo.bot "client-1"
              Demo.allFine 17 Demo.allFine 18 Demo.paid1000_text Demo.paid1000
              (Demo.fresh [Demo.invoice1]))
    as (Hsecond & _ & Hforward & Hstore & _).
  - reflexivity.
  - reflexivity.
  - destruct (Hstore Demo.invoice1 eq_refl eq_refl eq_refl) as [Hdb Hsaves].
    split; [exact Hsecond|]. split; [exact Hforward|].
    split; [exact Hdb|exact Hsaves].
Defined.

(** C5 as stated fails: a payload for an invoice that the store does not
    have is forwarded once and never saved, over both deliveries; a
    payload that pays its invoice in full is saved twice by its first
    delivery; and a payload that is not JSON raises a [SyntaxError] at
    each delivery, is not recorded and is never forwarded. *)
Lemma duplicate_delivery_without_save :
  let deliver raw st :=
    @PaymentsProtocol.nembot_payment_status_update Demo.floats Demo.bot
      "client-1" Demo.allFine 17 raw st in
  let st0 := Demo.fresh [Demo.invoice1] in
  let twice raw := fst (deliver raw (fst (deliver raw st0))) in
  PaymentsProtocol.count PaymentsProtocol.isForward
    (PaymentsProtocol.trace (twice Demo.stray_text)) = 1%nat
  /\ PaymentsProtocol.count PaymentsProtocol.isSave
       (PaymentsProtocol.trace (twice Demo.stray_text)) = 0%nat
  /\ PaymentsProtocol.db (twice Demo.stray_text) = [Demo.invoice1]
  /\ PaymentsProtocol.count PaymentsProtocol.isSave
       (PaymentsProtocol.trace (twice Demo.paid1000_text)) = 2%nat
  /\ snd (deliver "oops" st0) = Throw SyntaxError
  /\ snd (deliver "oops" (fst (deliver "oops" st0))) = Throw SyntaxError
  /\ PaymentsProtocol.count PaymentsProtocol.isForward
       (PaymentsProtocol.trace (twice "oops")) = 0%nat.
Proof. repeat split. Qed.

(** ** Reconciliation *)

Section WriteBack.
Context `{FloatOps} `{ChainLib}.
Import Reconciliation.

Lemma writeBack_amountPaid total i :
  Inv.amountPaid (writeBack total i) = total.
Proof.
  unfold writeBack. simpl.
  destruct (js_ge total (Inv.amount i)); [destruct (js_gt _ _)|]; reflexivity.
Qed.

Lemma writeBack_amount total i :
  Inv.amount (writeBack total i) = Inv.amount i.
Proof.
  unfold writeBack. simpl.
  destruct (js_ge total (Inv.amount i)); [destruct (js_gt _ _)|]; reflexivity.
Qed.

Lemma writeBack_number total i :
  Inv.number (writeBack total i) = Inv.number i.
Proof.
  unfold writeBack. simpl.
  destruct (js_ge total (Inv.amount i)); [destruct (js_gt _ _)|]; reflexivity.
Qed.

(** The status that the second loop derives from a numeric total. *)
Lemma writeBack_status t i :
  let i' := writeBack (JNum t) i in
  (t = Inv.amount i ->
     Inv.isPaid i' = true /\ Inv.status i' = Some "paid")
  /\ (Inv.amount i < t ->
       Inv.isPaid i' = true /\ Inv.status i' = Some "overpaid")
  /\ (t < Inv.amount i ->
       Inv.isPaid i' = Inv.isPaid i /\ Inv.status i' = Inv.status i).
Proof.
  unfold writeBack. simpl. split; [|split]; intros Ht.
  - rewrite (proj2 (Z.leb_le _ _)), (proj2 (Z.ltb_ge _ _)) by lia.
    split; reflexivity.
  - rewrite (proj2 (Z.leb_le _ _)), (proj2 (Z.ltb_lt _ _)) by lia.
    split; reflexivity.
  - rewrite (proj2 (Z.leb_gt _ _)) by lia. split; reflexivity.
Qed.

(** The second loop, invoice by invoice. *)
Lemma writeBackAll_lookup entries h r :
  writeBackAll entries h !! r
  = applyTotals (totalsFor r entries) <$> h !! r.
Proof.
  revert h. induction entries as [|[k e] rest IH]; intros h; simpl.
  - destruct (h !! r); reflexivity.
  - rewrite IH. case_bool_decide as Hr.
    + subst r. rewrite lookup_alter_eq.
      destruct (h !! invoice e); reflexivity.
    + rewrite lookup_alter_ne by exact Hr. reflexivity.
Qed.

Lemma applyTotals_snoc totals t i :
  applyTotals (totals ++ [t]) i = writeBack t (applyTotals totals i).
Proof. unfold applyTotals. rewrite fold_left_app. reflexivity. Qed.

Lemma applyTotals_number totals i :
  Inv.number (applyTotals totals i) = Inv.number i.
Proof.
  revert i. induction totals as [|t totals IH]; intros i; simpl;
    [reflexivity|].
  rewrite IH. apply writeBack_number.
Qed.

(** Writing a total twice is writing it once, also with other totals
    written in between. *)
Lemma writeBack_absorbs t t' x y :
  writeBack t x = writeBack t y ->
  writeBack t (writeBack t' x) = writeBack t (writeBack t' y).
Proof.
  intros Heq.
  assert (Ha : Inv.amount x = Inv.amount y).
  { rewrite <- (writeBack_amount t x), <- (writeBack_amount t y), Heq.
    reflexivity. }
  destruct x as [n pa ra so a ap au s ip pd di],
           y as [n' pa' ra' so' a' ap' au' s' ip' pd' di'].
  cbn [Inv.amount] in Ha. subst a'.
  cbv [writeBack Inv.set_dirty Inv.set_status Inv.set_isPaid
       Inv.set_amountPaid Inv.amount Inv.amountPaid Inv.number
       Inv.payerXEM Inv.recipientXEM Inv.socketIds Inv.amountUnconfirmed
       Inv.status Inv.isPaid Inv.paidAt Inv.dirty] in *.
  (destruct (js_ge t' a); [destruct (js_gt t' a)|]);
    cbv [Inv.amount Inv.amountPaid Inv.number Inv.payerXEM
         Inv.recipientXEM Inv.socketIds Inv.amountUnconfirmed Inv.status
         Inv.isPaid Inv.paidAt Inv.dirty];
    (destruct (js_ge t a); [destruct (js_gt t a)|]);
    inversion Heq; subst; reflexivity.
Qed.

Lemma writeBack_twice t x : writeBack t (writeBack t x) = writeBack t x.
Proof.
  destruct x as [n pa ra so a ap au s ip pd di].
  cbv [writeBack Inv.set_dirty Inv.set_status Inv.set_isPaid
       Inv.set_amountPaid Inv.amount Inv.amountPaid Inv.number
       Inv.payerXEM Inv.recipientXEM Inv.socketIds Inv.amountUnconfirmed
       Inv.status Inv.isPaid Inv.paidAt Inv.dirty].
  destruct (js_ge t a) eqn:Hge; [destruct (js_gt t a) eqn:Hgt|];
    cbv [Inv.amount Inv.amountPaid Inv.number Inv.payerXEM
         Inv.recipientXEM Inv.socketIds Inv.amountUnconfirmed Inv.status
         Inv.isPaid Inv.paidAt Inv.dirty];
    rewrite ?Hge, ?Hgt; reflexivity.
Qed.

Lemma applyTotals_absorbs t totals x y :
  writeBack t x = writeBack t y ->
  writeBack t (applyTotals totals x) = writeBack t (applyTotals totals y).
Proof.
  revert x y. induction totals as [|t' totals IH]; intros x y Heq; simpl.
  - exact Heq.
  - apply IH. apply writeBack_absorbs. exact Heq.
Qed.

Lemma applyTotals_twice totals i :
  applyTotals totals (applyTotals totals i) = applyTotals totals i.
Proof.
  induction totals as [|t totals IH] using rev_ind; [reflexivity|].
  rewrite !applyTotals_snoc.
  rewrite (applyTotals_absorbs t totals
             (writeBack t (applyTotals totals i)) (applyTotals totals i)
             (writeBack_twice t _)).
  rewrite IH. reflexivity.
Qed.

Lemma writeBackAll_twice entries h :
  writeBackAll entries (writeBackAll entries h) = writeBackAll entries h.
Proof.
  apply map_eq. intros r. rewrite !writeBackAll_lookup.
  destruct (h !! r) as [i|]; simpl; [|reflexivity].
  rewrite applyTotals_twice. reflexivity.
Qed.

Lemma writeBackAll_is_Some entries h r :
  is_Some (writeBackAll entries h !! r) <-> is_Some (h !! r).
Proof. rewrite writeBackAll_lookup. apply fmap_is_Some. Qed.

End WriteBack.

Section Pass.
Context `{FloatOps} `{ChainLib}.
Import Reconciliation.

Abbreviation hist := paymentTransactionHistory_.

(** One turn of the first loop. *)
Lemma scan_cons t rest last st :
  scan (t :: rest) last st
  = match readTransaction t with
    | Throw e => (st, Throw e)
    | Ok (h, m, a) =>
        if bool_decide (keyOf h ∈ byHash (hist st)) then (st, Ok None)
        else
          let history := markHash (keyOf h) (hist st) in
          let next := idArg (Blockchain.getTransactionId t) in
          if negb (bool_decide (type (transaction t) = transfer))
             && negb (bool_decide (type (transaction t) = multisigTransaction))
          then scan rest next (withHistory history st)
          else if negb (hasOwnProperty (byInvoice history) (toUpperCase m))
          then scan rest next (withHistory history st)
          else scan rest next
                 (withHistory (pushPayment (toUpperCase m) t a history)
                    (withHistory history st))
    end.
Proof.
  cbn [scan]. unfold Eff.bind, Eff.lift, Eff.get.
  destruct (readTransaction t) as [[[h m] a]|e]; [|reflexivity].
  destruct (bool_decide (keyOf h ∈ byHash (hist st))); [reflexivity|].
  unfold setHistory, Eff.modify. cbn [fst snd].
  destruct (negb (bool_decide (type (transaction t) = transfer))
            && negb (bool_decide (type (transaction t) = multisigTransaction)));
    [reflexivity|].
  cbn [markHash byInvoice].
  destruct (negb (hasOwnProperty (byInvoice (hist st)) (toUpperCase m)));
    reflexivity.
Qed.

(** The first loop touches neither the invoices nor the trace, and only
    adds to the hashes it has seen. *)
Lemma scan_frame txs last st :
  let st' := fst (scan txs last st) in
  heap st' = heap st
  /\ trace st' = trace st
  /\ byHash (hist st) ⊆ byHash (hist st').
Proof.
  revert last st. induction txs as [|t rest IH]; intros last st.
  - simpl. split; [reflexivity|]. split; reflexivity.
  - rewrite scan_cons.
    destruct (readTransaction t) as [[[h m] a]|e].
    2:{ simpl. split; [reflexivity|]. split; reflexivity. }
    destruct (bool_decide (keyOf h ∈ byHash (hist st))).
    { simpl. split; [reflexivity|]. split; reflexivity. }
    cbn zeta.
    destruct (negb (bool_decide (type (transaction t) = transfer))
              && negb (bool_decide (type (transaction t) = multisigTransaction)));
      [|destruct (negb (hasOwnProperty _ _))];
      match goal with
      | |- context [scan rest ?l ?s] =>
          destruct (IH l s) as (Hheap & Htrace & Hsub)
      end;
      (split; [rewrite Hheap; reflexivity|]);
      (split; [rewrite Htrace; reflexivity|]);
      simpl in Hsub; (etrans; [|exact Hsub]); apply union_subseteq_r.
Qed.

(** The hash of the first record of a page is seen once the loop has
    read the record. *)
Lemma scan_marks t rest last st h m a :
  readTransaction t = Ok (h, m, a) ->
  keyOf h ∈ byHash (hist (fst (scan (t :: rest) last st))).
Proof.
  intros Hread. rewrite scan_cons, Hread.
  destruct (bool_decide (keyOf h ∈ byHash (hist st))) eqn:Hseen.
  { apply bool_decide_eq_true_1 in Hseen. exact Hseen. }
  cbn zeta.
  destruct (negb (bool_decide (type (transaction t) = transfer))
            && negb (bool_decide (type (transaction t) = multisigTransaction)));
    [|destruct (negb (hasOwnProperty _ _))];
    match goal with
    | |- context [scan rest ?l ?s] =>
        destruct (scan_frame rest l s) as (_ & _ & Hsub)
    end;
    simpl in Hsub; apply Hsub, elem_of_union_l, elem_of_singleton;
    reflexivity.
Qed.

(** The loop ends with the value it started from or with the id of a
    record. *)
Lemma scan_last txs last st st' l :
  scan txs last st = (st', Ok (Some l)) ->
  l = last \/ exists i, l = idArg i.
Proof.
  revert last st. induction txs as [|t rest IH]; intros last st.
  - simpl. unfold Eff.ret. intros Heq. inversion Heq. left. reflexivity.
  - rewrite scan_cons.
    destruct (readTransaction t) as [[[h m] a]|e]; [|discriminate].
    destruct (bool_decide (keyOf h ∈ byHash (hist st))); [discriminate|].
    cbn zeta.
    destruct (negb (bool_decide (type (transaction t) = transfer))
              && negb (bool_decide (type (transaction t) = multisigTransaction)));
      [|destruct (negb (hasOwnProperty _ _))];
      intros Heq; apply IH in Heq; destruct Heq as [->|Hi]; eauto.
Qed.

(** *** [saveIncomingPaymentsHistory] *)

Lemma save_run txs st :
  saveIncomingPaymentsHistory txs st
  = match scan txs ANull st with
    | (st', Ok (Some last)) =>
        (withHeap (writeBackAll (byInvoice (hist st')) (heap st')) st',
         Ok last)
    | (st', Ok None) => (st', Ok AFalse)
    | (st', Throw e) => (st', Throw e)
    end.
Proof.
  unfold saveIncomingPaymentsHistory, Eff.bind.
  destruct (scan txs ANull st) as [st' [[last|]|e]]; reflexivity.
Qed.

Lemma save_empty_page st :
  saveIncomingPaymentsHistory [] st
  = (withHeap (writeBackAll (byInvoice (hist st)) (heap st)) st, Ok ANull).
Proof. reflexivity. Qed.

Lemma save_seen t rest st h m a :
  readTransaction t = Ok (h, m, a) ->
  keyOf h ∈ byHash (hist st) ->
  saveIncomingPaymentsHistory (t :: rest) st = (st, Ok AFalse).
Proof.
  intros Hread Hseen. rewrite save_run, scan_cons, Hread.
  rewrite bool_decide_eq_true_2 by exact Hseen. reflexivity.
Qed.

Lemma save_unreadable t rest st e :
  readTransaction t = Throw e ->
  saveIncomingPaymentsHistory (t :: rest) st = (st, Throw e).
Proof. intros Hread. rewrite save_run, scan_cons, Hread. reflexivity. Qed.

Lemma save_frame txs st :
  let st' := fst (saveIncomingPaymentsHistory txs st) in
  trace st' = trace st
  /\ byHash (hist st) ⊆ byHash (hist st')
  /\ forall r, is_Some (heap st' !! r) <-> is_Some (heap st !! r).
Proof.
  rewrite save_run.
  destruct (scan_frame txs ANull st) as (Hheap & Htrace & Hsub).
  destruct (scan txs ANull st) as [st' [[last|]|e]]; simpl in *.
  - split; [exact Htrace|]. split; [exact Hsub|].
    intros r. rewrite writeBackAll_is_Some, Hheap. reflexivity.
  - split; [exact Htrace|]. split; [exact Hsub|].
    intros r. rewrite Hheap. reflexivity.
  - split; [exact Htrace|]. split; [exact Hsub|].
    intros r. rewrite Hheap. reflexivity.
Qed.

Lemma save_marks t rest st h m a :
  readTransaction t = Ok (h, m, a) ->
  keyOf h ∈ byHash (hist (fst (saveIncomingPaymentsHistory (t :: rest) st))).
Proof.
  intros Hread. rewrite save_run.
  pose proof (scan_marks t rest ANull st h m a Hread) as Hin.
  destruct (scan (t :: rest) ANull st) as [st' [[last|]|e]]; exact Hin.
Qed.

Lemma save_result txs st l :
  snd (saveIncomingPaymentsHistory txs st) = Ok l ->
  l = AFalse \/ l = ANull \/ exists i, l = idArg i.
Proof.
  rewrite save_run.
  destruct (scan txs ANull st) as [st' [[last|]|e]] eqn:Hscan; simpl;
    intros Heq; inversion Heq; subst.
  - right. apply scan_last in Hscan. exact Hscan.
  - left. reflexivity.
Qed.

End Pass.

Section Sweep.
Context `{FloatOps} `{ChainLib}.
Import Reconciliation.

Abbreviation hist := paymentTransactionHistory_.

(** *** The synchronous part of [fetchInvoicesRealHistory] *)

Lemma initEntries_frame l st :
  let st' := fst (initEntries l st) in
  heap st' = heap st
  /\ byHash (hist st') = byHash (hist st)
  /\ trace st' = trace st.
Proof.
  revert st. induction l as [|r rest IH]; intros st; [by simpl|].
  cbn [initEntries]. unfold Eff.bind, Eff.get, Eff.lift.
  destruct (heap st !! r) as [inv|]; simpl; [|done].
  destruct (hasOwnProperty _ _); simpl.
  - apply IH.
  - unfold setHistory, Eff.modify. simpl.
    destruct (IH (withHistory
                    {| byInvoice :=
                         byInvoice (hist st) ++
                         [(toUpperCase (Inv.number inv),
                           {| transactions := []; totalPaid := JNum 0;
                              invoice := r |})];
                       byHash := byHash (hist st) |} st))
      as (Hheap & Hhash & Htrace).
    simpl in *. done.
Qed.

(** Whether the first loop of the sweep succeeds depends on the
    documents that exist, and on nothing else. *)
Lemma initEntries_outcome l st st' :
  (forall r, is_Some (heap st !! r) <-> is_Some (heap st' !! r)) ->
  snd (initEntries l st) = snd (initEntries l st').
Proof.
  revert st st'. induction l as [|r rest IH]; intros st st' Hdom; [done|].
  cbn [initEntries]. unfold Eff.bind, Eff.get, Eff.lift.
  pose proof (Hdom r) as Hr.
  destruct (heap st !! r) as [inv|], (heap st' !! r) as [inv'|]; simpl;
    try done.
  - assert (Hnext : forall (a b : state),
              heap a = heap st -> heap b = heap st' ->
              snd (initEntries rest a) = snd (initEntries rest b)).
    { intros a b Ha Hb. apply IH. intros r'. rewrite Ha, Hb. apply Hdom. }
    destruct (hasOwnProperty (byInvoice (hist st)) _),
             (hasOwnProperty (byInvoice (hist st')) _); simpl;
      unfold setHistory, Eff.modify; simpl;
      apply Hnext; reflexivity.
  - destruct Hr as [Hr _]. destruct (Hr (mk_is_Some _ _ eq_refl)). done.
  - destruct Hr as [_ Hr]. destruct (Hr (mk_is_Some _ _ eq_refl)). done.
Qed.

Lemma lookupEntry_app k (a b : list (string * entryT)) :
  lookupEntry k (a ++ b)
  = match lookupEntry k a with
    | Some e => Some e
    | None => lookupEntry k b
    end.
Proof.
  induction a as [|[k' e] a IH]; simpl; [reflexivity|].
  destruct (bool_decide (k' = k)); [reflexivity|exact IH].
Qed.

Lemma hasOwnProperty_app k (a b : list (string * entryT)) :
  hasOwnProperty a k = true -> hasOwnProperty (a ++ b) k = true.
Proof.
  unfold hasOwnProperty. intros Ha. apply bool_decide_eq_true_1 in Ha.
  apply bool_decide_eq_true_2. rewrite lookupEntry_app.
  destruct Ha as [e ->]. eauto.
Qed.

Lemma hasOwnProperty_added k e (a : list (string * entryT)) :
  hasOwnProperty (a ++ [(k, e)]) k = true.
Proof.
  unfold hasOwnProperty. apply bool_decide_eq_true_2.
  rewrite lookupEntry_app. destruct (lookupEntry k a); [eauto|].
  simpl. rewrite bool_decide_eq_true_2 by reflexivity. eauto.
Qed.

(** The keys of [byInvoice] stay, and every invoice of the list has its
    key afterwards. *)
Lemma initEntries_keeps l st k :
  hasOwnProperty (byInvoice (hist st)) k = true ->
  hasOwnProperty (byInvoice (hist (fst (initEntries l st)))) k = true.
Proof.
  revert st. induction l as [|r rest IH]; intros st Hk; [exact Hk|].
  cbn [initEntries]. unfold Eff.bind, Eff.get, Eff.lift.
  destruct (heap st !! r) as [inv|]; simpl; [|exact Hk].
  destruct (hasOwnProperty (byInvoice (hist st))
              (toUpperCase (Inv.number inv))) eqn:Hhas; simpl.
  - apply IH. exact Hk.
  - unfold setHistory, Eff.modify. simpl. apply IH. simpl.
    apply hasOwnProperty_app. exact Hk.
Qed.

Lemma initEntries_keys l st r inv :
  snd (initEntries l st) = Ok tt ->
  r ∈ l ->
  heap st !! r = Some inv ->
  hasOwnProperty (byInvoice (hist (fst (initEntries l st))))
    (toUpperCase (Inv.number inv)) = true.
Proof.
  revert st. induction l as [|r' rest IH]; intros st Hok Hin Hr.
  - inversion Hin.
  - cbn [initEntries] in *. unfold Eff.bind, Eff.get, Eff.lift in *.
    destruct (heap st !! r') as [inv'|] eqn:Hr'; simpl in *; [|discriminate].
    apply elem_of_cons in Hin. destruct Hin as [->|Hin].
    + rewrite Hr in Hr'. injection Hr' as <-.
      destruct (hasOwnProperty (byInvoice (hist st))
                  (toUpperCase (Inv.number inv))) eqn:Hhas; simpl in *.
      * apply initEntries_keeps. exact Hhas.
      * unfold setHistory, Eff.modify. simpl. apply initEntries_keeps.
        simpl. apply hasOwnProperty_added.
    + destruct (hasOwnProperty (byInvoice (hist st))
                  (toUpperCase (Inv.number inv'))); simpl in *.
      * apply IH; assumption.
      * unfold setHistory, Eff.modify in *. simpl in *.
        apply IH; [exact Hok|exact Hin|exact Hr].
Qed.

Lemma initEntries_nothing_new l st :
  (forall r, r ∈ l ->
     exists inv,
       heap st !! r = Some inv
       /\ hasOwnProperty (byInvoice (hist st))
            (toUpperCase (Inv.number inv)) = true) ->
  initEntries l st = (st, Ok tt).
Proof.
  induction l as [|r rest IH]; intros Hall; [reflexivity|].
  cbn [initEntries]. unfold Eff.bind, Eff.get, Eff.lift.
  destruct (Hall r) as (inv & Hr & Hhas); [apply elem_of_cons; by left|].
  rewrite Hr. simpl. rewrite Hhas. simpl.
  apply IH. intros r' Hin. apply Hall. apply elem_of_cons. by right.
Qed.

Lemma call_frame callback e st :
  let st' := fst (call callback e st) in
  heap st' = heap st /\ hist st' = hist st.
Proof. destruct callback; simpl; done. Qed.

Lemma fetch_call_frame recipient invoices lastTrxRead callback st :
  let st' :=
    fst (fetchInvoicesRealHistory_call recipient invoices lastTrxRead
           callback st) in
  heap st' = heap st /\ byHash (hist st') = byHash (hist st).
Proof.
  unfold fetchInvoicesRealHistory_call, Eff.bind, Eff.lift.
  destruct invoices as [| | | | s | l | arity]; simpl; try done;
    try (destruct callback; simpl; done).
  - destruct (String.length s); [destruct callback; simpl; done|done].
  - destruct l as [|r rest]; [destruct callback; simpl; done|].
    change (length (r :: rest)) with (S (length rest)). cbn iota.
    unfold initAccumulators.
    destruct (initEntries_frame (r :: rest) st) as (Hheap & Hhash & _).
    destruct (initEntries (r :: rest) st) as [s' [[]|e]]; simpl in *; done.
  - destruct arity; [destruct callback; simpl; done|done].
Qed.

(** When the sweep sends a request, [invoices] is a non-empty array of
    documents that exist. *)
Lemma fetch_call_pending recipient invoices lastTrxRead callback st p :
  snd (fetchInvoicesRealHistory_call recipient invoices lastTrxRead
         callback st) = Ok (Some p) ->
  exists l,
    invoices = AInvoices l
    /\ l <> []
    /\ snd (initEntries l st) = Ok tt.
Proof.
  unfold fetchInvoicesRealHistory_call, Eff.bind, Eff.lift.
  destruct invoices as [| | | | s | l | arity]; simpl; try done;
    try (destruct callback; simpl; done).
  - destruct (String.length s); [destruct callback; simpl; done|done].
  - destruct l as [|r rest]; [destruct callback; simpl; done|].
    change (length (r :: rest)) with (S (length rest)). cbn iota.
    unfold initAccumulators. intros Hp. exists (r :: rest).
    split; [reflexivity|]. split; [discriminate|].
    destruct (initEntries (r :: rest) st) as [s' [[]|e]]; simpl in *; done.
  - destruct arity; [destruct callback; simpl; done|done].
Qed.

Lemma fetch_call_sends recipient l lastTrxRead callback st :
  l <> [] ->
  snd (initEntries l st) = Ok tt ->
  fetchInvoicesRealHistory_call recipient (AInvoices l) lastTrxRead
    callback st
  = (logged (Request recipient lastTrxRead) (fst (initEntries l st)),
     Ok (Some {| p_recipient := recipient; p_invoices := AInvoices l;
                 p_lastTrxRead := lastTrxRead; p_callback := callback |})).
Proof.
  intros Hl Hok.
  unfold fetchInvoicesRealHistory_call, Eff.bind, Eff.lift. simpl.
  destruct l as [|r rest]; [done|].
  change (length (r :: rest)) with (S (length rest)). cbn iota.
  unfold initAccumulators.
  destruct (initEntries (r :: rest) st) as [s' [[]|e]]; simpl in *;
    [reflexivity|discriminate].
Qed.

(** The recursive call of the source never reaches the gateway: what
    arrives as [invoices] is [null], [undefined] or a number, and
    [callback] is [undefined]. *)
Lemma recursive_call_throws invoices lastTrxRead callback st :
  lastTrxRead = ANull \/ (exists i, lastTrxRead = idArg i) ->
  fetchInvoicesRealHistory_call invoices lastTrxRead callback AUndefined st
  = (st, Throw TypeError).
Proof.
  intros [->|[[z|] ->]]; reflexivity.
Qed.


Lemma initEntries_allocated l st r :
  snd (initEntries l st) = Ok tt -> r ∈ l -> is_Some (heap st !! r).
Proof.
  revert st. induction l as [|r' rest IH]; intros st Hok Hin.
  - inversion Hin.
  - cbn [initEntries] in Hok. unfold Eff.bind, Eff.get, Eff.lift in Hok.
    destruct (heap st !! r') as [inv'|] eqn:Hr'; simpl in Hok;
      [|discriminate].
    apply elem_of_cons in Hin. destruct Hin as [->|Hin].
    + rewrite Hr'. eauto.
    + destruct (hasOwnProperty (byInvoice (hist st))
                  (toUpperCase (Inv.number inv'))); simpl in Hok.
      * apply IH; assumption.
      * unfold setHistory, Eff.modify in Hok. simpl in Hok.
        apply (IH _ Hok Hin).
Qed.

(** *** The handlers of the promise *)

Context (incoming : jsarg -> jsarg -> option (list transactionMetaDataPair)).

(** A page that arrives is handed to [saveIncomingPaymentsHistory];
    what follows in the handlers changes neither the invoices nor the
    history, and leaves no request pending. *)
Lemma settle_page p page st :
  incoming (p_recipient p) (p_lastTrxRead p) = Some page ->
  exists st',
    settle incoming p st = (st', Ok None)
    /\ heap st' = heap (fst (saveIncomingPaymentsHistory page st))
    /\ hist st' = hist (fst (saveIncomingPaymentsHistory page st)).
Proof.
  intros Hpage. unfold settle. rewrite Hpage.
  unfold catch, onFulfilled, Eff.bind at 1.
  pose proof (save_result page st) as Hres.
  destruct (saveIncomingPaymentsHistory page st) as [s1 [l|e]]; simpl.
  2:{ eexists. split; [reflexivity|]. split; reflexivity. }
  specialize (Hres l eq_refl).
  unfold Eff.bind at 1.
  destruct (negb (isFalse l) && (length page =? 25)%nat) eqn:Hrec.
  - assert (Hl : l = ANull \/ exists i, l = idArg i).
    { destruct Hres as [->|Hres]; [discriminate|exact Hres]. }
    rewrite (recursive_call_throws (p_invoices p) l (p_callback p) s1 Hl).
    eexists. split; [reflexivity|]. split; reflexivity.
  - unfold Eff.ret at 1.
    destruct (truthy_arg (p_callback p)
              && (isFalse l || (length page <? 25)%nat)).
    + unfold Eff.bind, Eff.get.
      destruct (p_callback p); simpl;
        (eexists; split; [reflexivity|]; split; reflexivity).
    + eexists. split; [reflexivity|]. split; reflexivity.
Qed.

Lemma settle_rejected p st :
  incoming (p_recipient p) (p_lastTrxRead p) = None ->
  settle incoming p st = (logged LogError st, Ok None).
Proof. intros Hnone. unfold settle. rewrite Hnone. reflexivity. Qed.

(** One step settles the only promise of a sweep. *)
Lemma fetch_run fuel recipient invoices lastTrxRead callback st :
  fetchInvoicesRealHistory incoming (S fuel) recipient invoices lastTrxRead
    callback st
  = match fetchInvoicesRealHistory_call recipient invoices lastTrxRead
            callback st with
    | (sc, Ok (Some p)) => (fst (settle incoming p sc), Ok true)
    | (sc, Ok None) => (sc, Ok true)
    | (sc, Throw e) => (sc, Throw e)
    end.
Proof.
  unfold fetchInvoicesRealHistory, Eff.bind.
  destruct (fetchInvoicesRealHistory_call recipient invoices lastTrxRead
              callback st) as [sc [[p|]|e]]; [|reflexivity|reflexivity].
  cbn [drain]. unfold Eff.bind.
  destruct (incoming (p_recipient p) (p_lastTrxRead p)) as [page|] eqn:Hpage.
  - destruct (settle_page p page sc Hpage) as (st' & -> & _).
    destruct fuel; reflexivity.
  - rewrite (settle_rejected p sc Hpage). destruct fuel; reflexivity.
Qed.

(** What a sweep does to the invoices and to the history: it hands one
    page to [saveIncomingPaymentsHistory], or it leaves the invoices and
    the seen hashes as they are. *)
Lemma fetch_books fuel recipient invoices lastTrxRead callback st :
  let st' :=
    fst (fetchInvoicesRealHistory incoming (S fuel) recipient invoices
           lastTrxRead callback st) in
  (exists l page,
     invoices = AInvoices l
     /\ l <> []
     /\ snd (initEntries l st) = Ok tt
     /\ incoming recipient lastTrxRead = Some page
     /\ let sc :=
          logged (Request recipient lastTrxRead) (fst (initEntries l st)) in
        heap st' = heap (fst (saveIncomingPaymentsHistory page sc))
        /\ hist st' = hist (fst (saveIncomingPaymentsHistory page sc)))
  \/ (heap st' = heap st
      /\ byHash (hist st') = byHash (hist st)
      /\ forall l, invoices = AInvoices l -> l <> [] ->
           snd (initEntries l st) = Ok tt ->
           incoming recipient lastTrxRead = None).
Proof.
  intros st'. subst st'. rewrite fetch_run.
  pose proof (fetch_call_frame recipient invoices lastTrxRead callback st)
    as Hframe.
  pose proof (fetch_call_pending recipient invoices lastTrxRead callback st)
    as Hpending.
  pose proof (fetch_call_sends recipient) as Hsends.
  destruct (fetchInvoicesRealHistory_call recipient invoices lastTrxRead
              callback st) as [sc [[p|]|e]] eqn:Hcall; simpl in *.
  - destruct (Hpending p eq_refl) as (l & -> & Hl & Hok).
    rewrite (Hsends l lastTrxRead callback st Hl Hok) in Hcall.
    injection Hcall as <- <-. simpl.
    destruct (incoming recipient lastTrxRead) as [page|] eqn:Hpage.
    + left. exists l, page.
      destruct (settle_page
                  {| p_recipient := recipient; p_invoices := AInvoices l;
                     p_lastTrxRead := lastTrxRead; p_callback := callback |}
                  page
                  (logged (Request recipient lastTrxRead)
                     (fst (initEntries l st))) Hpage)
        as (s' & Hs' & Hheap & Hhist).
      rewrite Hs'. simpl. done.
    + right. rewrite settle_rejected by exact Hpage. simpl.
      destruct (initEntries_frame l st) as (Hheap & Hhash & _).
      split; [exact Hheap|]. split; [exact Hhash|]. done.
  - right. destruct Hframe as [Hheap Hhash].
    split; [exact Hheap|]. split; [exact Hhash|].
    intros l -> Hl Hok.
    rewrite (Hsends l lastTrxRead callback st Hl Hok) in Hcall. discriminate.
  - right. destruct Hframe as [Hheap Hhash].
    split; [exact Hheap|]. split; [exact Hhash|].
    intros l -> Hl Hok.
    rewrite (Hsends l lastTrxRead callback st Hl Hok) in Hcall. discriminate.
Qed.

(** *** The requests of a sweep *)

Lemma fetch_call_trace recipient invoices lastTrxRead callback st :
  exists evs,
    trace (fst (fetchInvoicesRealHistory_call recipient invoices lastTrxRead
                  callback st)) = trace st ++ evs
    /\ (evs = [] \/ evs = [CallFalse]
        \/ evs = [Request recipient lastTrxRead]).
Proof.
  assert (Hnil : exists evs : list event,
            trace st = trace st ++ evs
            /\ (evs = [] \/ evs = [CallFalse]
                \/ evs = [Request recipient lastTrxRead])).
  { exists []. split; [symmetry; apply app_nil_r|by left]. }
  assert (Hcb : exists evs,
            trace (fst (Eff.bind (call callback CallFalse)
                          (fun _ => Eff.ret (None : option pending)) st))
            = trace st ++ evs
            /\ (evs = [] \/ evs = [CallFalse]
                \/ evs = [Request recipient lastTrxRead])).
  { destruct callback; try exact Hnil.
    exists [CallFalse]. split; [reflexivity|by right; left]. }
  unfold fetchInvoicesRealHistory_call.
  destruct invoices as [| | | | s | l | arity];
    try exact Hnil; try exact Hcb.
  - unfold Eff.bind at 1, Eff.lift, lengthOf.
    destruct (String.length s); [exact Hcb|exact Hnil].
  - unfold Eff.bind at 1, Eff.lift, lengthOf.
    destruct l as [|r rest]; [exact Hcb|].
    change (length (r :: rest)) with (S (length rest)). cbn iota.
    unfold initAccumulators, Eff.bind.
    destruct (initEntries_frame (r :: rest) st) as (_ & _ & Htrace).
    destruct (initEntries (r :: rest) st) as [s' [[]|e]]; simpl in *.
    + exists [Request recipient lastTrxRead]. rewrite Htrace.
      split; [reflexivity|by right; right].
    + rewrite Htrace. exact Hnil.
  - unfold Eff.bind at 1, Eff.lift, lengthOf.
    destruct arity; [exact Hcb|exact Hnil].
Qed.

Lemma settle_trace p st :
  exists evs,
    trace (fst (settle incoming p st)) = trace st ++ evs
    /\ List.filter isRequest evs = [].
Proof.
  unfold settle.
  destruct (incoming (p_recipient p) (p_lastTrxRead p)) as [page|].
  2:{ exists [LogError]. split; reflexivity. }
  unfold catch, onFulfilled, Eff.bind at 1.
  pose proof (save_result page st) as Hres.
  destruct (save_frame page st) as (Htrace & _).
  destruct (saveIncomingPaymentsHistory page st) as [s1 [l|e]]; simpl in *.
  2:{ exists [LogError]. rewrite Htrace. split; reflexivity. }
  specialize (Hres l eq_refl).
  unfold Eff.bind at 1.
  destruct (negb (isFalse l) && (length page =? 25)%nat) eqn:Hrec.
  - assert (Hl : l = ANull \/ exists i, l = idArg i).
    { destruct Hres as [->|Hres]; [discriminate|exact Hres]. }
    rewrite (recursive_call_throws (p_invoices p) l (p_callback p) s1 Hl).
    exists [LogError]. simpl. rewrite Htrace. split; reflexivity.
  - unfold Eff.ret at 1.
    destruct (truthy_arg (p_callback p)
              && (isFalse l || (length page <? 25)%nat)).
    + unfold Eff.bind, Eff.get.
      destruct (p_callback p); simpl; rewrite Htrace;
        first [exists [LogError]; split; reflexivity
              |eexists [_]; split; reflexivity].
    + exists []. simpl. rewrite Htrace, app_nil_r. split; reflexivity.
Qed.

(** A sweep sends at most one request, the one for the address and the
    cursor it was called with: no later page is ever requested. *)
Lemma sweep_requests_once fuel recipient invoices lastTrxRead callback st :
  exists evs,
    trace (fst (fetchInvoicesRealHistory incoming (S fuel) recipient invoices
                  lastTrxRead callback st)) = trace st ++ evs
    /\ (List.filter isRequest evs = []
        \/ List.filter isRequest evs = [Request recipient lastTrxRead]).
Proof.
  rewrite fetch_run.
  destruct (fetch_call_trace recipient invoices lastTrxRead callback st)
    as (evs & Htrace & Hevs).
  assert (Hfilter : List.filter isRequest evs = []
                    \/ List.filter isRequest evs
                       = [Request recipient lastTrxRead]).
  { destruct Hevs as [->|[->| ->]]; simpl; auto. }
  destruct (fetchInvoicesRealHistory_call recipient invoices lastTrxRead
              callback st) as [sc [[p|]|e]]; simpl in *.
  - destruct (settle_trace p sc) as (evs' & Htrace' & Hnone).
    exists (evs ++ evs'). rewrite Htrace', Htrace, app_assoc.
    split; [reflexivity|]. rewrite List.filter_app, Hnone, app_nil_r.
    exact Hfilter.
  - exists evs. split; assumption.
  - exists evs. split; assumption.
Qed.

(** C3. A sweep that is run a second time, with the same arguments
    and with the gateway answering as before, leaves every invoice as
    the first run left it: [amountPaid], [isPaid], [status] and all
    other fields. Both runs come to their end within one step of the
    event loop. The transactions that the gateway answers have ordinary
    hashes, neither [__proto__] nor [hasOwnProperty], and none of the
    latter name was marked before: on these the object [byHash] is the
    set of the hashes that were marked. *)
Theorem sweep_idempotent fuel1 fuel2 recipient invoices lastTrxRead
    callback st :
  Domain.unpoisoned (hist st) ->
  (forall page, incoming recipient lastTrxRead = Some page ->
     forallb Domain.ordinaryHash page = true) ->
  let first :=
    fetchInvoicesRealHistory incoming (S fuel1) recipient invoices
      lastTrxRead callback st in
  let second :=
    fetchInvoicesRealHistory incoming (S fuel2) recipient invoices
      lastTrxRead callback (fst first) in
  heap (fst second) = heap (fst first)
  /\ snd first <> Ok false
  /\ snd second <> Ok false.
Proof.
  intros _ _ first second. split.
  2:{ subst first second. rewrite !fetch_run. split.
      - destruct (fetchInvoicesRealHistory_call _ _ _ _ st)
          as [sc [[p|]|e]]; discriminate.
      - destruct (fetchInvoicesRealHistory_call _ _ _ _ (fst _))
          as [sc [[p|]|e]]; discriminate. }
  pose proof (fetch_books fuel1 recipient invoices lastTrxRead callback st)
    as H1.
  pose proof (fetch_books fuel2 recipient invoices lastTrxRead callback
                (fst first)) as H2.
  fold first in H1. fold second in H2. cbn zeta in H1, H2.
  set (s1 := fst first) in *.
  destruct H2 as [(l & page & -> & Hl & Hok2 & Hpage & Hheap2 & _)
                 |(Hheap2 & _)]; [|exact Hheap2].
  rewrite Hheap2.
  destruct H1 as [(l' & page' & Hinv & _ & Hok1 & Hpage' & Hheap1 & Hhist1)
                 |(Hheap1 & _ & Hnone)].
  2:{ (* the first run sent no page: the second one cannot either *)
      exfalso.
      assert (Hok1 : snd (initEntries l st) = Ok tt).
      { rewrite <- Hok2. apply initEntries_outcome.
        intros r. rewrite Hheap1. reflexivity. }
      rewrite (Hnone l eq_refl Hl Hok1) in Hpage. discriminate. }
  injection Hinv as <-. rewrite Hpage in Hpage'. injection Hpage' as <-.
  set (sc := logged (Request recipient lastTrxRead) (fst (initEntries l st)))
    in *.
  set (s1c := logged (Request recipient lastTrxRead)
                (fst (initEntries l s1))).
  assert (Hs1c_heap : heap s1c = heap s1)
    by (unfold s1c; simpl; apply initEntries_frame).
  assert (Hs1c_hash : byHash (hist s1c) = byHash (hist s1))
    by (unfold s1c; simpl; apply initEntries_frame).
  destruct page as [|t rest].
  - (* an empty page: both runs write the totals back *)
    rewrite save_empty_page in Hheap1, Hhist1. simpl in Hheap1, Hhist1.
    assert (Hsame : initEntries l s1 = (s1, Ok tt)).
    { apply initEntries_nothing_new. intros r Hr.
      destruct (initEntries_allocated l st r Hok1 Hr) as [inv0 Hinv0].
      exists (applyTotals
                (totalsFor r (byInvoice (hist (fst (initEntries l st)))))
                inv0).
      split.
      - rewrite Hheap1, writeBackAll_lookup.
        destruct (initEntries_frame l st) as (-> & _). rewrite Hinv0.
        reflexivity.
      - rewrite Hhist1, applyTotals_number.
        exact (initEntries_keys l st r inv0 Hok1 Hr Hinv0). }
    rewrite save_empty_page. simpl. rewrite Hsame. simpl.
    rewrite Hhist1, Hheap1. apply writeBackAll_twice.
  - destruct (readTransaction t) as [[[h m] a]|e] eqn:Hread.
    + (* the first record was seen by the first run *)
      assert (Hseen : keyOf h ∈ byHash (hist s1c)).
      { rewrite Hs1c_hash, Hhist1. apply (save_marks t rest sc h m a Hread). }
      rewrite (save_seen t rest s1c h m a Hread Hseen). exact Hs1c_heap.
    + rewrite (save_unreadable t rest s1c e Hread). exact Hs1c_heap.
Qed.

(** *** A second run after the history was lost *)

(** The first loop of a pass reads and writes the history only. *)
Lemma scan_history txs last st st' :
  hist st = hist st' ->
  hist (fst (scan txs last st)) = hist (fst (scan txs last st'))
  /\ snd (scan txs last st) = snd (scan txs last st').
Proof.
  revert last st st'. induction txs as [|t rest IH]; intros last st st' Heq.
  - simpl. split; [exact Heq|reflexivity].
  - rewrite !scan_cons.
    destruct (readTransaction t) as [[[h m] a]|e];
      [|split; [exact Heq|reflexivity]].
    rewrite <- Heq.
    destruct (bool_decide (keyOf h ∈ byHash (hist st)));
      [split; [exact Heq|reflexivity]|].
    cbn zeta.
    destruct (negb (bool_decide (type (transaction t) = transfer))
              && negb (bool_decide (type (transaction t) = multisigTransaction)));
      [|destruct (negb (hasOwnProperty _ _))];
      apply IH; reflexivity.
Qed.

Lemma initEntries_history l st st' :
  hist st = hist st' ->
  (forall r, Inv.number <$> heap st !! r = Inv.number <$> heap st' !! r) ->
  hist (fst (initEntries l st)) = hist (fst (initEntries l st')).
Proof.
  revert st st'. induction l as [|r rest IH]; intros st st' Heq Hnum;
    [exact Heq|].
  cbn [initEntries]. unfold Eff.bind, Eff.get, Eff.lift.
  pose proof (Hnum r) as Hr.
  destruct (heap st !! r) as [inv|], (heap st' !! r) as [inv'|];
    simpl in *; try discriminate; [|exact Heq].
  injection Hr as Hr. rewrite <- Heq, <- Hr.
  destruct (hasOwnProperty (byInvoice (hist st))
              (toUpperCase (Inv.number inv))); simpl.
  - apply IH; assumption.
  - unfold setHistory, Eff.modify. simpl. apply IH; [reflexivity|exact Hnum].
Qed.

(** The sweep is also idempotent when the second run starts from the
    history the first run started from, such as the empty history of a new
    process, with the invoices as the first run left them. *)
Lemma restarted_sweep_idempotent fuel1 fuel2 recipient invoices
    lastTrxRead callback st :
  let first :=
    fetchInvoicesRealHistory incoming (S fuel1) recipient invoices
      lastTrxRead callback st in
  let second :=
    fetchInvoicesRealHistory incoming (S fuel2) recipient invoices
      lastTrxRead callback (withHeap (heap (fst first)) st) in
  heap (fst second) = heap (fst first).
Proof.
  intros first second.
  pose proof (fetch_books fuel1 recipient invoices lastTrxRead callback st)
    as H1.
  pose proof (fetch_books fuel2 recipient invoices lastTrxRead callback
                (withHeap (heap (fst first)) st)) as H2.
  fold first in H1. fold second in H2. cbn zeta in H1, H2.
  set (h1 := heap (fst first)) in *.
  destruct H2 as [(l & page & -> & Hl & Hok2 & Hpage & Hheap2 & _)
                 |(Hheap2 & _)]; [|exact Hheap2].
  rewrite Hheap2.
  destruct H1 as [(l' & page' & Hinv & _ & Hok1 & Hpage' & Hheap1 & _)
                 |(Hheap1 & _ & Hnone)].
  2:{ exfalso.
      assert (Hok1 : snd (initEntries l st) = Ok tt).
      { rewrite <- Hok2. apply initEntries_outcome.
        intros r. simpl. rewrite Hheap1. reflexivity. }
      rewrite (Hnone l eq_refl Hl Hok1) in Hpage. discriminate. }
  injection Hinv as <-. rewrite Hpage in Hpage'. injection Hpage' as <-.
  set (sc1 := logged (Request recipient lastTrxRead) (fst (initEntries l st)))
    in *.
  set (sc2 := logged (Request recipient lastTrxRead)
                (fst (initEntries l (withHeap h1 st)))).
  assert (Hsc1 : heap sc1 = heap st)
    by (unfold sc1; simpl; apply initEntries_frame).
  assert (Hsc2 : heap sc2 = h1)
    by (unfold sc2; simpl; apply (initEntries_frame l (withHeap h1 st))).
  rewrite save_run in Hheap1. rewrite save_run.
  destruct (scan_frame page ANull sc1) as (Hscan1 & _ & _).
  destruct (scan_frame page ANull sc2) as (Hscan2 & _ & _).
  assert (Hnum : forall r, Inv.number <$> heap st !! r = Inv.number <$> h1 !! r).
  { intros r. rewrite Hheap1.
    destruct (scan page ANull sc1) as [sa [[last|]|e]]; simpl in *;
      rewrite ?writeBackAll_lookup, Hscan1, Hsc1; [|reflexivity|reflexivity].
    destruct (heap st !! r) as [inv|]; simpl; [|reflexivity].
    rewrite applyTotals_number. reflexivity. }
  assert (Hhist : hist sc1 = hist sc2).
  { unfold sc1, sc2. simpl. apply initEntries_history; [reflexivity|].
    exact Hnum. }
  destruct (scan_history page ANull sc1 sc2 Hhist) as (Hh & Hr).
  destruct (scan page ANull sc1) as [sa [[last|]|e]],
           (scan page ANull sc2) as [sb [[last'|]|e']];
    simpl in *; try discriminate.
  - rewrite <- Hh, Hscan2, Hsc2, Hheap1. apply writeBackAll_twice.
  - rewrite Hscan2, Hsc2. reflexivity.
  - rewrite Hscan2, Hsc2. reflexivity.
Qed.

End Sweep.

(** A sweep over a page with two payments for [INV-1] pays the invoice;
    the same sweep again stops at the first record and changes nothing. *)
Example sweep_twice :
  let sweep st :=
    @Reconciliation.fetchInvoicesRealHistory Demo.floats Demo.chain
      (Demo.always [Demo.payment "b" 2 600000; Demo.payment "a" 1 400000]) 1
      (Reconciliation.AString "TRECIPIENT") (Reconciliation.AInvoices [0%nat])
      Reconciliation.ANull (Reconciliation.AFunction 1) st in
  let first := sweep Demo.start in
  let second := sweep (fst first) in
  (exists i, Reconciliation.heap (fst first) !! 0%nat = Some i
             /\ Inv.amountPaid i = JNum 1000000
             /\ Inv.isPaid i = true
             /\ Inv.status i = Some "paid")
  /\ Reconciliation.heap (fst second) = Reconciliation.heap (fst first)
  /\ snd first = Ok true
  /\ snd second = Ok true.
Proof.
  split; [eexists; split; [vm_compute; reflexivity|repeat split]|].
  split; [vm_compute; reflexivity|]. split; vm_compute; reflexivity.
Qed.

(** C3, an instance: two payments for [INV-1], swept twice. *)
Lemma sweep_idempotent_witness :
  let sweep st :=
    @Reconciliation.fetchInvoicesRealHistory Demo.floats Demo.chain
      (Demo.always [Demo.payment "b" 2 600000; Demo.payment "a" 1 400000]) 1
      (Reconciliation.AString "TRECIPIENT") (Reconciliation.AInvoices [0%nat])
      Reconciliation.ANull (Reconciliation.AFunction 1) st in
  Reconciliation.heap (fst (sweep (fst (sweep Demo.start))))
  = Reconciliation.heap (fst (sweep Demo.start))
  /\ (Inv.amountPaid <$> Reconciliation.heap (fst (sweep Demo.start)) !! 0%nat)
     = Some (JNum 1000000).
Proof.
  intros sweep.
  destruct (@sweep_idempotent Demo.floats Demo.chain
              (Demo.always [Demo.payment "b" 2 600000;
                            Demo.payment "a" 1 400000])
              0 0 (Reconciliation.AString "TRECIPIENT")
              (Reconciliation.AInvoices [0%nat]) Reconciliation.ANull
              (Reconciliation.AFunction 1) Demo.start)
    as (Hheap & _ & _).
  - apply not_elem_of_empty.
  - intros page [= <-]. reflexivity.
  - split; [exact Hheap|]. vm_compute. reflexivity.
Defined.

Section CompletedPass.
Context `{FloatOps} `{ChainLib}.
Import Reconciliation.

(** A pass that reads its whole page writes the total of every
    accumulator to the invoice of the accumulator, when no two
    accumulators hold the same invoice. *)
Lemma totalsFor_none r (entries : list (string * entryT)) :
  (forall k e, (k, e) ∈ entries -> invoice e <> r) ->
  totalsFor r entries = [].
Proof.
  induction entries as [|[k e] rest IH]; intros Hall; [reflexivity|].
  simpl. rewrite bool_decide_eq_false_2.
  - apply IH. intros k' e' Hin. apply (Hall k'). apply elem_of_cons. by right.
  - apply (Hall k). apply elem_of_cons. by left.
Qed.

Lemma totalsFor_only r k e (entries : list (string * entryT)) :
  NoDup (List.map (fun ke => invoice (snd ke)) entries) ->
  (k, e) ∈ entries ->
  invoice e = r ->
  totalsFor r entries = [totalPaid e].
Proof.
  induction entries as [|[k' e'] rest IH]; intros Hnd Hin Hr.
  - inversion Hin.
  - simpl in Hnd. apply NoDup_cons in Hnd. destruct Hnd as [Hnotin Hnd].
    assert (Hrest : forall k0 e0, (k0, e0) ∈ rest ->
              invoice e0 <> invoice e').
    { intros k0 e0 Hin0 Heq. apply Hnotin.
      apply list_elem_of_fmap. exists (k0, e0). split; [by simpl|done]. }
    apply elem_of_cons in Hin. simpl. destruct Hin as [Heq|Hin].
    + injection Heq as <- <-. rewrite bool_decide_eq_true_2 by exact Hr.
      f_equal. apply totalsFor_none. intros k0 e0 Hin0. rewrite <- Hr.
      exact (Hrest k0 e0 Hin0).
    + rewrite bool_decide_eq_false_2.
      * apply IH; assumption.
      * intros Heq. apply (Hrest k e Hin). congruence.
Qed.

Lemma completed_pass_writes_back txs st st' last k e i :
  saveIncomingPaymentsHistory txs st = (st', Ok last) ->
  last <> AFalse ->
  NoDup (List.map (fun ke => invoice (snd ke))
           (byInvoice (paymentTransactionHistory_ st'))) ->
  (k, e) ∈ byInvoice (paymentTransactionHistory_ st') ->
  heap st !! invoice e = Some i ->
  heap st' !! invoice e = Some (writeBack (totalPaid e) i).
Proof.
  rewrite save_run. intros Hrun Hlast Hnd Hin Hi.
  destruct (scan_frame txs ANull st) as (Hheap & _ & _).
  destruct (scan txs ANull st) as [s [[l|]|err]];
    simpl in *; inversion Hrun; subst; [|congruence].
  simpl in *. rewrite writeBackAll_lookup, Hheap, Hi. simpl.
  rewrite (totalsFor_only (invoice e) k e _ Hnd Hin eq_refl). reflexivity.
Qed.

End CompletedPass.

(** The scenarios of the specification on passes that read their whole
    page: 400,000 and 600,000 units on two pages pay an invoice of
    1,000,000 units, and 1,200,000 units overpay it. *)
Example two_pages_pay_in_full :
  let pass page st :=
    fst (@Reconciliation.saveIncomingPaymentsHistory Demo.floats Demo.chain
           page st) in
  let st0 := fst (Reconciliation.initEntries [0%nat] Demo.start) in
  let st2 :=
    pass [Demo.payment "b" 1 600000] (pass [Demo.payment "a" 2 400000] st0) in
  let st3 := pass [Demo.payment "c" 3 1200000] st0 in
  (exists i, Reconciliation.heap st2 !! 0%nat = Some i
             /\ Inv.amountPaid i = JNum 1000000
             /\ Inv.isPaid i = true
             /\ Inv.status i = Some "paid")
  /\ (exists i, Reconciliation.heap st3 !! 0%nat = Some i
                /\ Inv.amountPaid i = JNum 1200000
                /\ Inv.isPaid i = true
                /\ Inv.status i = Some "overpaid").
Proof. split; eexists; (split; [vm_compute; reflexivity|]); repeat split. Qed.

(** C1. A first pass reads a payment of 400,000 units for the invoice
    [INV-1] of 1,000,000 units. A payment of 600,000 units arrives, and
    the next pass reads a page that holds the new payment followed by the
    old one. The pass adds the new payment to the accumulator, meets the
    hash it has seen and returns [false] before the loop that writes the
    totals back: the accumulator holds both payments and 1,000,000 units,
    the invoice keeps 400,000 units paid and is neither flagged nor marked
    as paid. *)
Theorem aborted_pass_skips_write_back :
  let pass page st :=
    @Reconciliation.saveIncomingPaymentsHistory Demo.floats Demo.chain
      page st in
  let old := Demo.payment "old" 1 400000 in
  let new := Demo.payment "new" 2 600000 in
  let st0 := fst (Reconciliation.initEntries [0%nat] Demo.start) in
  let first := pass [old] st0 in
  let second := pass [new; old] (fst first) in
  let entry st :=
    Reconciliation.lookupEntry "INV-1"
      (Reconciliation.byInvoice (Reconciliation.paymentTransactionHistory_ st)) in
  snd first = Ok (Reconciliation.ANumber 1)
  /\ (Inv.amountPaid <$> Reconciliation.heap (fst first) !! 0%nat)
     = Some (JNum 400000)
  /\ snd second = Ok Reconciliation.AFalse
  /\ entry (fst second)
     = Some {| Reconciliation.transactions := [old; new];
               Reconciliation.totalPaid := JNum 1000000;
               Reconciliation.invoice := 0%nat |}
  /\ (exists i,
        Reconciliation.heap (fst second) !! 0%nat = Some i
        /\ Inv.amount i = 1000000
        /\ Inv.amountPaid i = JNum 400000
        /\ Inv.isPaid i = false
        /\ Inv.status i = Some "not_paid").
Proof.
  split; [vm_compute; reflexivity|]. split; [vm_compute; reflexivity|].
  split; [vm_compute; reflexivity|]. split; [vm_compute; reflexivity|].
  eexists. split; [vm_compute; reflexivity|]. repeat split.
Qed.

(** C4. The gateway answers the first request of a sweep for the address
    [TRECIPIENT] with a full page of 25 new records. The second page is
    never requested: the recursive call passes the array of invoices where
    the address is expected and the id where the array is expected, and
    raises a [TypeError] before it reaches the gateway. The sweep ends
    with one request and an error in the log, and never calls back. *)
Theorem recursive_call_drops_recipient :
  let run :=
    @Reconciliation.fetchInvoicesRealHistory Demo.floats Demo.chain
      (Demo.always Demo.fullPage) 5 (Reconciliation.AString "TRECIPIENT")
      (Reconciliation.AInvoices [0%nat]) Reconciliation.ANull
      (Reconciliation.AFunction 1) Demo.start in
  length Demo.fullPage = 25%nat
  /\ @Reconciliation.saveIncomingPaymentsHistory Demo.floats Demo.chain
       Demo.fullPage (fst (Reconciliation.initEntries [0%nat] Demo.start))
     = (fst (@Reconciliation.saveIncomingPaymentsHistory Demo.floats
               Demo.chain Demo.fullPage
               (fst (Reconciliation.initEntries [0%nat] Demo.start))),
        Ok (Reconciliation.ANumber 76))
  /\ snd (Reconciliation.fetchInvoicesRealHistory_call
            (Reconciliation.AInvoices [0%nat]) (Reconciliation.ANumber 76)
            (Reconciliation.AFunction 1) Reconciliation.AUndefined Demo.start)
     = Throw TypeError
  /\ Reconciliation.trace (fst run)
     = [Reconciliation.Request (Reconciliation.AString "TRECIPIENT")
          Reconciliation.ANull;
        Reconciliation.LogError]
  /\ snd run = Ok true.
Proof.
  split; [reflexivity|]. split; [vm_compute; reflexivity|].
  split; [reflexivity|]. split; vm_compute; reflexivity.
Qed.

(** * Further properties *)

(** ** Slugs of mosaics *)

Section Slugs.
Import Blockchain.

Lemma before_last_colon_none s :
  has_colon s = false -> before_last_colon s = None.
Proof.
  induction s as [|c r IH]; simpl; [reflexivity|].
  intros Hc. apply orb_false_iff in Hc. destruct Hc as [Hc Hr].
  rewrite (IH Hr), Hc. reflexivity.
Qed.

Lemma before_last_colon_split ns name :
  name <> "" -> has_colon name = false ->
  before_last_colon (ns ++ ":" ++ name)%string = Some ns.
Proof.
  intros Hne Hfree. induction ns as [|c r IH].
  - change (before_last_colon (String ":" name) = Some "").
    cbn [before_last_colon].
    rewrite (before_last_colon_none name Hfree), Hfree.
    rewrite bool_decide_eq_false_2 by exact Hne. reflexivity.
  - change (before_last_colon (String c (r ++ ":" ++ name)%string)
            = Some (String c r)).
    cbn [before_last_colon]. rewrite IH. reflexivity.
Qed.

Lemma after_colon_split r name :
  has_colon r = false -> after_colon (r ++ ":" ++ name)%string = Some name.
Proof.
  induction r as [|c r IH]; [reflexivity|].
  cbn [has_colon]. intros Hc. apply orb_false_iff in Hc.
  destruct Hc as [Hc Hr].
  change (after_colon (String c (r ++ ":" ++ name)%string) = Some name).
  cbn [after_colon]. rewrite Hc. exact (IH Hr).
Qed.

Lemma strip_name_split ns name :
  name <> "" -> has_colon name = false ->
  strip_name (ns ++ ":" ++ name)%string = ns.
Proof.
  intros Hname Hfname. unfold strip_name.
  rewrite before_last_colon_split by assumption. reflexivity.
Qed.

Lemma strip_namespace_split ns name :
  ns <> "" -> has_colon ns = false ->
  strip_namespace (ns ++ ":" ++ name)%string = name.
Proof.
  intros Hns Hfns. destruct ns as [|c r]; [done|].
  cbn [has_colon] in Hfns. apply orb_false_iff in Hfns.
  destruct Hfns as [Hc Hr].
  change (strip_namespace (String c (r ++ ":" ++ name)%string) = name).
  cbn [strip_namespace]. rewrite Hc, (after_colon_split r name Hr).
  reflexivity.
Qed.

(** X1. A slug [namespace:name] whose two parts are not empty and hold no
    colon is split back into its parts by the two replacements of the
    amount decoder. *)
Theorem slug_split ns name :
  ns <> "" -> name <> "" ->
  has_colon ns = false -> has_colon name = false ->
  strip_name (ns ++ ":" ++ name)%string = ns
  /\ strip_namespace (ns ++ ":" ++ name)%string = name.
Proof.
  intros Hns Hname Hfns Hfname. split.
  - exact (strip_name_split ns name Hname Hfname).
  - exact (strip_namespace_split ns name Hns Hfns).
Qed.

Lemma slug_injective a b a' b' :
  has_colon a = false -> has_colon a' = false ->
  (a ++ ":" ++ b)%string = (a' ++ ":" ++ b')%string ->
  a = a' /\ b = b'.
Proof.
  revert a'. induction a as [|c r IH]; intros [|c' r'] Ha Ha' Heq;
    cbv [String.append] in Heq; fold String.append in Heq;
    cbn [has_colon] in *.
  - injection Heq as ->. done.
  - injection Heq as <- Heq. apply orb_false_iff in Ha'.
    destruct Ha' as [Hc _]. unfold is_colon in Hc.
    rewrite bool_decide_eq_true_2 in Hc by reflexivity. discriminate.
  - injection Heq as -> Heq. apply orb_false_iff in Ha.
    destruct Ha as [Hc _]. unfold is_colon in Hc.
    rewrite bool_decide_eq_true_2 in Hc by reflexivity. discriminate.
  - injection Heq as -> Heq.
    apply orb_false_iff in Ha. apply orb_false_iff in Ha'.
    destruct (IH r' (proj2 Ha) (proj2 Ha') Heq) as [-> ->]. done.
Qed.

End Slugs.

(** X1, an instance: the slug of the heart mosaic. *)
Lemma slug_split_witness :
  Blockchain.strip_name ("evias.pacnem" ++ ":" ++ "heart")%string
  = "evias.pacnem"
  /\ Blockchain.strip_namespace ("evias.pacnem" ++ ":" ++ "heart")%string
     = "heart".
Proof.
  apply (slug_split "evias.pacnem" "heart");
    [discriminate|discriminate|reflexivity|reflexivity].
Defined.

(** ** The two decoders of mosaics *)

Section Decoders.
Context `{FloatOps} `{ChainLib}.
Import Blockchain.

Lemma scanMosaics_find ms slug rcp amt d :
  scanMosaics ms slug rcp amt d
  = match List.find (fun m => bool_decide (slug = slugOf m)) ms with
    | Some e => ExObject (mosMultiply amt d * quantity e) (RecField rcp)
    | None => ExObject 0 RecFalse
    end.
Proof.
  induction ms as [|m ms IH]; simpl; [reflexivity|].
  destruct (bool_decide (slug = slugOf m)); simpl; [reflexivity|exact IH].
Qed.

Lemma find_same_entries ns name ms :
  ns <> "" -> name <> "" ->
  has_colon ns = false -> has_colon name = false ->
  Forall (fun m => has_colon (namespaceId (mosaicId m)) = false) ms ->
  List.find (isLookupMosaic (strip_name (ns ++ ":" ++ name)%string)
               (strip_namespace (ns ++ ":" ++ name)%string)) ms
  = List.find (fun m => bool_decide ((ns ++ ":" ++ name)%string = slugOf m)) ms.
Proof.
  intros Hns Hname Hfns Hfname Hwf.
  rewrite (strip_name_split ns name Hname Hfname).
  rewrite (strip_namespace_split ns name Hns Hfns).
  induction Hwf as [|m ms Hm _ IH]; simpl; [reflexivity|].
  assert (Hsame : isLookupMosaic ns name m
                  = bool_decide ((ns ++ ":" ++ name)%string = slugOf m)).
  { unfold isLookupMosaic, slugOf.
    destruct (bool_decide ((ns ++ ":" ++ name)%string = _)) eqn:Hslug.
    - apply bool_decide_eq_true_1 in Hslug.
      destruct (slug_injective _ _ _ _ Hfns Hm Hslug) as [<- <-].
      rewrite !bool_decide_eq_true_2 by reflexivity. reflexivity.
    - apply bool_decide_eq_false_1 in Hslug.
      apply andb_false_iff.
      destruct (bool_decide (namespaceId (mosaicId m) = ns)) eqn:Hn;
        [|by left].
      right. apply bool_decide_eq_true_1 in Hn.
      apply bool_decide_eq_false_2. intros Hname'. apply Hslug.
      rewrite Hn, Hname'. reflexivity. }
  rewrite Hsame. destruct (bool_decide _); [reflexivity|exact IH].
Qed.

(** X2. On a transfer with attached mosaics whose namespaces hold no
    colon, and for a slug [namespace:name] with two non-empty parts
    without colon, the amount decoder and the mosaic extractor pick the
    same entry: either both find the first entry with that slug, or the
    amount is 0 and the extractor returns its not-found object. The
    divisibility given to the amount decoder is at most 100, the range
    of [toFixed]; the one given to the extractor is at most 6, and the
    amount, the quantities and the products of the extractor are
    integers that the runtime holds exactly, so that the quotient and
    the product of the extractor are not rounded. *)
Theorem decoders_pick_same_entry p real ns name d d' m ms :
  ns <> "" -> name <> "" ->
  has_colon ns = false -> has_colon name = false ->
  realData (transaction p) = Ok real ->
  mosaics real = Some (m :: ms) ->
  Forall (fun m => has_colon (namespaceId (mosaicId m)) = false) (m :: ms) ->
  (d <= 100)%nat ->
  (d' <= 6)%nat ->
  (forall a, amount real = Some a -> Domain.isSafeInteger a = true) ->
  forallb (fun e =>
             Domain.isSafeInteger (quantity e)
             && Domain.isSafeInteger
                  (mosMultiply (amount real) d' * quantity e))
    (m :: ms) = true ->
  let slug := (ns ++ ":" ++ name)%string in
  (exists e,
     List.find (fun m => bool_decide (slug = slugOf m)) (m :: ms) = Some e
     /\ getTransactionAmount p slug d
        = Ok (JStr (scaled_toFixed (amount real) d (quantity e)))
     /\ extractMosaicFromTransactionData_ (Some (transaction p)) (Some slug) d'
        = ExObject (mosMultiply (amount real) d' * quantity e)
            (RecField (recipient real)))
  \/ (List.find (fun m => bool_decide (slug = slugOf m)) (m :: ms) = None
      /\ getTransactionAmount p slug d = Ok (JNum 0)
      /\ extractMosaicFromTransactionData_ (Some (transaction p)) (Some slug) d'
         = ExObject 0 RecFalse).
Proof.
  intros Hns Hname Hfns Hfname Hreal Hms Hwf _ _ _ _ slug.
  assert (Hslug : slug <> "").
  { unfold slug. destruct ns; [done|discriminate]. }
  pose proof (extractMosaic_scans (transaction p) real slug d' m ms
                Hreal Hms Hslug) as Hex.
  rewrite scanMosaics_find in Hex.
  assert (Hamt : getTransactionAmount p slug d
                 = match List.find (fun m => bool_decide (slug = slugOf m))
                           (m :: ms) with
                   | Some e =>
                       Ok (JStr (scaled_toFixed (amount real) d (quantity e)))
                   | None => Ok (JNum 0)
                   end).
  { unfold getTransactionAmount. rewrite Hreal. cbn [JS.bind]. rewrite Hms.
    cbn [default from_option id Datatypes.id]. unfold slug.
    rewrite (find_same_entries ns name (m :: ms) Hns Hname Hfns Hfname Hwf).
    reflexivity. }
  destruct (List.find (fun m => bool_decide (slug = slugOf m)) (m :: ms))
    as [e|].
  - left. exists e. done.
  - right. done.
Qed.

(** X3. A multisig envelope is read through its inner transaction: the
    message and the amount of the envelope are those of a plain transfer
    with the fields of the inner transaction, and so is the result of the
    mosaic extractor unless the inner list of mosaics is empty. *)
Theorem multisig_unwrap p q inner doDecrypt slug d slug' :
  type (transaction p) = multisigTransaction ->
  otherTrans (transaction p) = Some inner ->
  type (transaction q) <> multisigTransaction ->
  self (transaction q) = inner ->
  getTransactionMessage p doDecrypt = getTransactionMessage q doDecrypt
  /\ getTransactionAmount p slug d = getTransactionAmount q slug d
  /\ (mosaics inner <> Some [] ->
      extractMosaicFromTransactionData_ (Some (transaction p)) slug' d
      = extractMosaicFromTransactionData_ (Some (transaction q)) slug' d).
Proof.
  intros Hp Hinner Hq Hself.
  assert (Hrp : realData (transaction p) = Ok inner).
  { unfold realData. rewrite bool_decide_eq_true_2 by exact Hp.
    rewrite Hinner. reflexivity. }
  assert (Hrq : realData (transaction q) = Ok inner).
  { unfold realData. rewrite bool_decide_eq_false_2 by exact Hq.
    rewrite Hself. reflexivity. }
  split; [|split].
  - unfold getTransactionMessage. rewrite Hrp, Hrq. reflexivity.
  - unfold getTransactionAmount. rewrite Hrp, Hrq. reflexivity.
  - intros Hne. unfold extractMosaicFromTransactionData_.
    destruct slug' as [s|]; [|reflexivity].
    destruct (bool_decide (s = "")); [reflexivity|].
    rewrite (bool_decide_eq_true_2 _ Hp), (bool_decide_eq_false_2 _ Hq).
    rewrite Hinner, Hself.
    destruct (mosaics inner) as [[|m ms]|]; [done|reflexivity|reflexivity].
Qed.


End Decoders.

(** X2, an instance: 5 hearts attached after one xem, with the amount
    field 2,000,000. *)
Lemma decoders_pick_same_entry_witness :
  let p :=
    Demo.record "h" 1
      (Demo.plainTransfer 2000000 None (Some [Demo.xem 1; Demo.heart 5])) in
  @Blockchain.getTransactionAmount Samples.decimals Demo.chain p "ns:heart" 6
  = Ok (JStr "10.000000")
  /\ @Blockchain.extractMosaicFromTransactionData_ Demo.chain
       (Some (transaction p)) (Some "ns:heart") 6
     = Blockchain.ExObject 10 (Blockchain.RecField (Some "TRECIPIENT")).
Proof.
  intros p.
  destruct (@decoders_pick_same_entry Samples.decimals Demo.chain p
              (self (transaction p)) "ns" "heart" 6 6
              (Demo.xem 1) [Demo.heart 5])
    as [(e & Hfind & Hamt & Hex)|(Hnone & _)].
  - discriminate.
  - discriminate.
  - reflexivity.
  - reflexivity.
  - reflexivity.
  - reflexivity.
  - repeat constructor.
  - lia.
  - lia.
  - intros a [= <-]. reflexivity.
  - reflexivity.
  - vm_compute in Hfind. injection Hfind as <-. split; [exact Hamt|exact Hex].
  - vm_compute in Hnone. discriminate.
Defined.

(** X3, an instance: an envelope around a transfer of 5 units. *)
Lemma multisig_unwrap_witness :
  let q :=
    Demo.record "outer" 9
      {| type := 257;
         self := {| amount := Some 5; recipient := None; message := None;
                    mosaics := None |};
         otherTrans := None |} in
  @Blockchain.getTransactionMessage Demo.chain Demo.cosigned false
  = @Blockchain.getTransactionMessage Demo.chain q false
  /\ @Blockchain.getTransactionAmount Demo.floats Demo.chain Demo.cosigned
       "nem:xem" 6 = Ok (JNum 5).
Proof.
  intros q.
  destruct (@multisig_unwrap Demo.floats Demo.chain Demo.cosigned q
              {| amount := Some 5; recipient := None; message := None;
                 mosaics := None |} false "nem:xem" 6 (Some "nem:xem"))
    as (Hmsg & Hamt & _).
  - reflexivity.
  - reflexivity.
  - discriminate.
  - reflexivity.
  - split; [exact Hmsg|]. rewrite Hamt. reflexivity.
Defined.


(** ** What the pass reads from a record *)

Section Readable.
Context `{FloatOps} `{ChainLib}.
Import Reconciliation.

Lemma realData_defined c :
  (type c = multisigTransaction -> otherTrans c <> None) <->
  exists real, Blockchain.realData c = Ok real.
Proof.
  unfold Blockchain.realData.
  destruct (bool_decide (type c = multisigTransaction)) eqn:Hty.
  - apply bool_decide_eq_true_1 in Hty.
    destruct (otherTrans c) as [o|]; simpl.
    + split; [intros _; by exists o|done].
    + split; [intros Hno; by destruct (Hno Hty)|intros [real [=]]].
  - apply bool_decide_eq_false_1 in Hty.
    split; [intros _; by eexists|done].
Qed.

Lemma realData_error c e : Blockchain.realData c = Throw e -> e = TypeError.
Proof.
  unfold Blockchain.realData.
  destruct (bool_decide _); [|done].
  destruct (otherTrans c); simpl; congruence.
Qed.

Lemma getTransactionMessage_defined t real doDecrypt :
  Blockchain.realData (transaction t) = Ok real ->
  exists m, Blockchain.getTransactionMessage t doDecrypt = Ok m.
Proof.
  intros Hreal. unfold Blockchain.getTransactionMessage.
  rewrite Hreal. cbn [JS.bind].
  destruct (message real) as [m|]; [|by eexists].
  destruct (negb _); [by eexists|].
  destruct doDecrypt; by eexists.
Qed.

Lemma getTransactionAmount_defined t real slug d :
  Blockchain.realData (transaction t) = Ok real ->
  exists a, Blockchain.getTransactionAmount t slug d = Ok a.
Proof.
  intros Hreal. unfold Blockchain.getTransactionAmount.
  rewrite Hreal. cbn [JS.bind].
  destruct (match mosaics real with Some (_ :: _) => true | _ => false end).
  - destruct (List.find _ _); by eexists.
  - destruct (negb _); by eexists.
Qed.

Lemma readTransaction_readable t :
  Ledger.readable t ->
  exists m a,
    readTransaction t = Ok (hash (meta t) ≫= data, m, a)
    /\ Blockchain.getTransactionMessage t false = Ok m
    /\ Blockchain.getTransactionAmount t "nem:xem" 6 = Ok a.
Proof.
  intros [Hhash Hinner].
  apply realData_defined in Hinner. destruct Hinner as [real Hreal].
  destruct (getTransactionMessage_defined t real false Hreal) as [m Hm].
  destruct (getTransactionAmount_defined t real "nem:xem" 6 Hreal) as [a Ha].
  exists m, a. unfold readTransaction.
  destruct (hash (meta t)) as [h|] eqn:Hh; [|done].
  rewrite (getTransactionHash_outer t h Hh), Hm, Ha. done.
Qed.

Lemma readTransaction_unreadable t :
  ~ Ledger.readable t -> readTransaction t = Throw TypeError.
Proof.
  intros Hnot. unfold readTransaction.
  destruct (hash (meta t)) as [h|] eqn:Hh.
  - rewrite (getTransactionHash_outer t h Hh). cbn [JS.bind].
    destruct (Blockchain.realData (transaction t)) as [real|e] eqn:Hreal.
    + destruct Hnot. split; [by rewrite Hh|].
      apply realData_defined. by exists real.
    + unfold Blockchain.getTransactionMessage. rewrite Hreal.
      apply realData_error in Hreal. by subst.
  - by rewrite (getTransactionHash_no_hash t false Hh).
Qed.

Lemma readable_dec t : Ledger.readable t \/ ~ Ledger.readable t.
Proof.
  unfold Ledger.readable.
  destruct (hash (meta t)) as [h|]; [|right; intros [? _]; done].
  destruct (decide (type (transaction t) = multisigTransaction)) as [Hty|Hty].
  - destruct (otherTrans (transaction t)) as [o|].
    + left. done.
    + right. intros [_ Hno]. by apply Hno.
  - left. done.
Qed.

(** X5. What the decoders raise. Without the hash object of the
    metadata the hash decoder raises a [TypeError]; on a multisig
    envelope without its inner transaction the message decoder and the
    amount decoder raise a [TypeError]. A pass that meets such a record
    raises that error at its reads, before it looks at or changes its
    own state. *)
Theorem decoders_raise_on_missing_parts t inner doDecrypt slug d :
  (hash (meta t) = None ->
   Blockchain.getTransactionHash t inner = Throw TypeError)
  /\ (type (transaction t) = multisigTransaction ->
      otherTrans (transaction t) = None ->
      Blockchain.getTransactionMessage t doDecrypt = Throw TypeError
      /\ Blockchain.getTransactionAmount t slug d = Throw TypeError)
  /\ (~ Ledger.readable t ->
      forall rest st,
        saveIncomingPaymentsHistory (t :: rest) st = (st, Throw TypeError)).
Proof.
  split; [|split].
  - apply getTransactionHash_no_hash.
  - intros Hty Hno.
    unfold Blockchain.getTransactionMessage, Blockchain.getTransactionAmount,
      Blockchain.realData.
    rewrite (bool_decide_eq_true_2 _ Hty), Hno. done.
  - intros Hnot rest st. apply save_unreadable.
    by apply readTransaction_unreadable.
Qed.

End Readable.

(** ** What a pass adds to the accumulators *)

Section Credits.
Context `{FloatOps} `{ChainLib}.
Import Reconciliation.

Abbreviation hist := paymentTransactionHistory_.

Lemma lookupEntry_updateEntry k k' f (l : list (string * entryT)) :
  lookupEntry k (updateEntry k' f l)
  = if bool_decide (k = k') then f <$> lookupEntry k l else lookupEntry k l.
Proof.
  induction l as [|[k0 e] l IH]; simpl.
  - by destruct (bool_decide (k = k')).
  - destruct (bool_decide (k0 = k')) eqn:Hk0; simpl.
    + apply bool_decide_eq_true_1 in Hk0. subst k0.
      destruct (bool_decide (k = k')) eqn:Hk.
      * apply bool_decide_eq_true_1 in Hk. subst k.
        rewrite bool_decide_eq_true_2 by done. done.
      * apply bool_decide_eq_false_1 in Hk.
        rewrite bool_decide_eq_false_2 by (intros ->; by apply Hk). done.
    + apply bool_decide_eq_false_1 in Hk0.
      destruct (bool_decide (k0 = k)) eqn:Hk1.
      * apply bool_decide_eq_true_1 in Hk1. subst k0.
        rewrite bool_decide_eq_false_2 by done. done.
      * exact IH.
Qed.

Lemma updateEntry_keys k f (l : list (string * entryT)) :
  (forall e, invoice (f e) = invoice e) ->
  List.map (fun ke => (fst ke, invoice (snd ke))) (updateEntry k f l)
  = List.map (fun ke => (fst ke, invoice (snd ke))) l.
Proof.
  intros Hf. induction l as [|[k0 e] l IH]; simpl; [done|].
  destruct (bool_decide (k0 = k)); simpl; [by rewrite Hf|by rewrite IH].
Qed.

Lemma credit_nil k e : Ledger.credit k [] e = e.
Proof.
  destruct e. unfold Ledger.credit, Ledger.addAll. simpl.
  by rewrite app_nil_r.
Qed.

Lemma credit_cons k t ts e :
  Ledger.credit k (t :: ts) e
  = Ledger.credit k ts
      (if Ledger.paysInto k t then addPayment t (Ledger.amountOf t) e else e).
Proof.
  unfold Ledger.credit, Ledger.addAll. cbn [List.filter].
  destruct (Ledger.paysInto k t); [|done].
  unfold addPayment. cbn [transactions totalPaid invoice List.map fold_left].
  by rewrite <- app_assoc.
Qed.

(** One step of the first loop on a record that is new. *)
Lemma step_credits t m a k (history : historyT) :
  Blockchain.getTransactionMessage t false = Ok m ->
  Blockchain.getTransactionAmount t "nem:xem" 6 = Ok a ->
  let history' :=
    if negb (bool_decide (type (transaction t) = transfer))
       && negb (bool_decide (type (transaction t) = multisigTransaction))
    then history
    else if negb (hasOwnProperty (byInvoice history) (toUpperCase m))
    then history
    else pushPayment (toUpperCase m) t a history in
  lookupEntry k (byInvoice history')
  = (fun e => if Ledger.paysInto k t
              then addPayment t (Ledger.amountOf t) e else e)
    <$> lookupEntry k (byInvoice history).
Proof.
  intros Hm Ha history'. subst history'.
  unfold Ledger.paysInto, Ledger.amountOf, Ledger.isPayment.
  rewrite Hm, Ha.
  destruct (bool_decide (type (transaction t) = transfer));
    destruct (bool_decide (type (transaction t) = multisigTransaction));
    cbn [negb andb orb];
    try (destruct (lookupEntry k (byInvoice history)); done).
  all: unfold hasOwnProperty.
  all: destruct (bool_decide (toUpperCase m = k)) eqn:Hk;
    [apply bool_decide_eq_true_1 in Hk; subst k
    |apply bool_decide_eq_false_1 in Hk].
  all: destruct (lookupEntry (toUpperCase m) (byInvoice history)) as [e0|]
         eqn:Hown.
  all: try rewrite (bool_decide_eq_true_2 (is_Some (Some e0)))
         by (by eexists).
  all: try rewrite (bool_decide_eq_false_2 (is_Some None))
         by (intros [? [=]]).
  all: cbn [negb pushPayment byInvoice].
  all: try rewrite lookupEntry_updateEntry.
  all: try rewrite bool_decide_eq_true_2 by done.
  all: try (rewrite bool_decide_eq_false_2 by (intros ->; by apply Hk)).
  all: try rewrite Hown.
  all: try done.
  all: by destruct (lookupEntry k (byInvoice history)).
Qed.

(** The history after one new record. *)
Lemma scan_step t rest last st m a :
  readTransaction t = Ok (hash (meta t) ≫= data, m, a) ->
  Ledger.hashKey t ∉ byHash (hist st) ->
  exists history',
    scan (t :: rest) last st
    = scan rest (idArg (Blockchain.getTransactionId t))
        (withHistory history' st)
    /\ byHash history' = {[ Ledger.hashKey t ]} ∪ byHash (hist st)
    /\ byInvoice history'
       = byInvoice
           (if negb (bool_decide (type (transaction t) = transfer))
               && negb (bool_decide
                          (type (transaction t) = multisigTransaction))
            then hist st
            else if negb (hasOwnProperty (byInvoice (hist st))
                            (toUpperCase m))
            then hist st
            else pushPayment (toUpperCase m) t a (hist st)).
Proof.
  intros Hread Hnew. rewrite scan_cons, Hread.
  fold (Ledger.hashKey t).
  rewrite bool_decide_eq_false_2 by exact Hnew.
  cbv zeta. cbn [markHash byInvoice].
  destruct (negb (bool_decide (type (transaction t) = transfer))
            && negb (bool_decide
                       (type (transaction t) = multisigTransaction))).
  - eexists. split; [reflexivity|]. done.
  - destruct (negb (hasOwnProperty (byInvoice (hist st)) (toUpperCase m))).
    + eexists. split; [reflexivity|]. done.
    + eexists. split; [reflexivity|]. done.
Qed.

Lemma scan_prefix txs cursor st :
  let st' := fst (scan txs cursor st) in
  exists done rest,
    txs = done ++ rest
    /\ Forall Ledger.readable done
    /\ NoDup (Ledger.hashKey <$> done)
    /\ (forall t, t ∈ done -> Ledger.hashKey t ∉ byHash (hist st))
    /\ byHash (hist st')
       = list_to_set (Ledger.hashKey <$> done) ∪ byHash (hist st)
    /\ (forall k,
          lookupEntry k (byInvoice (hist st'))
          = Ledger.credit k done <$> lookupEntry k (byInvoice (hist st)))
    /\ List.map (fun ke => (fst ke, invoice (snd ke))) (byInvoice (hist st'))
       = List.map (fun ke => (fst ke, invoice (snd ke)))
           (byInvoice (hist st))
    /\ match snd (scan txs cursor st) with
       | Ok (Some l) =>
           rest = []
           /\ l = from_option (fun t => idArg (Blockchain.getTransactionId t))
                    cursor (list.last done)
       | Ok None =>
           exists t rest',
             rest = t :: rest' /\ Ledger.readable t
             /\ Ledger.hashKey t ∈ byHash (hist st')
       | Throw e =>
           e = TypeError
           /\ exists t rest', rest = t :: rest' /\ ~ Ledger.readable t
       end.
Proof.
  revert cursor st. induction txs as [|t txs IH]; intros cursor st st'.
  - exists [], []. subst st'. cbn.
    repeat split; try done.
    + constructor.
    + intros t Ht. by apply elem_of_nil in Ht.
    + by rewrite (left_id_L ∅ (∪)).
    + intros k. destruct (lookupEntry k _) as [e|]; [|done].
      cbn. by rewrite credit_nil.
  - destruct (readable_dec t) as [Hr|Hnot].
    + destruct (readTransaction_readable t Hr) as (m & a & Hread & Hm & Ha).
      destruct (decide (Ledger.hashKey t ∈ byHash (hist st))) as [Hseen|Hnew].
      * exists [], (t :: txs). subst st'.
        rewrite scan_cons, Hread. fold (Ledger.hashKey t).
        rewrite bool_decide_eq_true_2 by exact Hseen. cbn.
        repeat split; try done.
        -- constructor.
        -- intros t' Ht. by apply elem_of_nil in Ht.
        -- by rewrite (left_id_L ∅ (∪)).
        -- intros k. destruct (lookupEntry k _) as [e|]; [|done].
           cbn. by rewrite credit_nil.
        -- by exists t, txs.
      * destruct (scan_step t txs cursor st m a Hread Hnew)
          as (history' & Hstep & Hmarks & Hbooks).
        subst st'. rewrite Hstep.
        specialize (IH (idArg (Blockchain.getTransactionId t))
                       (withHistory history' st)).
        cbv zeta in IH.
        destruct IH as (done & rest & Htxs & Hrd & Hnd & Hfresh & Hhash
                        & Hcredit & Hkeys & Hres).
        cbn [withHistory paymentTransactionHistory_] in Hfresh, Hhash,
          Hcredit, Hkeys.
        exists (t :: done), rest.
        split; [by rewrite Htxs|].
        split; [by constructor|].
        split.
        { cbn. constructor; [|exact Hnd].
          intros Hin. apply list_elem_of_fmap in Hin.
          destruct Hin as (t' & Heq & Hin).
          apply (Hfresh t' Hin). rewrite Hmarks, <- Heq.
          apply elem_of_union_l. by apply elem_of_singleton_2. }
        split.
        { intros t' Hin. apply elem_of_cons in Hin.
          destruct Hin as [->|Hin]; [exact Hnew|].
          intros Hold. apply (Hfresh t' Hin). rewrite Hmarks.
          by apply elem_of_union_r. }
        split.
        { rewrite Hhash, Hmarks. cbn. apply set_eq. intros x.
          rewrite !elem_of_union. tauto. }
        split.
        { intros k. rewrite Hcredit, Hbooks.
          rewrite (step_credits t m a k (hist st) Hm Ha).
          destruct (lookupEntry k (byInvoice (hist st))) as [e|]; [|done].
          cbn. by rewrite credit_cons. }
        split.
        { rewrite Hkeys, Hbooks.
          destruct (_ && _); [done|].
          destruct (negb _); [done|].
          cbn. by apply updateEntry_keys. }
        destruct (snd (scan txs _ _)) as [[l|]|e]; [|exact Hres|exact Hres].
        destruct Hres as [-> ->]. split; [done|].
        destruct done as [|t' done]; [done|].
        rewrite last_cons_cons, last_cons. by destruct (list.last done).
    + exists [], (t :: txs). subst st'.
      rewrite scan_cons, (readTransaction_unreadable t Hnot). cbn.
      repeat split; try done.
      * constructor.
      * intros t' Ht. by apply elem_of_nil in Ht.
      * by rewrite (left_id_L ∅ (∪)).
      * intros k. destruct (lookupEntry k _) as [e|]; [|done].
        cbn. by rewrite credit_nil.
      * by exists t, txs.
Qed.

Lemma lookupEntry_elem_of k e (l : list (string * entryT)) :
  lookupEntry k l = Some e -> (k, e) ∈ l.
Proof.
  induction l as [|[k0 e0] l IH]; simpl; [done|].
  destruct (bool_decide (k0 = k)) eqn:Hk.
  - apply bool_decide_eq_true_1 in Hk. intros [= ->]. subst.
    apply elem_of_cons. by left.
  - intros Hl. apply elem_of_cons. right. by apply IH.
Qed.

Lemma idArg_not_false i : idArg i <> AFalse.
Proof. by destruct i. Qed.

(** The pass in terms of the records it went through. *)
Lemma save_prefix txs st :
  let st' := fst (saveIncomingPaymentsHistory txs st) in
  exists done rest,
    txs = done ++ rest
    /\ Forall Ledger.readable done
    /\ NoDup (Ledger.hashKey <$> done)
    /\ (forall t, t ∈ done -> Ledger.hashKey t ∉ byHash (hist st))
    /\ byHash (hist st')
       = list_to_set (Ledger.hashKey <$> done) ∪ byHash (hist st)
    /\ (forall k,
          lookupEntry k (byInvoice (hist st'))
          = Ledger.credit k done <$> lookupEntry k (byInvoice (hist st)))
    /\ List.map (fun ke => (fst ke, invoice (snd ke))) (byInvoice (hist st'))
       = List.map (fun ke => (fst ke, invoice (snd ke)))
           (byInvoice (hist st))
    /\ match snd (saveIncomingPaymentsHistory txs st) with
       | Ok l =>
           (l = AFalse
            /\ heap st' = heap st
            /\ exists t rest',
                 rest = t :: rest' /\ Ledger.readable t
                 /\ Ledger.hashKey t ∈ byHash (hist st'))
           \/ (l <> AFalse
               /\ rest = []
               /\ l = from_option
                        (fun t => idArg (Blockchain.getTransactionId t))
                        ANull (list.last done)
               /\ heap st' = writeBackAll (byInvoice (hist st')) (heap st))
       | Throw e =>
           e = TypeError
           /\ heap st' = heap st
           /\ exists t rest', rest = t :: rest' /\ ~ Ledger.readable t
       end.
Proof.
  intros st'. subst st'. rewrite save_run.
  pose proof (scan_prefix txs ANull st) as Hscan. cbv zeta in Hscan.
  destruct Hscan as (done & rest & Htxs & Hrd & Hnd & Hfresh & Hhash
                     & Hcredit & Hkeys & Hres).
  pose proof (scan_frame txs ANull st) as Hframe. cbv zeta in Hframe.
  destruct Hframe as (Hheap & _ & _).
  exists done, rest.
  destruct (scan txs ANull st) as [st1 [[l|]|e]];
    cbn [fst snd] in *;
    (split; [exact Htxs|]); (split; [exact Hrd|]); (split; [exact Hnd|]);
    (split; [exact Hfresh|]); (split; [exact Hhash|]);
    (split; [exact Hcredit|]); (split; [exact Hkeys|]).
  - right. destruct Hres as [-> ->]. repeat split.
    + destruct (list.last done); [apply idArg_not_false|done].
    + cbn. by rewrite Hheap.
  - left. done.
  - destruct Hres as [-> Hres]. done.
Qed.
(** On ordinary hashes the method [hasOwnProperty] of [byHash] stays in
    reach. *)
Lemma pass_stays_unpoisoned txs st :
  Domain.unpoisoned (hist st) ->
  forallb Domain.ordinaryHash txs = true ->
  Domain.unpoisoned (hist (fst (saveIncomingPaymentsHistory txs st))).
Proof.
  intros Hst Hord Hin.
  pose proof (save_prefix txs st) as Hp. cbv zeta in Hp.
  destruct Hp as (done & rest & Htxs & _ & _ & _ & Hhash & _).
  rewrite Hhash in Hin. apply elem_of_union in Hin.
  destruct Hin as [Hin|Hin]; [|by apply Hst].
  apply elem_of_list_to_set, list_elem_of_fmap in Hin.
  destruct Hin as (t & Hkey & Ht).
  rewrite forallb_forall in Hord.
  assert (Hin : In t txs).
  { rewrite Htxs. apply in_or_app. left. by apply list_elem_of_In. }
  specialize (Hord t Hin). unfold Domain.ordinaryHash, Domain.ordinaryKey in Hord.
  rewrite <- Hkey in Hord.
  rewrite (bool_decide_eq_true_2 ("hasOwnProperty" = "hasOwnProperty"))
    in Hord by done.
  by rewrite andb_false_r in Hord.
Qed.

(** X6. A page of readable transfers without mosaics never raises: the
    pass returns [false], or the id of the last record of the page
    ([null] for an empty page, [undefined] when that record has no id).
    The hashes of the page are ordinary ones, neither [__proto__] nor
    [hasOwnProperty], and none of the latter name was marked before. *)
Theorem readable_page_never_raises txs st :
  Domain.unpoisoned (hist st) ->
  forallb Domain.ordinaryHash txs = true ->
  forallb Domain.noMosaics txs = true ->
  Forall Ledger.readable txs ->
  snd (saveIncomingPaymentsHistory txs st) = Ok AFalse
  \/ snd (saveIncomingPaymentsHistory txs st)
     = Ok (from_option (fun t => idArg (Blockchain.getTransactionId t))
             ANull (list.last txs)).
Proof.
  intros _ _ _ Hall.
  pose proof (save_prefix txs st) as Hp. cbv zeta in Hp.
  destruct Hp as (done & rest & Htxs & _ & _ & _ & _ & _ & _ & Hres).
  destruct (snd (saveIncomingPaymentsHistory txs st)) as [l|e].
  - destruct Hres as [(-> & _)|(_ & -> & -> & _)]; [by left|].
    right. rewrite Htxs, app_nil_r. done.
  - destruct Hres as (_ & _ & t & rest' & -> & Hnot).
    destruct Hnot. rewrite Htxs in Hall.
    apply Forall_app in Hall. destruct Hall as [_ Hall].
    by apply Forall_cons in Hall as [? _].
Qed.

(** X7. A pass over transfers without mosaics that raises stops at the
    first record that is not readable, with a [TypeError]: the records
    before it are marked as seen and credited to the accumulators, and
    no invoice is written. The hashes of the page are ordinary ones,
    none named [hasOwnProperty] was marked before, and the messages are
    made of ASCII characters. *)
Theorem pass_raises_at_unreadable txs st e :
  Domain.unpoisoned (hist st) ->
  forallb Domain.ordinaryHash txs = true ->
  forallb Domain.noMosaics txs = true ->
  forallb Domain.asciiMessage txs = true ->
  snd (saveIncomingPaymentsHistory txs st) = Throw e ->
  let st' := fst (saveIncomingPaymentsHistory txs st) in
  e = TypeError
  /\ exists done t rest,
       txs = done ++ t :: rest
       /\ Forall Ledger.readable done
       /\ ~ Ledger.readable t
       /\ heap st' = heap st
       /\ byHash (hist st')
          = list_to_set (Ledger.hashKey <$> done) ∪ byHash (hist st)
       /\ forall k,
            lookupEntry k (byInvoice (hist st'))
            = Ledger.credit k done <$> lookupEntry k (byInvoice (hist st)).
Proof.
  intros _ _ _ _ Hthrow st'. subst st'.
  pose proof (save_prefix txs st) as Hp. cbv zeta in Hp.
  destruct Hp as (done & rest & Htxs & Hrd & _ & _ & Hhash & Hcredit & _
                  & Hres).
  rewrite Hthrow in Hres.
  destruct Hres as (-> & Hheap & t & rest' & -> & Hnot).
  split; [done|]. by exists done, t, rest'.
Qed.

(** X8. A pass that goes through its page (it returns something else
    than [false]) has met only new records with pairwise different
    hashes; it marks them all as seen, and the accumulator of every
    invoice number holds, after its former content, the payments of the
    page whose upper-cased message is that number, in page order, their
    amounts added to the total one after the other. The keys and the
    invoices of the accumulators stay as they are. The hashes of the
    page are ordinary ones, neither [__proto__] nor [hasOwnProperty],
    none of the latter name was marked before, which stays so, and the
    messages are made of ASCII characters. *)
Theorem completed_pass_credits txs st st' l :
  Domain.unpoisoned (hist st) ->
  forallb Domain.ordinaryHash txs = true ->
  forallb Domain.asciiMessage txs = true ->
  saveIncomingPaymentsHistory txs st = (st', Ok l) ->
  l <> AFalse ->
  Domain.unpoisoned (hist st')
  /\ NoDup (Ledger.hashKey <$> txs)
  /\ (forall t, t ∈ txs -> Ledger.hashKey t ∉ byHash (hist st))
  /\ byHash (hist st')
     = list_to_set (Ledger.hashKey <$> txs) ∪ byHash (hist st)
  /\ (forall k,
        lookupEntry k (byInvoice (hist st'))
        = Ledger.credit k txs <$> lookupEntry k (byInvoice (hist st)))
  /\ List.map (fun ke => (fst ke, invoice (snd ke))) (byInvoice (hist st'))
     = List.map (fun ke => (fst ke, invoice (snd ke))) (byInvoice (hist st))
  /\ heap st' = writeBackAll (byInvoice (hist st')) (heap st).
Proof.
  intros Hst Hord _ Hrun Hl.
  pose proof (pass_stays_unpoisoned txs st Hst Hord) as Hkept.
  pose proof (save_prefix txs st) as Hp. cbv zeta in Hp.
  rewrite Hrun in Hp, Hkept. cbn [fst snd] in Hp, Hkept.
  destruct Hp as (done & rest & Htxs & _ & Hnd & Hfresh & Hhash & Hcredit
                  & Hkeys & Hres).
  destruct Hres as [(-> & _)|(_ & -> & _ & Hheap)]; [done|].
  rewrite app_nil_r in Htxs. subst done. done.
Qed.

(** X9. A pass that returns [false] has met a record whose hash was
    known, from an earlier pass or from earlier in the page: the records
    before it are credited to the accumulators and marked as seen, the
    records after it are not looked at, and no invoice is written. The
    hashes of the page are ordinary ones, neither [__proto__] nor
    [hasOwnProperty], none of the latter name was marked before, and
    the messages are made of ASCII characters. *)
Theorem stopped_pass_credits_prefix txs st :
  Domain.unpoisoned (hist st) ->
  forallb Domain.ordinaryHash txs = true ->
  forallb Domain.asciiMessage txs = true ->
  snd (saveIncomingPaymentsHistory txs st) = Ok AFalse ->
  let st' := fst (saveIncomingPaymentsHistory txs st) in
  exists done t rest,
    txs = done ++ t :: rest
    /\ Ledger.hashKey t ∈ list_to_set (Ledger.hashKey <$> done)
                            ∪ byHash (hist st)
    /\ heap st' = heap st
    /\ byHash (hist st')
       = list_to_set (Ledger.hashKey <$> done) ∪ byHash (hist st)
    /\ forall k,
         lookupEntry k (byInvoice (hist st'))
         = Ledger.credit k done <$> lookupEntry k (byInvoice (hist st)).
Proof.
  intros _ _ _ Hfalse st'. subst st'.
  pose proof (save_prefix txs st) as Hp. cbv zeta in Hp.
  destruct Hp as (done & rest & Htxs & _ & _ & _ & Hhash & Hcredit & _
                  & Hres).
  rewrite Hfalse in Hres.
  destruct Hres as [(_ & Hheap & t & rest' & -> & _ & Hseen)|(Hne & _)];
    [|done].
  exists done, t, rest'. rewrite <- Hhash. done.
Qed.

Lemma add_numbers paid (amounts : list Z) :
  fold_left JS.add (List.map JNum amounts) (JNum paid)
  = JNum (paid + foldr Z.add 0 amounts).
Proof.
  revert paid. induction amounts as [|a amounts IH]; intros paid; cbn.
  - by rewrite Z.add_0_r.
  - rewrite IH. f_equal. lia.
Qed.

Lemma add_text s (vs : list jsval) :
  exists s', fold_left JS.add vs (JStr s) = JStr s'.
Proof.
  revert s. induction vs as [|v vs IH]; intros s; cbn; [by eexists|].
  apply IH.
Qed.

(** X10. After a pass that goes through its page, an invoice whose
    accumulator held a number, and whose payments in the page all carry a
    number, has that number plus the sum of the payments as its amount
    paid. It is paid when the sum reaches its amount, overpaid when the
    sum exceeds it; below the amount its flag and its status are left as
    they were. The amounts are not negative and their sum, like the
    amount of the invoice, is an integer that the runtime holds exactly;
    the hashes of the page are ordinary ones, neither [__proto__] nor
    [hasOwnProperty], none of the latter name was marked before, and
    the messages are made of ASCII characters. *)
Theorem completed_pass_numeric txs st st' l k e i paid amounts :
  Domain.unpoisoned (hist st) ->
  forallb Domain.ordinaryHash txs = true ->
  forallb Domain.asciiMessage txs = true ->
  0 <= paid ->
  Forall (fun a => 0 <= a) amounts ->
  Domain.isSafeInteger (paid + foldr Z.add 0 amounts) = true ->
  Domain.isSafeInteger (Inv.amount i) = true ->
  saveIncomingPaymentsHistory txs st = (st', Ok l) ->
  l <> AFalse ->
  NoDup (List.map (fun ke => invoice (snd ke)) (byInvoice (hist st))) ->
  lookupEntry k (byInvoice (hist st)) = Some e ->
  totalPaid e = JNum paid ->
  List.map Ledger.amountOf (List.filter (Ledger.paysInto k) txs)
  = List.map JNum amounts ->
  heap st !! invoice e = Some i ->
  let total := paid + foldr Z.add 0 amounts in
  exists i',
    heap st' !! invoice e = Some i'
    /\ Inv.amountPaid i' = JNum total
    /\ Inv.amount i' = Inv.amount i
    /\ (total = Inv.amount i ->
        Inv.isPaid i' = true /\ Inv.status i' = Some "paid")
    /\ (Inv.amount i < total ->
        Inv.isPaid i' = true /\ Inv.status i' = Some "overpaid")
    /\ (total < Inv.amount i ->
        Inv.isPaid i' = Inv.isPaid i /\ Inv.status i' = Inv.status i).
Proof.
  intros _ _ _ _ _ _ _ Hrun Hl Hnd Hentry Hpaid Hamounts Hheap total.
  pose proof (save_prefix txs st) as Hp. cbv zeta in Hp.
  rewrite Hrun in Hp. cbn [fst snd] in Hp.
  destruct Hp as (done & rest & Htxs & _ & _ & _ & _ & Hcredit & Hkeys
                  & Hres).
  destruct Hres as [(-> & _)|(_ & -> & _ & _)]; [done|].
  rewrite app_nil_r in Htxs. subst done.
  specialize (Hcredit k). rewrite Hentry in Hcredit. cbn in Hcredit.
  assert (Hnd' : NoDup (List.map (fun ke => invoice (snd ke))
                          (byInvoice (hist st')))).
  { assert (Hsnd : forall l : list (string * entryT),
              List.map (fun ke => invoice (snd ke)) l
              = List.map snd
                  (List.map (fun ke => (fst ke, invoice (snd ke))) l)).
    { intros l0. by rewrite List.map_map. }
    rewrite Hsnd, Hkeys, <- Hsnd. exact Hnd. }
  pose proof (completed_pass_writes_back txs st st' l k
                (Ledger.credit k txs e) i Hrun Hl Hnd'
                (lookupEntry_elem_of _ _ _ Hcredit) Hheap) as Hback.
  cbn [Ledger.credit invoice totalPaid] in Hback.
  unfold Ledger.addAll in Hback.
  rewrite Hamounts, Hpaid, add_numbers in Hback. fold total in Hback.
  exists (writeBack (JNum total) i).
  split; [exact Hback|].
  split; [apply writeBack_amountPaid|].
  split; [apply writeBack_amount|].
  exact (writeBack_status total i).
Qed.

(** X11. A payment with attached mosaics among which is [nem:xem] is read
    as text, the formatted quotient. Added to a total, it gives the text
    of the total followed by that text, and the total stays a text
    whatever is added later. *)
Theorem mosaic_payment_makes_total_text t real ms e0 total ts :
  Blockchain.realData (transaction t) = Ok real ->
  mosaics real = Some ms ->
  List.find (Blockchain.isLookupMosaic "nem" "xem") ms = Some e0 ->
  let s := scaled_toFixed (amount real) 6 (quantity e0) in
  Ledger.amountOf t = JStr s
  /\ Ledger.addAll total [t] = JStr (ToString total ++ s)
  /\ exists s', Ledger.addAll total (t :: ts) = JStr s'.
Proof.
  intros Hreal Hms Hfind s.
  assert (Hamt : Ledger.amountOf t = JStr s).
  { unfold Ledger.amountOf, Blockchain.getTransactionAmount.
    rewrite Hreal. cbn [JS.bind]. rewrite Hms.
    destruct ms as [|m ms]; [done|].
    cbn [default from_option id Datatypes.id].
    change (Blockchain.strip_name "nem:xem") with "nem".
    change (Blockchain.strip_namespace "nem:xem") with "xem".
    by rewrite Hfind. }
  assert (Hone : JS.add total (JStr s) = JStr (ToString total ++ s)).
  { by destruct total. }
  split; [exact Hamt|]. split.
  - unfold Ledger.addAll. cbn. by rewrite Hamt.
  - unfold Ledger.addAll. cbn [List.map fold_left].
    rewrite Hamt, Hone. apply add_text.
Qed.

Lemma elem_of_List_filter {A} (f : A -> bool) (l : list A) x :
  x ∈ List.filter f l -> x ∈ l.
Proof.
  intros Hx. apply list_elem_of_In in Hx. apply List.filter_In in Hx.
  apply list_elem_of_In. exact (proj1 Hx).
Qed.

(** X12. No record with an ordinary hash is credited twice. If the
    transactions of every accumulator have pairwise different hashes
    that are all marked as seen, and no hash named [hasOwnProperty] was
    marked, both are still so after a pass over a page whose hashes
    are neither [__proto__] nor [hasOwnProperty], whether the pass goes
    through, stops at a known record or raises. *)
Theorem pass_credits_once txs st :
  Domain.unpoisoned (hist st) ->
  forallb Domain.ordinaryHash txs = true ->
  Ledger.countedOnce (hist st) ->
  Ledger.countedOnce (hist (fst (saveIncomingPaymentsHistory txs st)))
  /\ Domain.unpoisoned (hist (fst (saveIncomingPaymentsHistory txs st))).
Proof.
  intros Hst Hord Hinv.
  split; [|exact (pass_stays_unpoisoned txs st Hst Hord)].
  intros k e' He'.
  pose proof (save_prefix txs st) as Hp. cbv zeta in Hp.
  destruct Hp as (done & rest & _ & _ & Hnd & Hfresh & Hhash & Hcredit & _).
  rewrite Hcredit in He'.
  destruct (lookupEntry k (byInvoice (hist st))) as [e|] eqn:He; [|done].
  injection He' as <-. destruct (Hinv k e He) as [Hold Hmarked].
  cbn [Ledger.credit transactions]. split.
  - rewrite fmap_app. apply NoDup_app. split; [exact Hold|]. split.
    + intros x Hx Hx'.
      apply list_elem_of_fmap in Hx. destruct Hx as (t & -> & Ht).
      apply list_elem_of_fmap in Hx'. destruct Hx' as (t' & Heq & Ht').
      apply elem_of_List_filter in Ht'.
      apply (Hfresh t' Ht'). rewrite <- Heq. by apply Hmarked.
    + assert (Hsub : sublist (List.filter (Ledger.paysInto k) done) done).
      { clear. induction done as [|t done IH]; cbn; [done|].
        destruct (Ledger.paysInto k t); by constructor. }
      eapply sublist_NoDup; [exact Hnd|by apply fmap_sublist].
  - intros t Ht. rewrite Hhash. apply elem_of_app in Ht.
    destruct Ht as [Ht|Ht].
    + apply elem_of_union_r. by apply Hmarked.
    + apply elem_of_List_filter in Ht.
      apply elem_of_union_l, elem_of_list_to_set, list_elem_of_fmap.
      by exists t.
Qed.

End Credits.

Ltac readable_record :=
  split; [discriminate|intros Hty; vm_compute in Hty; discriminate].

Ltac unpoisoned_state :=
  unfold Domain.unpoisoned; refine (bool_decide_eq_false_1 _ _);
  vm_compute; reflexivity.

(** X6, an instance: a page with one payment of id 1. *)
Lemma readable_page_never_raises_witness :
  snd (@Reconciliation.saveIncomingPaymentsHistory Demo.floats Demo.chain
         [Demo.payment "a" 1 400000] Demo.start)
  = Ok (Reconciliation.ANumber 1).
Proof.
  destruct (@readable_page_never_raises Demo.floats Demo.chain
              [Demo.payment "a" 1 400000] Demo.start) as [Hfalse|Hid].
  - unpoisoned_state.
  - reflexivity.
  - reflexivity.
  - constructor; [readable_record|constructor].
  - vm_compute in Hfalse. discriminate.
  - rewrite Hid. reflexivity.
Defined.

(** X7, an instance: a payment followed by a record without hash
    object. *)
Lemma pass_raises_at_unreadable_witness :
  let st0 := fst (Reconciliation.initEntries [0%nat] Demo.start) in
  let run :=
    @Reconciliation.saveIncomingPaymentsHistory Demo.floats Demo.chain
      [Demo.payment "a" 1 400000; Demo.hashless] st0 in
  snd run = Throw TypeError
  /\ Reconciliation.heap (fst run) = Reconciliation.heap st0
  /\ exists done t rest,
       [Demo.payment "a" 1 400000; Demo.hashless] = done ++ t :: rest
       /\ ~ @Ledger.readable Demo.chain t
       /\ forall k,
            Reconciliation.lookupEntry k
              (Reconciliation.byInvoice
                 (Reconciliation.paymentTransactionHistory_ (fst run)))
            = @Ledger.credit Demo.floats Demo.chain k done
              <$> Reconciliation.lookupEntry k
                    (Reconciliation.byInvoice
                       (Reconciliation.paymentTransactionHistory_ st0)).
Proof.
  intros st0 run.
  assert (Hthrow : snd run = Throw TypeError) by (vm_compute; reflexivity).
  assert (Hst0 : Domain.unpoisoned
                   (Reconciliation.paymentTransactionHistory_ st0))
    by unpoisoned_state.
  destruct (@pass_raises_at_unreadable Demo.floats Demo.chain
              [Demo.payment "a" 1 400000; Demo.hashless] st0 TypeError
              Hst0 eq_refl eq_refl eq_refl Hthrow)
    as (_ & done & t & rest & Htxs & _ & Hnot & Hheap & _ & Hcredit).
  split; [exact Hthrow|]. split; [exact Hheap|].
  exists done, t, rest. split; [exact Htxs|]. split; [exact Hnot|exact Hcredit].
Defined.

(** X8, an instance: a page of two payments for the invoice [INV-1]. *)
Lemma completed_pass_credits_witness :
  let st0 := fst (Reconciliation.initEntries [0%nat] Demo.start) in
  let page := [Demo.payment "b" 2 600000; Demo.payment "a" 1 400000] in
  let run :=
    @Reconciliation.saveIncomingPaymentsHistory Demo.floats Demo.chain
      page st0 in
  Reconciliation.lookupEntry "INV-1"
    (Reconciliation.byInvoice
       (Reconciliation.paymentTransactionHistory_ (fst run)))
  = Some {| Reconciliation.transactions := page;
            Reconciliation.totalPaid := JNum 1000000;
            Reconciliation.invoice := 0%nat |}.
Proof.
  intros st0 page run.
  destruct (@completed_pass_credits Demo.floats Demo.chain page st0
              (fst run) (Reconciliation.ANumber 1))
    as (_ & _ & _ & _ & Hcredit & _).
  - unpoisoned_state.
  - reflexivity.
  - reflexivity.
  - vm_compute. reflexivity.
  - discriminate.
  - rewrite Hcredit. vm_compute. reflexivity.
Defined.

(** X9, an instance: the second page starts with a new payment and goes
    on with the payment of the first page. *)
Lemma stopped_pass_credits_prefix_witness :
  let pass page st :=
    @Reconciliation.saveIncomingPaymentsHistory Demo.floats Demo.chain
      page st in
  let st0 := fst (Reconciliation.initEntries [0%nat] Demo.start) in
  let st1 := fst (pass [Demo.payment "x" 1 400000] st0) in
  let page := [Demo.payment "y" 2 600000; Demo.payment "x" 1 400000] in
  Reconciliation.heap (fst (pass page st1)) = Reconciliation.heap st1
  /\ exists done t rest,
       page = done ++ t :: rest
       /\ forall k,
            Reconciliation.lookupEntry k
              (Reconciliation.byInvoice
                 (Reconciliation.paymentTransactionHistory_
                    (fst (pass page st1))))
            = @Ledger.credit Demo.floats Demo.chain k done
              <$> Reconciliation.lookupEntry k
                    (Reconciliation.byInvoice
                       (Reconciliation.paymentTransactionHistory_ st1)).
Proof.
  intros pass st0 st1 page.
  destruct (@stopped_pass_credits_prefix Demo.floats Demo.chain page st1)
    as (done & t & rest & Htxs & _ & Hheap & _ & Hcredit).
  - unpoisoned_state.
  - reflexivity.
  - reflexivity.
  - vm_compute. reflexivity.
  - split; [exact Hheap|]. exists done, t, rest.
    split; [exact Htxs|exact Hcredit].
Defined.

(** X12, an instance: a page of two payments after the first loop of a
    sweep. *)
Lemma pass_credits_once_witness :
  let st0 := fst (Reconciliation.initEntries [0%nat] Demo.start) in
  Ledger.countedOnce
    (Reconciliation.paymentTransactionHistory_
       (fst (@Reconciliation.saveIncomingPaymentsHistory Demo.floats
               Demo.chain
               [Demo.payment "b" 2 600000; Demo.payment "a" 1 400000] st0))).
Proof.
  intros st0.
  apply (@pass_credits_once Demo.floats Demo.chain
           [Demo.payment "b" 2 600000; Demo.payment "a" 1 400000] st0).
  - unpoisoned_state.
  - reflexivity.
  - intros k e He.
    change (Reconciliation.lookupEntry k
              [("INV-1", {| Reconciliation.transactions := [];
                            Reconciliation.totalPaid := JNum 0;
                            Reconciliation.invoice := 0%nat |})] = Some e)
      in He.
    cbn [Reconciliation.lookupEntry] in He.
    destruct (bool_decide ("INV-1" = k)); [|discriminate].
    injection He as <-. split; [constructor|].
    intros t Ht. by apply elem_of_nil in Ht.
Defined.

(** X10, an instance: 600,000 and 400,000 units pay the invoice of
    1,000,000 units. *)
Lemma completed_pass_numeric_witness :
  let st0 := fst (Reconciliation.initEntries [0%nat] Demo.start) in
  let page := [Demo.payment "b" 2 600000; Demo.payment "a" 1 400000] in
  let run :=
    @Reconciliation.saveIncomingPaymentsHistory Demo.floats Demo.chain
      page st0 in
  exists i',
    Reconciliation.heap (fst run) !! 0%nat = Some i'
    /\ Inv.amountPaid i' = JNum 1000000
    /\ Inv.isPaid i' = true
    /\ Inv.status i' = Some "paid".
Proof.
  intros st0 page run.
  destruct (@completed_pass_numeric Demo.floats Demo.chain page st0
              (fst run) (Reconciliation.ANumber 1) "INV-1"
              {| Reconciliation.transactions := [];
                 Reconciliation.totalPaid := JNum 0;
                 Reconciliation.invoice := 0%nat |}
              Demo.invoice1 0 [600000; 400000])
    as (i' & Hheap & Hpaid & _ & Hexact & _).
  - unpoisoned_state.
  - reflexivity.
  - reflexivity.
  - lia.
  - repeat constructor; lia.
  - reflexivity.
  - reflexivity.
  - vm_compute. reflexivity.
  - discriminate.
  - vm_compute. apply NoDup_singleton.
  - vm_compute. reflexivity.
  - reflexivity.
  - vm_compute. reflexivity.
  - vm_compute. reflexivity.
  - exists i'. split; [exact Hheap|]. split; [exact Hpaid|].
    apply Hexact. reflexivity.
Defined.

(** X11, an instance: five [nem:xem] attached to a transfer, added to a
    total of 400,000. *)
Lemma mosaic_payment_makes_total_text_witness :
  let t :=
    Demo.record "h" 1 (Demo.plainTransfer 1000000 None (Some [Demo.xem 5])) in
  @Ledger.addAll Demo.floats Demo.chain (JNum 400000) [t]
  = JStr ("400000" ++ @scaled_toFixed Demo.floats (Some 1000000) 6 5).
Proof.
  intros t.
  destruct (@mosaic_payment_makes_total_text Demo.floats Demo.chain t
              (self (transaction t)) [Demo.xem 5] (Demo.xem 5)
              (JNum 400000) [])
    as (_ & Hone & _).
  - reflexivity.
  - reflexivity.
  - reflexivity.
  - rewrite Hone. vm_compute. reflexivity.
Defined.

(** ** What a sweep does to the invoices and to its caller *)

Section Outcome.
Context `{FloatOps} `{ChainLib}.
Context (incoming : Reconciliation.jsarg -> Reconciliation.jsarg ->
                    option (list transactionMetaDataPair)).
Import Reconciliation.

Abbreviation hist := paymentTransactionHistory_.

(** The fields that the write-back leaves alone. *)
Lemma writeBack_keeps total i :
  let i' := writeBack total i in
  Inv.number i' = Inv.number i
  /\ Inv.payerXEM i' = Inv.payerXEM i
  /\ Inv.recipientXEM i' = Inv.recipientXEM i
  /\ Inv.socketIds i' = Inv.socketIds i
  /\ Inv.amount i' = Inv.amount i
  /\ Inv.amountUnconfirmed i' = Inv.amountUnconfirmed i
  /\ Inv.paidAt i' = Inv.paidAt i
  /\ (Inv.isPaid i = true -> Inv.isPaid i' = true).
Proof.
  unfold writeBack. simpl.
  destruct (js_ge total (Inv.amount i)); [destruct (js_gt _ _)|]; done.
Qed.

Lemma applyTotals_keeps totals i :
  let i' := applyTotals totals i in
  Inv.number i' = Inv.number i
  /\ Inv.payerXEM i' = Inv.payerXEM i
  /\ Inv.recipientXEM i' = Inv.recipientXEM i
  /\ Inv.socketIds i' = Inv.socketIds i
  /\ Inv.amount i' = Inv.amount i
  /\ Inv.amountUnconfirmed i' = Inv.amountUnconfirmed i
  /\ Inv.paidAt i' = Inv.paidAt i
  /\ (Inv.isPaid i = true -> Inv.isPaid i' = true).
Proof.
  revert i. induction totals as [|t totals IH]; intros i; [done|].
  cbn [applyTotals fold_left].
  change (fold_left (fun i0 total => writeBack total i0) totals
            (writeBack t i)) with (applyTotals totals (writeBack t i)).
  specialize (IH (writeBack t i)). cbv zeta in IH.
  destruct IH as (-> & -> & -> & -> & -> & -> & -> & Hpaid).
  destruct (writeBack_keeps t i) as (-> & -> & -> & -> & -> & -> & -> & Hp).
  repeat split; try done. intros Hi. apply Hpaid, Hp, Hi.
Qed.

Lemma save_heap_lookup txs st r :
  exists totals,
    heap (fst (saveIncomingPaymentsHistory txs st)) !! r
    = applyTotals totals <$> heap st !! r.
Proof.
  rewrite save_run.
  pose proof (scan_frame txs ANull st) as Hframe. cbv zeta in Hframe.
  destruct Hframe as (Hheap & _ & _).
  destruct (scan txs ANull st) as [st1 [[l|]|e]]; cbn [fst] in *.
  - eexists. cbn. rewrite writeBackAll_lookup, Hheap. reflexivity.
  - exists []. rewrite Hheap. by destruct (heap st !! r).
  - exists []. rewrite Hheap. by destruct (heap st !! r).
Qed.

Lemma sweep_heap_lookup fuel recipient invoices lastTrxRead callback st r :
  exists totals,
    heap (fst (fetchInvoicesRealHistory incoming fuel recipient invoices
                 lastTrxRead callback st)) !! r
    = applyTotals totals <$> heap st !! r.
Proof.
  destruct fuel as [|fuel].
  - unfold fetchInvoicesRealHistory, Eff.bind.
    destruct (fetch_call_frame recipient invoices lastTrxRead callback st)
      as [Hheap _].
    destruct (fetchInvoicesRealHistory_call recipient invoices lastTrxRead
                callback st) as [sc [[p|]|e]]; cbn in *;
      exists []; rewrite Hheap; by destruct (heap st !! r).
  - destruct (fetch_books incoming fuel recipient invoices lastTrxRead
                callback st)
      as [(l & page & _ & _ & _ & _ & Hheap & _)|(Hheap & _)].
    + rewrite Hheap.
      destruct (save_heap_lookup page
                  (logged (Request recipient lastTrxRead)
                     (fst (initEntries l st))) r) as [totals Hlook].
      exists totals. rewrite Hlook. cbn [logged heap].
      by rewrite (proj1 (initEntries_frame l st)).
    + exists []. rewrite Hheap. by destruct (heap st !! r).
Qed.

(** X13. A sweep, whatever its arguments, the answer of the gateway and
    the state it starts from, neither adds nor removes a document, and on
    every document it leaves the number, both addresses, the socket ids,
    the amount, the unconfirmed amount and the payment date as they
    were; an invoice that was marked paid stays marked paid. *)
Theorem sweep_keeps_invoice_terms fuel recipient invoices lastTrxRead
    callback st r :
  let st' :=
    fst (fetchInvoicesRealHistory incoming fuel recipient invoices
           lastTrxRead callback st) in
  match heap st !! r with
  | None => heap st' !! r = None
  | Some i =>
      exists i',
        heap st' !! r = Some i'
        /\ Inv.number i' = Inv.number i
        /\ Inv.payerXEM i' = Inv.payerXEM i
        /\ Inv.recipientXEM i' = Inv.recipientXEM i
        /\ Inv.socketIds i' = Inv.socketIds i
        /\ Inv.amount i' = Inv.amount i
        /\ Inv.amountUnconfirmed i' = Inv.amountUnconfirmed i
        /\ Inv.paidAt i' = Inv.paidAt i
        /\ (Inv.isPaid i = true -> Inv.isPaid i' = true)
  end.
Proof.
  intros st'. subst st'.
  destruct (sweep_heap_lookup fuel recipient invoices lastTrxRead callback
              st r) as [totals ->].
  destruct (heap st !! r) as [i|]; [|done].
  exists (applyTotals totals i). split; [done|].
  apply applyTotals_keeps.
Qed.

(** What the handlers of the promise do with a page, for a caller that
    passed a function. *)
Lemma settle_function p page arity st :
  incoming (p_recipient p) (p_lastTrxRead p) = Some page ->
  p_callback p = AFunction arity ->
  let pass := saveIncomingPaymentsHistory page st in
  trace (fst (settle incoming p st))
  = trace st
    ++ match snd pass with
       | Ok last =>
           if isFalse last || (length page <? 25)%nat
           then [CallHistory (byInvoice (hist (fst pass)))]
           else if (length page =? 25)%nat then [LogError]
           else []
       | Throw _ => [LogError]
       end.
Proof.
  intros Hpage Hcb pass. subst pass. unfold settle. rewrite Hpage.
  unfold catch, onFulfilled, Eff.bind at 1.
  pose proof (save_result page st) as Hres.
  destruct (save_frame page st) as (Htrace & _).
  destruct (saveIncomingPaymentsHistory page st) as [s1 [l|e]];
    cbn [fst snd] in *.
  2:{ cbn. by rewrite Htrace. }
  specialize (Hres l eq_refl).
  unfold Eff.bind at 1. rewrite Hcb.
  destruct (isFalse l) eqn:Hfalse; cbn [negb andb orb].
  - unfold Eff.ret at 1. cbn. by rewrite Htrace.
  - assert (Hl : l = ANull \/ exists i, l = idArg i).
    { destruct Hres as [->|Hres]; [discriminate|exact Hres]. }
    destruct (length page =? 25)%nat eqn:Hlen.
    + rewrite (recursive_call_throws (p_invoices p) l (AFunction arity)
                 s1 Hl).
      apply Nat.eqb_eq in Hlen. rewrite Hlen.
      cbn. by rewrite Htrace.
    + unfold Eff.ret at 1. cbn [truthy_arg andb].
      destruct (length page <? 25)%nat eqn:Hlt.
      * cbn. by rewrite Htrace.
      * cbn. by rewrite Htrace, app_nil_r.
Qed.

(** X14. What the caller of a sweep over a non-empty array of invoices
    sees when it passed a function: after the one request, the function
    is called with the history exactly when the pass over the page
    returned [false] or the page has fewer than 25 records. A page of 25
    records that was read through, a record that cannot be read and a
    rejected request all end in a logged error without a call. The
    hashes of the answered page are ordinary ones, neither [__proto__]
    nor [hasOwnProperty], none of the latter name was marked before,
    and the numbers of the invoices and the messages of the page are
    made of ASCII characters. *)
Theorem sweep_reports fuel recipient l cursor arity st :
  l <> [] ->
  snd (initEntries l st) = Ok tt ->
  Domain.unpoisoned (hist st) ->
  Domain.asciiNumbers (heap st) l ->
  (forall page, incoming recipient cursor = Some page ->
     forallb Domain.ordinaryHash page = true
     /\ forallb Domain.asciiMessage page = true) ->
  let sc := logged (Request recipient cursor) (fst (initEntries l st)) in
  let run :=
    fetchInvoicesRealHistory incoming (S fuel) recipient (AInvoices l)
      cursor (AFunction arity) st in
  snd run = Ok true
  /\ trace (fst run)
     = trace st
       ++ Request recipient cursor
          :: match incoming recipient cursor with
             | None => [LogError]
             | Some page =>
                 let pass := saveIncomingPaymentsHistory page sc in
                 match snd pass with
                 | Ok last =>
                     if isFalse last || (length page <? 25)%nat
                     then [CallHistory (byInvoice (hist (fst pass)))]
                     else if (length page =? 25)%nat then [LogError]
                     else []
                 | Throw _ => [LogError]
                 end
             end.
Proof.
  intros Hl Hinit _ _ _ sc run. subst run.
  rewrite fetch_run.
  rewrite (fetch_call_sends recipient l cursor (AFunction arity) st Hl Hinit).
  fold sc. cbn [fst snd]. split; [done|].
  assert (Hsc : trace sc = trace st ++ [Request recipient cursor]).
  { subst sc. cbn [logged trace].
    by rewrite (proj2 (proj2 (initEntries_frame l st))). }
  set (p := {| p_recipient := recipient; p_invoices := AInvoices l;
               p_lastTrxRead := cursor; p_callback := AFunction arity |}).
  destruct (incoming recipient cursor) as [page|] eqn:Hpage.
  - rewrite (settle_function p page arity sc Hpage eq_refl).
    rewrite Hsc, <- app_assoc. done.
  - rewrite (settle_rejected incoming p sc Hpage).
    change (trace (fst (logged LogError sc, Ok None : res (option pending))))
      with (trace sc ++ [LogError]).
    rewrite Hsc, <- app_assoc. done.
Qed.

(** X15. Sweeps that end before anything is asked of the gateway. With
    an empty array of invoices the function passed as callback is called
    with [false], and nothing else happens. Called as the history route
    calls it, with the invoices in the first place, [null] in the second
    and the function in the third, the sweep raises a [TypeError] on
    [null.length] and leaves the state as it was. *)
Theorem sweep_ends_before_request fuel recipient cursor arity l st :
  fetchInvoicesRealHistory incoming fuel recipient (AInvoices []) cursor
    (AFunction arity) st
  = (logged CallFalse st, Ok true)
  /\ fetchInvoicesRealHistory incoming fuel (AInvoices l) ANull
       (AFunction arity) AUndefined st
     = (st, Throw TypeError).
Proof. split; by destruct fuel. Qed.

(** The accumulators after the first loop of a sweep. *)
Lemma initEntries_accumulators l st :
  snd (initEntries l st) = Ok tt ->
  let before := byInvoice (hist st) in
  let after := byInvoice (hist (fst (initEntries l st))) in
  (forall k e, lookupEntry k before = Some e -> lookupEntry k after = Some e)
  /\ (forall k e,
        lookupEntry k before = None -> lookupEntry k after = Some e ->
        transactions e = [] /\ totalPaid e = JNum 0
        /\ invoice e ∈ l
        /\ exists inv,
             heap st !! invoice e = Some inv
             /\ toUpperCase (Inv.number inv) = k).
Proof.
  revert st. induction l as [|r l IH]; intros st Hok before after.
  - subst before after. cbn. split; [done|]. intros k e Hb Ha. congruence.
  - subst before after. cbn [initEntries] in *.
    unfold Eff.bind, Eff.get, Eff.lift in *.
    destruct (heap st !! r) as [inv|] eqn:Hr; cbn [deref] in *; [|done].
    destruct (hasOwnProperty (byInvoice (hist st))
                (toUpperCase (Inv.number inv))) eqn:Hown.
    + unfold Eff.ret in *. specialize (IH st Hok). cbv zeta in IH.
      destruct IH as [Hkeep Hnew]. split; [exact Hkeep|].
      intros k e Hb Ha. destruct (Hnew k e Hb Ha) as (? & ? & ? & ?).
      repeat split; try done. apply elem_of_cons. by right.
    + unfold setHistory, Eff.modify in *.
      set (st1 := withHistory _ st) in *.
      specialize (IH st1 Hok). cbv zeta in IH.
      destruct IH as [Hkeep Hnew].
      assert (Hnone : lookupEntry (toUpperCase (Inv.number inv))
                        (byInvoice (hist st)) = None).
      { unfold hasOwnProperty in Hown.
        apply bool_decide_eq_false_1 in Hown.
        destruct (lookupEntry _ _) as [e0|]; [|done].
        destruct Hown. by eexists. }
      split.
      * intros k e Hb. apply Hkeep. subst st1.
        cbn [withHistory paymentTransactionHistory_ byInvoice].
        rewrite lookupEntry_app, Hb. done.
      * intros k e Hb Ha.
        destruct (decide (k = toUpperCase (Inv.number inv))) as [->|Hk].
        -- assert (Hadded : lookupEntry (toUpperCase (Inv.number inv))
                              (byInvoice (hist st1))
                            = Some {| transactions := []; totalPaid := JNum 0;
                                      invoice := r |}).
           { subst st1.
             cbn [withHistory paymentTransactionHistory_ byInvoice].
             rewrite lookupEntry_app, Hnone. cbn.
             by rewrite bool_decide_eq_true_2. }
           rewrite (Hkeep _ _ Hadded) in Ha. injection Ha as <-.
           cbn. repeat split; try done.
           ++ apply elem_of_cons. by left.
           ++ by exists inv.
        -- assert (Hb1 : lookupEntry k (byInvoice (hist st1)) = None).
           { subst st1.
             cbn [withHistory paymentTransactionHistory_ byInvoice].
             rewrite lookupEntry_app, Hb. cbn.
             by rewrite bool_decide_eq_false_2. }
           destruct (Hnew k e Hb1 Ha) as (? & ? & ? & inv' & Hinv' & ?).
           repeat split; try done.
           ++ apply elem_of_cons. by right.
           ++ exists inv'. split; [|done]. exact Hinv'.
Qed.

(** X16. The first loop of a sweep keeps every accumulator that exists,
    with its transactions and its total. An accumulator that it adds is
    empty, with a total of 0, and belongs to an invoice of the array
    whose upper-cased number is its key; every invoice of the array has
    an accumulator under its upper-cased number afterwards. The numbers
    of the invoices are made of ASCII characters. *)
Theorem sweep_keeps_accumulators l st :
  Domain.asciiNumbers (heap st) l ->
  snd (initEntries l st) = Ok tt ->
  let before := byInvoice (hist st) in
  let after := byInvoice (hist (fst (initEntries l st))) in
  (forall k e, lookupEntry k before = Some e -> lookupEntry k after = Some e)
  /\ (forall k e,
        lookupEntry k before = None -> lookupEntry k after = Some e ->
        transactions e = [] /\ totalPaid e = JNum 0
        /\ invoice e ∈ l
        /\ exists inv,
             heap st !! invoice e = Some inv
             /\ toUpperCase (Inv.number inv) = k)
  /\ (forall r inv,
        r ∈ l -> heap st !! r = Some inv ->
        is_Some (lookupEntry (toUpperCase (Inv.number inv)) after)).
Proof.
  intros _ Hok before after.
  destruct (initEntries_accumulators l st Hok) as [Hkeep Hnew].
  split; [exact Hkeep|]. split; [exact Hnew|].
  intros r inv Hin Hr.
  pose proof (initEntries_keys l st r inv Hok Hin Hr) as Hown.
  unfold hasOwnProperty in Hown. by apply bool_decide_eq_true_1 in Hown.
Qed.

End Outcome.

(** X14, an instance: a page of two payments for [INV-1]. *)
Lemma sweep_reports_witness :
  let run :=
    @Reconciliation.fetchInvoicesRealHistory Demo.floats Demo.chain
      (Demo.always [Demo.payment "b" 2 600000; Demo.payment "a" 1 400000]) 1
      (Reconciliation.AString "TRECIPIENT") (Reconciliation.AInvoices [0%nat])
      Reconciliation.ANull (Reconciliation.AFunction 1) Demo.start in
  Reconciliation.trace (fst run)
  = [Reconciliation.Request (Reconciliation.AString "TRECIPIENT")
       Reconciliation.ANull;
     Reconciliation.CallHistory
       [("INV-1",
         {| Reconciliation.transactions :=
              [Demo.payment "b" 2 600000; Demo.payment "a" 1 400000];
            Reconciliation.totalPaid := JNum 1000000;
            Reconciliation.invoice := 0%nat |})]].
Proof.
  intros run.
  destruct (@sweep_reports Demo.floats Demo.chain
              (Demo.always [Demo.payment "b" 2 600000;
                            Demo.payment "a" 1 400000])
              0 (Reconciliation.AString "TRECIPIENT") [0%nat]
              Reconciliation.ANull 1 Demo.start)
    as [_ Htrace].
  - discriminate.
  - reflexivity.
  - unpoisoned_state.
  - intros r inv Hr Hinv. apply list_elem_of_singleton in Hr. subst r.
    vm_compute in Hinv. injection Hinv as <-. reflexivity.
  - intros page [= <-]. split; reflexivity.
  - subst run. rewrite Htrace. vm_compute. reflexivity.
Defined.

(** X16, an instance: the first sweep over the invoice [INV-1]. *)
Lemma sweep_keeps_accumulators_witness :
  is_Some
    (Reconciliation.lookupEntry "INV-1"
       (Reconciliation.byInvoice
          (Reconciliation.paymentTransactionHistory_
             (fst (Reconciliation.initEntries [0%nat] Demo.start))))).
Proof.
  assert (Hascii : Domain.asciiNumbers (Reconciliation.heap Demo.start)
                     [0%nat]).
  { intros r inv Hr Hinv. apply list_elem_of_singleton in Hr. subst r.
    vm_compute in Hinv. injection Hinv as <-. reflexivity. }
  destruct (sweep_keeps_accumulators [0%nat] Demo.start Hascii eq_refl)
    as (_ & _ & Hall).
  apply (Hall 0%nat Demo.invoice1).
  - apply list_elem_of_here.
  - vm_compute. reflexivity.
Defined.

(** ** The bot protocol and the store *)

Section BotStore.
Context `{FloatOps} `{BotLib}.
Import PaymentsProtocol.

Lemma applyUpdate_keeps now data invoice :
  let invoice' := applyUpdate now data invoice in
  Inv.number invoice' = Inv.number invoice
  /\ Inv.payerXEM invoice' = Inv.payerXEM invoice
  /\ Inv.recipientXEM invoice' = Inv.recipientXEM invoice
  /\ Inv.socketIds invoice' = Inv.socketIds invoice
  /\ Inv.amount invoice' = Inv.amount invoice
  /\ Inv.dirty invoice' = Inv.dirty invoice.
Proof.
  unfold applyUpdate.
  destruct (bool_decide (Upd.status data = Some "unconfirmed"));
    destruct (truthy (Upd.amountPaid data));
    destruct (bool_decide (Upd.status data = Some "paid")); done.
Qed.

Lemma store_numbers doc docs :
  (exists d, d ∈ docs /\ Inv.number d = Inv.number doc) ->
  List.map Inv.number (store doc docs) = List.map Inv.number docs.
Proof.
  induction docs as [|d0 docs IH]; intros (d & Hin & Hnum).
  - by apply elem_of_nil in Hin.
  - cbn. destruct (bool_decide (Inv.number d0 = Inv.number doc)) eqn:Hd.
    + apply bool_decide_eq_true_1 in Hd. cbn. by rewrite Hd.
    + cbn. f_equal. apply IH. exists d. split; [|done].
      apply elem_of_cons in Hin. destruct Hin as [->|Hin]; [|done].
      apply bool_decide_eq_false_1 in Hd. done.
Qed.

Lemma findOne_elem_of q docs invoice :
  findOne q docs = Some invoice ->
  invoice ∈ docs /\ matches q invoice = true.
Proof.
  intros Hfind. apply List.find_some in Hfind.
  destruct Hfind as [Hin Hm]. split; [|done].
  by apply list_elem_of_In.
Qed.

(** The store, the checksums and the channels after [data] has been
    handed to [storeInvoiceStatusUpdate]. *)
Lemma storeInvoiceStatusUpdate_store answers now data st :
  let st' := fst (storeInvoiceStatusUpdate answers now data st) in
  byChecksum st' = byChecksum st
  /\ botChannelSockets_ st' = botChannelSockets_ st
  /\ ((db st' = db st
       /\ (findOne_err answers = true \/ save_err answers = true
           \/ findOne (invoiceQuery data) (db st) = None))
      \/ exists invoice,
           findOne_err answers = false
           /\ save_err answers = false
           /\ findOne (invoiceQuery data) (db st) = Some invoice
           /\ db st' = store (applyUpdate now data invoice) (db st)).
Proof.
  cbv zeta.
  destruct (findOne_err answers) eqn:Hfind.
  { unfold storeInvoiceStatusUpdate, Eff.bind, Eff.get. cbn.
    rewrite Hfind. cbn. split; [done|]. split; [done|]. left. auto. }
  destruct (findOne (invoiceQuery data) (db st)) as [invoice|] eqn:Hinv.
  2:{ unfold storeInvoiceStatusUpdate, Eff.bind, Eff.get. cbn.
      rewrite Hfind, Hinv. cbn. split; [done|]. split; [done|].
      left. auto. }
  destruct (save_err answers) eqn:Hsave.
  { unfold storeInvoiceStatusUpdate, Eff.bind, Eff.get. cbn.
    rewrite Hfind, Hinv, Hsave. cbn. split; [done|]. split; [done|].
    left. auto. }
  pose proof (storeInvoiceStatusUpdate_saved answers now data st invoice
                Hfind Hsave Hinv) as Hrun.
  cbv zeta in Hrun.
  destruct ((bool_decide (Upd.status data = Some "paid")
             || bool_decide (Upd.status data = Some "unconfirmed"))
            && Inv.isPaid (applyUpdate now data invoice)
            && negb (js_lt (Inv.getTotalIncoming (applyUpdate now data invoice))
                       (Inv.amount (applyUpdate now data invoice)))).
  - destruct (processPaymentChannelSuccess_run (applyUpdate now data invoice)
                (if resave_err answers
                 then saved (applyUpdate now data invoice) st
                 else saved (applyUpdate now data invoice)
                        (saved (applyUpdate now data invoice) st)))
      as (r & Hr & _).
    rewrite Hrun, Hr. cbn [fst].
    destruct (resave_err answers); cbn [logged saved db byChecksum
                                        botChannelSockets_];
      (split; [done|]); (split; [done|]); right; exists invoice;
      rewrite ?store_twice; done.
  - rewrite Hrun. cbn [fst saved db byChecksum botChannelSockets_].
    split; [done|]. split; [done|]. right. by exists invoice.
Qed.

Lemma elem_of_store doc x docs :
  doc ∈ store x docs -> doc = x \/ doc ∈ docs.
Proof.
  induction docs as [|d docs IH]; cbn.
  - intros Hin. apply list_elem_of_singleton in Hin. by left.
  - destruct (bool_decide (Inv.number d = Inv.number x)).
    + intros Hin. apply elem_of_cons in Hin. destruct Hin as [->|Hin].
      * by left.
      * right. apply elem_of_cons. by right.
    + intros Hin. apply elem_of_cons in Hin. destruct Hin as [->|Hin].
      * right. apply elem_of_cons. by left.
      * destruct (IH Hin) as [->|Hd]; [by left|].
        right. apply elem_of_cons. by right.
Qed.

(** The listener, case by case. *)
Lemma listener_run client answers now raw st :
  nembot_payment_status_update client answers now raw st
  = if bool_decide (is_Some (byChecksum st !! MD5 raw))
    then (st, Ok (Some false))
    else
      match JSON_parse raw with
      | Throw e => (logged (Log "info") st, Throw e)
      | Ok None =>
          (recorded (MD5 raw) None (logged (Log "info") st), Throw TypeError)
      | Ok (Some d) =>
          match storeInvoiceStatusUpdate answers now d
                  (logged (ClientEmit client "nem2pay_payment_status_update"
                             {| cd_status := Upd.status d; paymentData := d |})
                     (recorded (MD5 raw) (Some d) (logged (Log "info") st)))
          with
          | (st', Ok _) => (st', Ok None)
          | (st', Throw e) => (st', Throw e)
          end
      end.
Proof.
  unfold nembot_payment_status_update, Eff.bind at 1, Eff.get.
  destruct (bool_decide (is_Some (byChecksum st !! MD5 raw))); [done|].
  unfold Eff.bind, emit, recordChecksum, Eff.modify, Eff.lift. cbn.
  destruct (JSON_parse raw) as [[d|]|e]; cbn; try done;
    destruct (storeInvoiceStatusUpdate answers now d _) as [s [x|e']]; done.
Qed.

(** X17. Whatever payload the listener receives and whatever the store
    answers, the store holds the same invoice numbers in the same order
    afterwards, and every document in it is one that was there or the
    updated copy of the document that the update matched. The listener
    never touches the registered channels, and every checksum that was
    recorded stays recorded with its value. *)
Theorem listener_keeps_documents client answers now raw st :
  let st' := fst (nembot_payment_status_update client answers now raw st) in
  List.map Inv.number (db st') = List.map Inv.number (db st)
  /\ (forall doc,
        doc ∈ db st' ->
        doc ∈ db st
        \/ exists d invoice,
             JSON_parse raw = Ok (Some d)
             /\ findOne (invoiceQuery d) (db st) = Some invoice
             /\ doc = applyUpdate now d invoice)
  /\ botChannelSockets_ st' = botChannelSockets_ st
  /\ (forall c v, byChecksum st !! c = Some v -> byChecksum st' !! c = Some v).
Proof.
  cbv zeta. rewrite listener_run.
  destruct (bool_decide (is_Some (byChecksum st !! MD5 raw))) eqn:Hseen.
  { cbn. repeat split; auto. }
  apply bool_decide_eq_false_1 in Hseen.
  assert (Hnew : byChecksum st !! MD5 raw = None).
  { destruct (byChecksum st !! MD5 raw) eqn:Hc; [|done].
    destruct Hseen. by eexists. }
  assert (Hkept : forall (x : option Upd.t) c v,
            byChecksum st !! c = Some v ->
            <[MD5 raw := x]> (byChecksum st) !! c = Some v).
  { intros x c v Hc. rewrite lookup_insert_ne; [done|]. congruence. }
  destruct (JSON_parse raw) as [[d|]|e] eqn:Hparse.
  - set (s1 := logged _ (recorded _ _ _)).
    pose proof (storeInvoiceStatusUpdate_store answers now d s1) as Hstore.
    cbv zeta in Hstore.
    assert (Hfst : fst (match storeInvoiceStatusUpdate answers now d s1 with
                        | (st', Ok _) => (st', Ok None)
                        | (st', Throw e) => (st', Throw e)
                        end : botState * res (option bool))
                   = fst (storeInvoiceStatusUpdate answers now d s1)).
    { by destruct (storeInvoiceStatusUpdate answers now d s1) as [? [?|?]]. }
    rewrite Hfst.
    destruct Hstore as (Hsum & Hchan & Hdb).
    rewrite Hsum, Hchan.
    change (db s1) with (db st) in Hdb.
    destruct Hdb as [(Hdb & _)|(invoice & _ & _ & Hinv & Hdb)]; rewrite Hdb.
    + repeat split; auto. intros c v Hc. by apply Hkept.
    + destruct (findOne_elem_of _ _ _ Hinv) as [Hin _].
      destruct (applyUpdate_keeps now d invoice) as (Hnum & _).
      split; [|split; [|split]].
      * apply store_numbers. by exists invoice.
      * intros doc Hdoc. apply elem_of_store in Hdoc.
        destruct Hdoc as [->|Hdoc]; [|by left].
        right. by exists d, invoice.
      * done.
      * intros c v Hc. by apply Hkept.
  - cbn. repeat split; auto.
  - cbn. repeat split; auto.
Qed.

(** X18. An update whose status is neither [paid] nor [unconfirmed] is
    saved and nothing more, however much the invoice has received: the
    invoice takes the status of the update, and the paid amount of the
    update when that is truthy; its paid flag, its payment date and its
    unconfirmed amount are left as they were. *)
Theorem other_status_only_saved answers now data st invoice :
  findOne_err answers = false ->
  save_err answers = false ->
  findOne (invoiceQuery data) (db st) = Some invoice ->
  Upd.status data <> Some "paid" ->
  Upd.status data <> Some "unconfirmed" ->
  let invoice' := applyUpdate now data invoice in
  storeInvoiceStatusUpdate answers now data st = (saved invoice' st, Ok tt)
  /\ Inv.status invoice' = Upd.status data
  /\ Inv.amountPaid invoice'
     = (if truthy (Upd.amountPaid data) then Upd.amountPaid data
        else Inv.amountPaid invoice)
  /\ Inv.amountUnconfirmed invoice' = Inv.amountUnconfirmed invoice
  /\ Inv.isPaid invoice' = Inv.isPaid invoice
  /\ Inv.paidAt invoice' = Inv.paidAt invoice.
Proof.
  intros Hfind Hsave Hinv Hpaid Hunc invoice'.
  pose proof (storeInvoiceStatusUpdate_saved answers now data st invoice
                Hfind Hsave Hinv) as Hrun.
  cbv zeta in Hrun. subst invoice'.
  rewrite (bool_decide_eq_false_2 _ Hpaid),
    (bool_decide_eq_false_2 _ Hunc) in Hrun.
  cbn [orb andb] in Hrun. split; [exact Hrun|].
  unfold applyUpdate.
  rewrite (bool_decide_eq_false_2 _ Hpaid), (bool_decide_eq_false_2 _ Hunc).
  destruct (truthy (Upd.amountPaid data)); done.
Qed.

(** X19. An update whose message and whose sender are each absent or
    the empty string is looked up with an empty query, which the first
    document of the store answers: that document is the one that is
    updated and saved. *)
Theorem update_without_reference_hits_first_document answers now data st
    first rest :
  Upd.message data = None \/ Upd.message data = Some "" ->
  Upd.sender data = None \/ Upd.sender data = Some "" ->
  findOne_err answers = false ->
  save_err answers = false ->
  db st = first :: rest ->
  db (fst (storeInvoiceStatusUpdate answers now data st))
  = applyUpdate now data first :: rest.
Proof.
  intros Hmsg Hsender Hfind Hsave Hdb.
  assert (Hinv : findOne (invoiceQuery data) (db st) = Some first).
  { unfold invoiceQuery.
    destruct Hmsg as [-> | ->]; destruct Hsender as [-> | ->];
      rewrite Hdb; done. }
  pose proof (storeInvoiceStatusUpdate_store answers now data st) as Hstore.
  cbv zeta in Hstore.
  destruct Hstore as (_ & _ & [(_ & Hno)|(invoice & _ & _ & Hinv' & Hst)]).
  - destruct Hno as [Hno|[Hno|Hno]]; congruence.
  - rewrite Hinv in Hinv'. injection Hinv' as <-.
    rewrite Hst, Hdb. cbn [store].
    destruct (applyUpdate_keeps now data first) as (Hnum & _).
    by rewrite bool_decide_eq_true_2.
Qed.

(** X20. Payloads that carry no update. The JSON value [null] is
    recorded under its checksum before the read of its status raises a
    [TypeError], so a second delivery is discarded without a trace. A
    text that is not JSON raises before anything is recorded, so every
    delivery raises again. Neither forwards anything nor touches the
    store. *)
Theorem payloads_without_update client a1 n1 a2 n2 raw st :
  byChecksum st !! MD5 raw = None ->
  let first := nembot_payment_status_update client a1 n1 raw st in
  let second := nembot_payment_status_update client a2 n2 raw (fst first) in
  (JSON_parse raw = Ok None ->
   first = (recorded (MD5 raw) None (logged (Log "info") st), Throw TypeError)
   /\ second = (fst first, Ok (Some false)))
  /\ (forall e, JSON_parse raw = Throw e ->
      first = (logged (Log "info") st, Throw e)
      /\ second = (logged (Log "info") (logged (Log "info") st), Throw e)).
Proof.
  intros Hnew first second. subst first second.
  assert (Hnot : bool_decide (is_Some (byChecksum st !! MD5 raw)) = false).
  { apply bool_decide_eq_false_2. rewrite Hnew. intros [x [=]]. }
  split.
  - intros Hparse. rewrite !listener_run, Hnot, Hparse. cbn [fst].
    split; [done|].
    rewrite bool_decide_eq_true_2; [done|].
    cbn [recorded byChecksum]. rewrite lookup_insert_eq. by eexists.
  - intros e Hparse. rewrite !listener_run, Hnot, Hparse. cbn [fst].
    split; [done|].
    cbn [logged byChecksum]. by rewrite Hnot.
Qed.

(** What is left of an update when the store reports an error. *)
Lemma storeInvoiceStatusUpdate_failed answers now data st :
  findOne_err answers = true \/ save_err answers = true ->
  exists evs,
    storeInvoiceStatusUpdate answers now data st
    = ({| db := db st; byChecksum := byChecksum st;
          botChannelSockets_ := botChannelSockets_ st;
          trace := trace st ++ evs |}, Ok tt)
    /\ (evs = [] \/ evs = [Log "error"]).
Proof.
  intros Herr. unfold storeInvoiceStatusUpdate, Eff.bind, Eff.get.
  destruct (findOne_err answers) eqn:Hfind.
  { exists []. rewrite app_nil_r. split; [by destruct st|by left]. }
  destruct Herr as [Herr|Hsave]; [done|].
  destruct (findOne (invoiceQuery data) (db st)) as [invoice|].
  - rewrite Hsave. exists [Log "error"]. split; [done|by right].
  - exists []. rewrite app_nil_r. split; [by destruct st|by left].
Qed.

(** X21. An update that parses but meets an error of the store, on the
    lookup or on the save, is lost: it is forwarded to the client and
    its checksum is recorded, the store stays as it was, and the same
    payload delivered again is discarded even when the store works by
    then. *)
Theorem failed_save_loses_update client a1 n1 a2 n2 raw d st :
  byChecksum st !! MD5 raw = None ->
  JSON_parse raw = Ok (Some d) ->
  findOne_err a1 = true \/ save_err a1 = true ->
  let first := nembot_payment_status_update client a1 n1 raw st in
  let second := nembot_payment_status_update client a2 n2 raw (fst first) in
  snd first = Ok None
  /\ second = (fst first, Ok (Some false))
  /\ db (fst second) = db st
  /\ count isSave (trace (fst second)) = count isSave (trace st)
  /\ count isForward (trace (fst second))
     = (count isForward (trace st) + 1)%nat.
Proof.
  intros Hnew Hparse Herr first second. subst second first.
  assert (Hnot : bool_decide (is_Some (byChecksum st !! MD5 raw)) = false).
  { apply bool_decide_eq_false_2. rewrite Hnew. intros [x [=]]. }
  rewrite (listener_run client a1), Hnot, Hparse.
  set (s1 := logged _ (recorded _ _ _)).
  destruct (storeInvoiceStatusUpdate_failed a1 n1 d s1 Herr)
    as (evs & -> & Hevs).
  cbn [fst snd]. split; [done|].
  rewrite listener_run. cbn [byChecksum s1 logged recorded].
  rewrite bool_decide_eq_true_2
    by (rewrite lookup_insert_eq; by eexists).
  cbn [fst snd db trace]. split; [done|]. split; [done|].
  subst s1. cbn [logged recorded trace]. rewrite !count_app.
  destruct Hevs as [-> | ->]; unfold count; simpl; split; lia.
Qed.




End BotStore.

(** X18, an instance: an [expired] update for an invoice that is
    flagged as paid. *)
Lemma other_status_only_saved_witness :
  let invoice' := Inv.set_status (Some "expired") Demo.invoice1_flagged in
  @PaymentsProtocol.storeInvoiceStatusUpdate Demo.floats Demo.allFine 17
    Samples.expired (Demo.fresh [Demo.invoice1_flagged])
  = (PaymentsProtocol.saved invoice' (Demo.fresh [Demo.invoice1_flagged]),
     Ok tt)
  /\ Inv.isPaid invoice' = true
  /\ Inv.amountPaid invoice' = JNum 400000.
Proof.
  intros invoice'.
  destruct (@other_status_only_saved Demo.floats Demo.allFine 17
              Samples.expired (Demo.fresh [Demo.invoice1_flagged])
              Demo.invoice1_flagged)
    as (Hrun & _ & Hpaid & _ & Hflag & _).
  - reflexivity.
  - reflexivity.
  - reflexivity.
  - discriminate.
  - discriminate.
  - split; [exact Hrun|]. split; [exact Hflag|exact Hpaid].
Defined.

(** X19, an instance: the store holds [INV-1] and [INV-2]. *)
Lemma update_without_reference_hits_first_document_witness :
  PaymentsProtocol.db
    (fst (@PaymentsProtocol.storeInvoiceStatusUpdate Demo.floats
            Demo.allFine 17 Samples.anonymous
            (Demo.fresh [Demo.invoice1; Samples.invoice2])))
  = [Inv.set_status (Some "expired") Demo.invoice1; Samples.invoice2].
Proof.
  rewrite (@update_without_reference_hits_first_document Demo.floats
             Demo.allFine 17 Samples.anonymous
             (Demo.fresh [Demo.invoice1; Samples.invoice2])
             Demo.invoice1 [Samples.invoice2]);
    first [reflexivity|left; reflexivity].
Defined.

(** X20, an instance: the texts [null] and [oops]. *)
Lemma payloads_without_update_witness :
  let deliver raw st :=
    @PaymentsProtocol.nembot_payment_status_update Demo.floats
      Samples.nullAware "client-1" Demo.allFine 17 raw st in
  let st0 := Demo.fresh [Demo.invoice1] in
  snd (deliver "null" st0) = Throw TypeError
  /\ snd (deliver "null" (fst (deliver "null" st0))) = Ok (Some false)
  /\ snd (deliver "oops" st0) = Throw SyntaxError
  /\ snd (deliver "oops" (fst (deliver "oops" st0))) = Throw SyntaxError.
Proof.
  intros deliver st0.
  destruct (@payloads_without_update Demo.floats Samples.nullAware
              "client-1" Demo.allFine 17 Demo.allFine 17 "null" st0
              eq_refl) as [Hnull _].
  destruct (@payloads_without_update Demo.floats Samples.nullAware
              "client-1" Demo.allFine 17 Demo.allFine 17 "oops" st0
              eq_refl) as [_ Hbad].
  destruct (Hnull eq_refl) as [Hn1 Hn2].
  destruct (Hbad SyntaxError eq_refl) as [Hb1 Hb2].
  subst deliver. cbv beta.
  rewrite Hn2, Hn1, Hb2, Hb1. done.
Defined.

(** X21, an instance: the paid update for [INV-1] while the store cannot
    save, delivered again when it can. *)
Lemma failed_save_loses_update_witness :
  let first :=
    @PaymentsProtocol.nembot_payment_status_update Demo.floats Demo.bot
      "client-1" Samples.saveFails 17 Demo.paid1000_text
      (Demo.fresh [Demo.invoice1]) in
  let second :=
    @PaymentsProtocol.nembot_payment_status_update Demo.floats Demo.bot
      "client-1" Demo.allFine 18 Demo.paid1000_text (fst first) in
  snd second = Ok (Some false)
  /\ PaymentsProtocol.db (fst second) = [Demo.invoice1].
Proof.
  intros first second.
  destruct (@failed_save_loses_update Demo.floats Demo.bot "client-1"
              Samples.saveFails 17 Demo.allFine 18 Demo.paid1000_text
              Demo.paid1000 (Demo.fresh [Demo.invoice1]))
    as (_ & Hsecond & Hdb & _).
  - reflexivity.
  - reflexivity.
  - right. reflexivity.
  - split; [|exact Hdb]. subst second first. by rewrite Hsecond.
Defined.

(** ** Methods of the invoice model *)

Section InvoiceMethods.
Import Reconciliation Methods.

Lemma upper_ascii_dash c : upper_ascii c = "-"%char <-> c = "-"%char.
Proof.
  destruct c as [[] [] [] [] [] [] [] []]; vm_compute; split; congruence.
Qed.

Lemma upper_ascii_twice c : upper_ascii (upper_ascii c) = upper_ascii c.
Proof. destruct c as [[] [] [] [] [] [] [] []]; reflexivity. Qed.

Lemma removeDashes_app a b :
  removeDashes (a ++ b)%string = (removeDashes a ++ removeDashes b)%string.
Proof.
  induction a as [|c a IH]; [done|].
  change (removeDashes (String c (a ++ b)%string)
          = (removeDashes (String c a) ++ removeDashes b)%string).
  cbn [removeDashes]. destruct (bool_decide (c = "-"%char)); [done|].
  change (String c (removeDashes (a ++ b)%string)
          = String c (removeDashes a ++ removeDashes b)%string).
  by rewrite IH.
Qed.

Lemma toUpperCase_app a b :
  toUpperCase (a ++ b)%string = (toUpperCase a ++ toUpperCase b)%string.
Proof.
  induction a as [|c a IH]; [done|].
  change (toUpperCase (String c (a ++ b)%string)
          = String (upper_ascii c) (toUpperCase a ++ toUpperCase b)%string).
  cbn [toUpperCase]. by rewrite IH.
Qed.

Lemma normal_form_chars s c :
  In c (list_ascii_of_string (removeDashes (toUpperCase s))) ->
  c <> "-"%char /\ upper_ascii c = c.
Proof.
  induction s as [|c0 s IH]; cbn [toUpperCase removeDashes]; [done|].
  destruct (bool_decide (upper_ascii c0 = "-"%char)) eqn:Hd; [done|].
  apply bool_decide_eq_false_1 in Hd.
  cbn [list_ascii_of_string In]. intros [<-|Hin]; [|by apply IH].
  split; [done|apply upper_ascii_twice].
Qed.

Lemma normal_form_twice s :
  removeDashes (toUpperCase (removeDashes (toUpperCase s)))
  = removeDashes (toUpperCase s).
Proof.
  induction s as [|c s IH]; cbn [toUpperCase removeDashes]; [done|].
  destruct (bool_decide (upper_ascii c = "-"%char)) eqn:Hd; [done|].
  cbn [toUpperCase removeDashes].
  by rewrite upper_ascii_twice, Hd, IH.
Qed.

(** X24. The payer address as [getPayer] returns it, for an address of
    ASCII characters: it holds no dash and no lower-case letter, it is
    left as it is when it is normalised again, and it does not depend on
    the dashes and on the letter case of the stored address. *)
Theorem getPayer_normal_form (i j : Inv.t) (a b : string) :
  isAscii (Inv.payerXEM i) = true ->
  (forall c, In c (list_ascii_of_string (getPayer i)) ->
     c <> "-"%char /\ upper_ascii c = c)
  /\ (Inv.payerXEM j = getPayer i -> getPayer j = getPayer i)
  /\ (Inv.payerXEM j = toUpperCase (Inv.payerXEM i) ->
      getPayer j = getPayer i)
  /\ (Inv.payerXEM i = (a ++ "-" ++ b)%string ->
      Inv.payerXEM j = (a ++ b)%string ->
      getPayer i = getPayer j).
Proof.
  intros _. unfold getPayer. split; [|split; [|split]].
  - intros c. apply normal_form_chars.
  - intros ->. apply normal_form_twice.
  - intros ->. f_equal. clear.
    induction (Inv.payerXEM i) as [|c s IH]; cbn [toUpperCase]; [done|].
    by rewrite upper_ascii_twice, IH.
  - intros -> ->.
    rewrite !toUpperCase_app, !removeDashes_app. done.
Qed.

Lemma length_substring_0 n s :
  String.length (substring 0 n s) = Nat.min n (String.length s).
Proof.
  revert n. induction s as [|c s IH]; intros [|n]; cbn; try done.
  by rewrite IH.
Qed.

Lemma substring_all n s :
  (String.length s <= n)%nat -> substring 0 n s = s.
Proof.
  revert n. induction s as [|c s IH]; intros [|n] Hn; cbn in *; try done.
  - lia.
  - rewrite IH; [done|lia].
Qed.

Lemma length_substring n m s :
  (n <= String.length s)%nat ->
  String.length (substring n m s) = Nat.min m (String.length s - n).
Proof.
  revert n. induction s as [|c s IH]; intros [|n] Hn; cbn in *.
  - by destruct m.
  - lia.
  - destruct m; cbn; [done|]. rewrite length_substring_0. lia.
  - rewrite IH; [done|lia].
Qed.

Lemma length_append (a b : string) :
  String.length (a ++ b)%string = (String.length a + String.length b)%nat.
Proof.
  induction a as [|c a IH]; [done|].
  change (S (String.length (a ++ b)%string)
          = S (String.length a + String.length b)).
  by rewrite IH.
Qed.

Lemma substring_prefix n s :
  exists rest, s = (substring 0 n s ++ rest)%string.
Proof.
  revert n. induction s as [|c s IH]; intros [|n].
  - by exists "".
  - by exists "".
  - by exists (String c s).
  - destruct (IH n) as [rest Hrest]. exists rest.
    change (String c s = String c (substring 0 n s ++ rest)%string).
    by rewrite <- Hrest.
Qed.

Lemma substring_suffix n m s :
  (String.length s - n <= m)%nat ->
  exists front, s = (front ++ substring n m s)%string.
Proof.
  revert n. induction s as [|c s IH]; intros [|n] Hm; cbn in Hm.
  - exists "". by destruct m.
  - by exists "".
  - exists "". rewrite substring_all; [done|cbn; lia].
  - destruct (IH n Hm) as [front Hfront]. exists (String c front).
    change (String c s = String c (front ++ substring n m s)%string).
    by rewrite <- Hfront.
Qed.

(** X25. The recipient address as [getTruncatedRecipient] shows it, for
    an address of ASCII characters: the empty address gives the empty
    text; any other gives a start of the address of at most 6
    characters, three dots, and an end of at most 4 characters. An
    address of up to 4 characters is shown twice around the dots, so the
    text is shorter than the address only from 14 characters on. *)
Theorem getTruncatedRecipient_shape (this : Inv.t) :
  isAscii (Inv.recipientXEM this) = true ->
  let s := Inv.recipientXEM this in
  let shown := getTruncatedRecipient this in
  (s = "" -> shown = "")
  /\ (s <> "" ->
      exists first last front rest,
        shown = (first ++ "..." ++ last)%string
        /\ s = (first ++ rest)%string
        /\ s = (front ++ last)%string
        /\ String.length first = Nat.min 6 (String.length s)
        /\ String.length last = Nat.min 4 (String.length s))
  /\ (s <> "" -> (String.length s <= 4)%nat ->
      shown = (s ++ "..." ++ s)%string)
  /\ ((String.length shown < String.length s)%nat <->
      (14 <= String.length s)%nat).
Proof.
  intros _ s shown. subst shown. unfold getTruncatedRecipient. fold s.
  assert (Hlast : String.length (substr_last 4 s)
                  = Nat.min 4 (String.length s)).
  { unfold substr_last. rewrite length_substring; lia. }
  split; [|split; [|split]].
  - intros ->. done.
  - intros Hs. rewrite bool_decide_eq_false_2 by done.
    destruct (substring_prefix 6 s) as [rest Hrest].
    destruct (substring_suffix (String.length s - 4) 4 s) as [front Hfront];
      [lia|].
    exists (substr_first 6 s), (substr_last 4 s), front, rest.
    split; [done|]. split; [exact Hrest|]. split; [exact Hfront|].
    split; [apply length_substring_0|exact Hlast].
  - intros Hs Hlen. rewrite bool_decide_eq_false_2 by done.
    unfold substr_first, substr_last.
    replace (String.length s - 4)%nat with 0%nat by lia.
    rewrite !substring_all by lia. done.
  - destruct (bool_decide (s = "")) eqn:Hs.
    + apply bool_decide_eq_true_1 in Hs. rewrite Hs. cbn. lia.
    + rewrite !length_append, Hlast.
      unfold substr_first. rewrite length_substring_0.
      change (String.length "...") with 3%nat. lia.
Qed.

End InvoiceMethods.

(** X24, an instance: an address with a dash, in lower case. *)
Lemma getPayer_normal_form_witness :
  Methods.getPayer Samples.dashed = "TDWZ55R5VIK"
  /\ Methods.getPayer Samples.dashed = Methods.getPayer Samples.plain.
Proof.
  destruct (getPayer_normal_form Samples.dashed Samples.plain
              "tdwz55" "r5vik" eq_refl) as (_ & _ & _ & Hsame).
  split; [reflexivity|]. apply Hsame; reflexivity.
Defined.

(** X25, an instance: an address of 20 characters and one of 3. *)
Lemma getTruncatedRecipient_shape_witness :
  Methods.getTruncatedRecipient Samples.dashed = "TCTIMU...RSKX"
  /\ Methods.getTruncatedRecipient Samples.plain = "TCT...TCT".
Proof.
  destruct (getTruncatedRecipient_shape Samples.plain eq_refl)
    as (_ & _ & Hshort & _).
  split; [reflexivity|]. apply Hshort; [discriminate|cbn; lia].
Defined.
